(** * SurveyXact utility: respondent answers and respondent upload

    A shallow embedding of [RespondentAnswers.get_answers] and of the
    respondent uploader ([CreateRespondent.insert_respondent],
    [CreateRespondent.save_respondent_to_db]) of [surveyxact.utility.py].

    [get_answers] works on the two documents that [json.loads] returns after
    [xmltodict.parse]: nested Python dicts, lists, strings and [None].  The
    HTTP requests and the XML parsing are outside the model; the documents
    are the inputs.  Python's dynamic failures ([KeyError], [TypeError],
    [AttributeError]) are results of the model. *)

From stdpp Require Import base list strings.
From Stdlib Require Import ZArith Lia.

(** ** Python values of a parsed document *)

#[local] Set Warnings "-register-all".

Inductive json : Type :=
  | JNull
  | JStr (s : string)
  | JList (l : list json)
  | JDict (d : list (string * json)).

(** The built-in exceptions the code can raise. *)
Inductive exn : Type :=
  | KeyError
  | TypeError
  | AttributeError.

Definition exn_name (e : exn) : string :=
  match e with
  | KeyError => "KeyError"
  | TypeError => "TypeError"
  | AttributeError => "AttributeError"
  end.

Inductive result (A : Type) : Type :=
  | Ok (a : A)
  | Raise (e : exn).
Arguments Ok {A} a.
Arguments Raise {A} e.

Definition bind {A B} (m : result A) (f : A -> result B) : result B :=
  match m with
  | Ok a => f a
  | Raise e => Raise e
  end.

Notation "x <- m ;; k" := (bind m (fun x => k))
  (at level 100, m at next level, right associativity).

Definition is_ok {A} (m : result A) : bool :=
  match m with Ok _ => true | Raise _ => false end.

(** A loop [for x in l: s = body(s, x)] whose body may raise. *)
Fixpoint for_each {S A} (body : S -> A -> result S) (l : list A) (s : S)
  : result S :=
  match l with
  | [] => Ok s
  | x :: l' => s' <- body s x;; for_each body l' s'
  end.

(** [d] as an insertion-ordered dict with string keys. *)
Fixpoint assoc {V} (k : string) (d : list (string * V)) : option V :=
  match d with
  | [] => None
  | (k', v) :: d' => if String.eqb k' k then Some v else assoc k d'
  end.

(** [a == b]: lists compare element by element, dicts compare as maps. *)
Fixpoint py_eq (a b : json) {struct a} : bool :=
  match a, b with
  | JNull, JNull => true
  | JStr s, JStr t => String.eqb s t
  | JList l, JList m =>
      (fix go (l m : list json) {struct l} : bool :=
         match l, m with
         | [], [] => true
         | x :: l', y :: m' => py_eq x y && go l' m'
         | _, _ => false
         end) l m
  | JDict d, JDict e =>
      Nat.eqb (length d) (length e) &&
      (fix go (d : list (string * json)) : bool :=
         match d with
         | [] => true
         | (k, v) :: d' =>
             match assoc k e with
             | Some w => py_eq v w
             | None => false
             end && go d'
         end) d
  | _, _ => false
  end.

(** [bool(x)], as tested by [if x:]. *)
Definition py_truthy (x : json) : bool :=
  match x with
  | JNull => false
  | JStr s => negb (String.eqb s "")
  | JList l => match l with [] => false | _ => true end
  | JDict d => match d with [] => false | _ => true end
  end.

(** [x[k]] for a string key [k]. *)
Definition py_getitem (x : json) (k : string) : result json :=
  match x with
  | JDict d =>
      match assoc k d with
      | Some v => Ok v
      | None => Raise KeyError
      end
  | _ => Raise TypeError
  end.

(** [x.get(k, dflt)]: only dicts have the method. *)
Definition py_get (x : json) (k : string) (dflt : json) : result json :=
  match x with
  | JDict d => Ok (default dflt (assoc k d))
  | _ => Raise AttributeError
  end.

Fixpoint chars (s : string) : list json :=
  match s with
  | EmptyString => []
  | String c s' => JStr (String c EmptyString) :: chars s'
  end.

(** The items a [for] loop or a generator draws from [x]: the elements of a
    list, the keys of a dict, the characters of a string. *)
Definition py_iter (x : json) : result (list json) :=
  match x with
  | JList l => Ok l
  | JDict d => Ok (map (fun kv => JStr (fst kv)) d)
  | JStr s => Ok (chars s)
  | JNull => Raise TypeError
  end.

Fixpoint is_substring (k s : string) : bool :=
  String.prefix k s ||
  match s with
  | EmptyString => false
  | String _ s' => is_substring k s'
  end.

(** [k in x] for a string [k]. *)
Definition py_contains (k : string) (x : json) : result bool :=
  match x with
  | JDict d => Ok (match assoc k d with Some _ => true | None => false end)
  | JList l => Ok (existsb (fun x => py_eq x (JStr k)) l)
  | JStr s => Ok (is_substring k s)
  | JNull => Raise TypeError
  end.

(** ** Dicts built by the code

    [questions_mapping] and [choices] are keyed by values read from the
    document.  A key has to be hashable: a string or [None]. *)

Definition hashable (k : json) : bool :=
  match k with
  | JNull | JStr _ => true
  | JList _ | JDict _ => false
  end.

Definition pymap (V : Type) : Type := list (json * V).

Fixpoint pymap_lookup {V} (k : json) (m : pymap V) : option V :=
  match m with
  | [] => None
  | (k', v) :: m' => if py_eq k' k then Some v else pymap_lookup k m'
  end.

Fixpoint pymap_insert {V} (k : json) (v : V) (m : pymap V) : pymap V :=
  match m with
  | [] => [(k, v)]
  | (k', v') :: m' =>
      if py_eq k' k then (k', v) :: m' else (k', v') :: pymap_insert k v m'
  end.

(** [m[k] = v] *)
Definition pymap_set {V} (m : pymap V) (k : json) (v : V) : result (pymap V) :=
  if hashable k then Ok (pymap_insert k v m) else Raise TypeError.

(** [m.get(k)], with [None] for a missing key. *)
Definition pymap_get {V} (m : pymap V) (k : json) : result (option V) :=
  if hashable k then Ok (pymap_lookup k m) else Raise TypeError.

(** ** [RespondentAnswers.get_answers] *)

(** A value of [questions_mapping]: [{'text': ..., 'choices': ...}]. *)
Record question : Type := mk_question {
  text : json;
  choices : pymap json
}.

(** An element of [answers].  [question_value] is [JNull] for Python's
    [None]. *)
Record answer_record : Type := mk_answer {
  respondent_id : json;
  survey_id : string;
  question_name : json;
  question_text : json;
  question_value : json;
  choice_text : json
}.

(** [json_data['questionnaire']['foreground']['variable']] *)
Definition foreground_variables (json_data : json) : result json :=
  q <- py_getitem json_data "questionnaire";;
  f <- py_getitem q "foreground";;
  py_getitem f "variable".

(** [x['text'].get('#text', '')] *)
Definition text_of (x : json) : result json :=
  t <- py_getitem x "text";;
  py_get t "#text" (JStr "").

(** The body of [for choice in item['varChoice']]. *)
Definition index_choice (choices : pymap json) (choice : json)
  : result (pymap json) :=
  choice_value <- py_getitem choice "@value";;
  choice_text <- text_of choice;;
  pymap_set choices choice_value choice_text.

(** [item['varChoice']], as iterated. *)
Definition var_choices (item : json) : result (list json) :=
  v <- py_getitem item "varChoice";;
  py_iter v.

(** The body of [for item in foreground_variables]. *)
Definition index_item (mapping : pymap question) (item : json)
  : result (pymap question) :=
  question_name <- py_getitem item "@name";;
  question_text <- text_of item;;
  has_choices <- py_contains "varChoice" item;;
  choices <-
    (if has_choices : bool then
       l <- var_choices item;;
       for_each index_choice l []
     else Ok []);;
  pymap_set mapping question_name (mk_question question_text choices).

(** The items of [for item in foreground_variables]. *)
Definition variables (json_data : json) : result (list json) :=
  v <- foreground_variables json_data;;
  py_iter v.

(** The dict [questions_mapping] once the first loop has ended. *)
Definition questions_mapping (json_data : json) : result (pymap question) :=
  items <- variables json_data;;
  for_each index_item items [].

(** [data['respondentanswer']['answer'].get(kind, [])], as iterated. *)
Definition answer_entries (kind : string) (data : json) : result (list json) :=
  ra <- py_getitem data "respondentanswer";;
  a <- py_getitem ra "answer";;
  v <- py_get a kind (JList []);;
  py_iter v.

Definition valueSingle : json -> result (list json) :=
  answer_entries "valueSingle".
Definition valueText : json -> result (list json) :=
  answer_entries "valueText".

(** [next((item['#text'] for item in items if item['@name'] == question_name),
    None)]: the generator stops at the first item that passes the test. *)
Fixpoint text_answer_for (items : list json) (question_name : json)
  : result json :=
  match items with
  | [] => Ok JNull
  | item :: rest =>
      name <- py_getitem item "@name";;
      if py_eq name question_name then py_getitem item "#text"
      else text_answer_for rest question_name
  end.

(** [questions_mapping.get(question_name, {})
      .get('text', 'Unknown Question')] *)
Definition lookup_question_text (mapping : pymap question) (name : json)
  : result json :=
  q <- pymap_get mapping name;;
  Ok (match q with Some d => text d | None => JStr "Unknown Question" end).

(** [questions_mapping.get(question_name, {}).get('choices', {})
      .get(question_value, 'Unknown Choice')] *)
Definition lookup_choice_text (mapping : pymap question) (name value : json)
  : result json :=
  q <- pymap_get mapping name;;
  c <- pymap_get (match q with Some d => choices d | None => [] end) value;;
  Ok (default (JStr "Unknown Choice") c).

(** The body of the loop over the [valueSingle] entries. *)
Definition choice_step (data : json) (mapping : pymap question)
    (respondent_id : json) (survey_id : string)
    (answers : list answer_record) (answer : json)
  : result (list answer_record) :=
  question_name <- py_getitem answer "@name";;
  question_text <- lookup_question_text mapping question_name;;
  c <- py_getitem answer "choice";;
  question_value <- py_getitem c "@value";;
  choice_text <- lookup_choice_text mapping question_name question_value;;
  items <- valueText data;;
  text_answer <- text_answer_for items question_name;;
  if py_truthy text_answer then
    Ok (answers ++ [mk_answer respondent_id survey_id question_name
                      question_text question_value text_answer])
  else
    Ok (answers ++ [mk_answer respondent_id survey_id question_name
                      question_text question_value choice_text]).

(** The body of the loop over the [valueText] entries. *)
Definition text_step (mapping : pymap question)
    (respondent_id : json) (survey_id : string)
    (answers : list answer_record) (answer : json)
  : result (list answer_record) :=
  name <- py_getitem answer "@name";;
  if existsb (fun a => py_eq (question_name a) name) answers then Ok answers
  else
    question_text <- lookup_question_text mapping name;;
    text_answer <- py_get answer "#text" JNull;;
    match text_answer with
    | JNull => Ok answers
    | _ =>
        Ok (answers ++ [mk_answer respondent_id survey_id name
                          question_text JNull text_answer])
    end.

(** [get_answers], from the parsed questionnaire [json_data] and the parsed
    respondent document [data]: the list [answers] of the source, which it
    returns. *)
Definition get_answers (survey_id : string) (json_data data : json)
  : result (list answer_record) :=
  mapping <- questions_mapping json_data;;
  ra <- py_getitem data "respondentanswer";;
  respondent_id <- py_getitem ra "@key";;
  singles <- valueSingle data;;
  answers <- for_each (choice_step data mapping respondent_id survey_id)
               singles [];;
  texts <- valueText data;;
  for_each (text_step mapping respondent_id survey_id) texts answers.

(** ** Sample documents *)

Definition text_block (body : string) : json :=
  JDict [("@lang", JStr "da"); ("#text", JStr body)].

Definition var_choice (value body : string) : json :=
  JDict [("@value", JStr value); ("text", text_block body)].

Definition variable (name body : string) (cs : list json) : json :=
  JDict [("@name", JStr name); ("text", text_block body);
         ("varChoice", JList cs)].

Definition questionnaire_doc (vars : list json) : json :=
  JDict [("questionnaire",
          JDict [("foreground", JDict [("variable", JList vars)])])].

Definition single (name value : string) : json :=
  JDict [("@name", JStr name); ("choice", JDict [("@value", JStr value)])].

Definition free_text (name body : string) : json :=
  JDict [("@name", JStr name); ("#text", JStr body)].

Definition respondent_doc (key : string) (singles texts : list json) : json :=
  JDict [("respondentanswer",
          JDict [("@key", JStr key);
                 ("answer", JDict [("valueSingle", JList singles);
                                   ("valueText", JList texts)])])].

Definition survey : json :=
  questionnaire_doc
    [variable "Q1" "First" [var_choice "1" "Yes"; var_choice "2" "No"];
     JDict [("@name", JStr "Q2"); ("text", text_block "Second")];
     variable "Q3" "Third" [var_choice "1" "A"]].

(** The index of [survey]. *)
Definition survey_index : pymap question :=
  [(JStr "Q1", mk_question (JStr "First")
                 [(JStr "1", JStr "Yes"); (JStr "2", JStr "No")]);
   (JStr "Q2", mk_question (JStr "Second") []);
   (JStr "Q3", mk_question (JStr "Third") [(JStr "1", JStr "A")])].

Definition answers_scenario : json :=
  respondent_doc "R" [single "Q1" "1"]
    [free_text "Q1" "Maybe, unsure"; free_text "Q2" "free comment"].

(** Two coded answers to the same question. *)
Definition answers_repeated_choice : json :=
  respondent_doc "R" [single "Q1" "1"; single "Q1" "2"] [].

(** A coded answer whose text entry has an empty string as text. *)
Definition answers_empty_override : json :=
  respondent_doc "R" [single "Q1" "1"] [free_text "Q1" ""].

(** A text entry with an empty string as text and no coded answer. *)
Definition answers_empty_text : json :=
  respondent_doc "R" [] [free_text "Q2" ""].

(** A text entry without a text and no coded answer. *)
Definition answers_absent_text : json :=
  respondent_doc "R" [] [JDict [("@name", JStr "Q2")]].

Definition answers_unknown_choice : json :=
  respondent_doc "R" [single "Q3" "9"] [].

Definition answers_unknown_question : json :=
  respondent_doc "R" [single "Q7" "1"] [free_text "Q8" "hello"].

(** A questionnaire whose text blocks have no body. *)
Definition survey_without_bodies : json :=
  questionnaire_doc
    [JDict [("@name", JStr "Q1");
            ("text", JDict [("@lang", JStr "da")]);
            ("varChoice",
             JList [JDict [("@value", JStr "1"); ("text", JDict [])]])]].

(** A questionnaire whose second text block is an empty element without
    attributes, which is parsed as [None]. *)
Definition survey_with_empty_text_element : json :=
  questionnaire_doc
    [variable "Q1" "First" [var_choice "1" "Yes"; var_choice "2" "No"];
     JDict [("@name", JStr "Q2"); ("text", JNull)]].

(** A questionnaire without a [foreground] section, and a respondent
    document without a [respondentanswer] root. *)
Definition survey_without_foreground : json :=
  JDict [("questionnaire", JDict [("background", JNull)])].

Definition answers_without_root : json :=
  JDict [("error", JStr "no such respondent")].

(** ** Well-formed respondent documents

    The checks below are the ones the two loops of [get_answers] make on the
    way: every entry exposes its name (and a choice entry its coded value) as
    a hashable value, and a choice entry finds the text of the first
    [valueText] entry of its question, if there is one. *)

Definition valid_choice_entry (texts : list json) (e : json) : bool :=
  match py_getitem e "@name",
        (c <- py_getitem e "choice";; py_getitem c "@value") with
  | Ok name, Ok value =>
      hashable name && hashable value && is_ok (text_answer_for texts name)
  | _, _ => false
  end.

Definition valid_text_entry (e : json) : bool :=
  match py_getitem e "@name" with
  | Ok name => hashable name
  | Raise _ => false
  end.

Definition valid_respondent (data : json) : bool :=
  match (ra <- py_getitem data "respondentanswer";; py_getitem ra "@key"),
        valueSingle data, valueText data with
  | Ok _, Ok singles, Ok texts =>
      forallb (valid_choice_entry texts) singles &&
      forallb valid_text_entry texts
  | _, _, _ => false
  end.

(** ** Well-formed questionnaires

    Every variable and every choice exposes a hashable name or value and a
    [text] block that is a dict, and [varChoice], where present, is a list
    of such choices.  Whether a [text] block has a ['#text'] body is left
    open. *)

Definition is_dict (x : json) : bool :=
  match x with JDict _ => true | _ => false end.

Definition valid_var_choice (c : json) : bool :=
  match py_getitem c "@value", py_getitem c "text" with
  | Ok value, Ok t => hashable value && is_dict t
  | _, _ => false
  end.

Definition valid_variable (item : json) : bool :=
  match py_getitem item "@name", py_getitem item "text" with
  | Ok name, Ok t =>
      hashable name && is_dict t &&
      match (v <- py_get item "varChoice" (JList []);; py_iter v) with
      | Ok l => forallb valid_var_choice l
      | Raise _ => false
      end
  | _, _ => false
  end.

Definition valid_questionnaire (json_data : json) : bool :=
  match variables json_data with
  | Ok items => forallb valid_variable items
  | Raise _ => false
  end.

(** [x] is the last item of [l] with key [k]. *)
Definition last_with_key (key : json -> result json) (l : list json)
    (i : nat) (x k : json) : Prop :=
  l !! i = Some x /\ key x = Ok k /\
  forall i' x', i < i' -> l !! i' = Some x' -> key x' <> Ok k.

(** What the first loop stores for a variable. *)
Definition indexed_as (item : json) (qd : question) : Prop :=
  text_of item = Ok (text qd) /\
  forall l, var_choices item = Ok l ->
            for_each index_choice l [] = Ok (choices qd).

(** ** Missing containers *)

(** [x] is a dict without the key [k]. *)
Definition lacks_key (x : json) (k : string) : bool :=
  match x with
  | JDict d => match assoc k d with Some _ => false | None => true end
  | _ => false
  end.

(** The questionnaire has no [questionnaire], [foreground] or [variable]
    section. *)
Definition lacks_variables (json_data : json) : bool :=
  lacks_key json_data "questionnaire" ||
  match py_getitem json_data "questionnaire" with
  | Ok q =>
      lacks_key q "foreground" ||
      match py_getitem q "foreground" with
      | Ok f => lacks_key f "variable"
      | Raise _ => false
      end
  | Raise _ => false
  end.

(** ** Where a record comes from

    [from_choice] relates a [valueSingle] entry to the record the first loop
    appends for it, [from_text] a [valueText] entry to the record the second
    loop appends for it. *)

Definition from_choice (mapping : pymap question) (texts : list json)
    (rid : json) (sid : string) (entry : json) (r : answer_record) : Prop :=
  exists name value c qt ct t,
    py_getitem entry "@name" = Ok name /\
    py_getitem entry "choice" = Ok c /\
    py_getitem c "@value" = Ok value /\
    lookup_question_text mapping name = Ok qt /\
    lookup_choice_text mapping name value = Ok ct /\
    text_answer_for texts name = Ok t /\
    r = mk_answer rid sid name qt value (if py_truthy t then t else ct).

Definition from_text (mapping : pymap question)
    (rid : json) (sid : string) (entry : json) (r : answer_record) : Prop :=
  exists name qt t,
    py_getitem entry "@name" = Ok name /\
    lookup_question_text mapping name = Ok qt /\
    py_get entry "#text" JNull = Ok t /\
    t <> JNull /\
    r = mk_answer rid sid name qt JNull t.

(** The names of the records of a list, in order. *)
Definition names (answers : list answer_record) : list json :=
  question_name <$> answers.

(** The [@name] of each entry of a list, in order. *)
Definition entry_names (entries : list json) : list (result json) :=
  (fun e => py_getitem e "@name") <$> entries.

(** No [valueText] entry of the question carries a text that passes
    [if text_answer:]. *)
Definition no_text_override (texts : list json) (name : json) : Prop :=
  forall e t, e ∈ texts -> py_getitem e "@name" = Ok name ->
              py_getitem e "#text" = Ok t -> py_truthy t = false.

(** ** The payload of [insert_respondent]

    The dict built for a row by [process_base_respondents] and the body
    [insert_respondent] posts for it.  A Python string is the list of its
    code points; [str.encode()] is strict UTF-8 and [bytes.decode('latin1')]
    reads each byte as the code point of the same number. *)

Module Payload.

Definition pystr : Type := list N.

Inductive failure : Type :=
  | MissingKey (k : pystr)      (* KeyError *)
  | UnicodeEncodeError.

(** The code points of a literal. *)
Fixpoint literal (s : string) : pystr :=
  match s with
  | EmptyString => []
  | String c s' => Ascii.N_of_ascii c :: literal s'
  end.

(** The UTF-8 bytes of one code point; the surrogates have none. *)
Definition utf8 (c : N) : failure + list N :=
  if (c <? 128)%N then inr [c]
  else if (c <? 2048)%N then inr [(192 + c / 64)%N; (128 + c mod 64)%N]
  else if (c <? 65536)%N then
    if ((55296 <=? c) && (c <? 57344))%N then inl UnicodeEncodeError
    else inr [(224 + c / 4096)%N; (128 + (c / 64) mod 64)%N;
              (128 + c mod 64)%N]
  else inr [(240 + c / 262144)%N; (128 + (c / 4096) mod 64)%N;
            (128 + (c / 64) mod 64)%N; (128 + c mod 64)%N].

(** [value.encode().decode('latin1')] *)
Fixpoint recode (value : pystr) : failure + pystr :=
  match value with
  | [] => inr []
  | c :: value' =>
      match utf8 c, recode value' with
      | inr bytes, inr rest => inr (bytes ++ rest)
      | inl e, _ => inl e
      | _, inl e => inl e
      end
  end.

(** A dict with string keys, in insertion order. *)
Definition dict : Type := list (pystr * pystr).

Fixpoint dict_get (k : pystr) (d : dict) : option pystr :=
  match d with
  | [] => None
  | (k', v) :: d' => if decide (k' = k) then Some v else dict_get k d'
  end.

(** [d[k] = v] *)
Fixpoint dict_set (k v : pystr) (d : dict) : dict :=
  match d with
  | [] => [(k, v)]
  | (k', v') :: d' =>
      if decide (k' = k) then (k', v) :: d' else (k', v') :: dict_set k v d'
  end.

(** [key+'='+value.encode().decode('latin1')] for each item. *)
Fixpoint fields (d : dict) : failure + list pystr :=
  match d with
  | [] => inr []
  | (k, v) :: d' =>
      match recode v, fields d' with
      | inr v', inr rest => inr ((k ++ literal "=" ++ v') :: rest)
      | inl e, _ => inl e
      | _, inl e => inl e
      end
  end.

(** [sep.join(l)] *)
Fixpoint join (sep : pystr) (l : list pystr) : pystr :=
  match l with
  | [] => []
  | [x] => x
  | x :: l' => x ++ sep ++ join sep l'
  end.

(** [insert_respondent] up to the request: the dict of the caller as the
    assignment of ['requesti'] leaves it, and the payload.  [now] is what
    [datetime.now().strftime('%Y%m%d%H%M%S')] returns. *)
Definition insert_respondent (respondent_dict : dict) (now : pystr)
  : failure + dict * pystr :=
  match dict_get (literal "accounti") respondent_dict with
  | None => inl (MissingKey (literal "accounti"))
  | Some accounti =>
      let requestid := accounti ++ now in
      let respondent_dict :=
        dict_set (literal "requesti") requestid respondent_dict in
      match fields respondent_dict with
      | inl e => inl e
      | inr l => inr (respondent_dict, join (literal "&") l)
      end
  end.

(** The items of the dict literal of [process_base_respondents]: the key
    and the column of the row it is read from. *)
Definition columns : list (string * string) :=
  [("email", "EMAIL"); ("entrytyp", "ENTRYTYPE"); ("telco", "TELCO");
   ("accounti", "ACCOUNTID"); ("firstnam", "FIRSTNAME");
   ("lastnam", "LASTNAME"); ("zipcode", "ZIPCODE"); ("sex", "SEX");
   ("age", "AGE"); ("kundeniv", "KUNDENIVEAUPRIS");
   ("schannel", "SALESCHANNEL"); ("permissi", "PERMISSION");
   ("gadato", "FIRSTACTIVEDATE"); ("salgsdat", "SUBSCRIBEDATE");
   ("mix", "MIX"); ("voice", "VOICE"); ("fwa", "FWA"); ("mbb", "MBB");
   ("phone", "PHONE"); ("permissi", "PERMISSION")].

(** One item of the literal: [r[source]] raises when the row has no such
    column. *)
Definition add_item (r : dict) (d : dict) (item : string * string)
  : failure + dict :=
  match dict_get (literal item.2) r with
  | None => inl (MissingKey (literal item.2))
  | Some v => inr (dict_set (literal item.1) v d)
  end.

Fixpoint add_items (r : dict) (items : list (string * string)) (d : dict)
  : failure + dict :=
  match items with
  | [] => inr d
  | item :: items' =>
      match add_item r d item with
      | inl e => inl e
      | inr d' => add_items r items' d'
      end
  end.

(** [respondent_dict = {'email': r['EMAIL'], ...}] *)
Definition respondent_dict (r : dict) : failure + dict :=
  add_items r columns [].

(** How often the code point [c] occurs. *)
Fixpoint count (c : N) (s : pystr) : nat :=
  match s with
  | [] => 0
  | x :: s' => (if (x =? c)%N then 1 else 0) + count c s'
  end.

(** How often [c] occurs in the keys and values of a dict. *)
Fixpoint count_items (c : N) (d : dict) : nat :=
  match d with
  | [] => 0
  | (k, v) :: d' => count c k + count c v + count_items c d'
  end.

(** Every item of a dict passes a test on its key and one on its value. *)
Definition items_pass (P Q : N -> Prop) (d : dict) : Prop :=
  Forall (fun item => Forall P item.1 /\ Forall Q item.2) d.

(** A row with every column, the value of each being its name in lower
    case but for [FIRSTNAME], which is [Zoë & Co]. *)
Definition sample_row : dict :=
  map (fun item : string * string =>
         (literal item.2,
          if String.eqb item.2 "FIRSTNAME"
          then [90; 111; 235; 32; 38; 32; 67; 111]%N
          else literal item.1))
      columns.

(** The dict of [sample_row]. *)
Definition sample_dict : dict :=
  map (fun item : string * string =>
         (literal item.1,
          if String.eqb item.1 "firstnam"
          then [90; 111; 235; 32; 38; 32; 67; 111]%N
          else literal item.1))
      (take 19 columns).

Definition sample_now : pystr := literal "20240131120000".

End Payload.

(** ** The respondent uploader

    [CreateRespondent.insert_respondent], [CreateRespondent
    .save_respondent_to_db] and the body of the loop of
    [process_base_respondents] that calls them.  The remote service and the
    database are outside the program: a [world] fixes how each of their
    calls ends, and a run records the calls it makes. *)

Module Uploader.

(** What a row holds in a column: a string, or something that is not one
    ([None] for a column without a value, a number, a date). *)
Inductive value : Type :=
  | Str (s : Payload.pystr)
  | NotStr.

(** A dict with string keys, in insertion order. *)
Definition pydict : Type := list (Payload.pystr * value).

(** [d[k]], [None] standing for [KeyError]. *)
Fixpoint getitem (k : Payload.pystr) (d : pydict) : option value :=
  match d with
  | [] => None
  | (k', v) :: d' => if decide (k' = k) then Some v else getitem k d'
  end.

(** [d[k] = v] *)
Fixpoint setitem (k : Payload.pystr) (v : value) (d : pydict) : pydict :=
  match d with
  | [] => [(k, v)]
  | (k', v') :: d' =>
      if decide (k' = k) then (k', v) :: d' else (k', v') :: setitem k v d'
  end.

(** A dict of strings. *)
Definition strings (d : Payload.dict) : pydict :=
  map (fun item : Payload.pystr * Payload.pystr => (item.1, Str item.2)) d.

Inductive event : Type :=
  | HttpPost      (* requests.request("POST", ...) *)
  | DbExecute     (* self.db_manager.cursor.execute(stmt, values) *)
  | DbCommit      (* self.db_manager.connection.commit() *)
  | DbConnect.    (* DatabaseManager(...) *)



(** The exceptions of a run.  [DictFailure] is a [KeyError], [TypeError] or
    [AttributeError] raised on the dict of the respondent and
    [EncodeFailure] a [UnicodeEncodeError]; those of the database carry the
    index [i] of the iteration of [for i in range(3)] in which they were
    raised. *)
Inductive failure : Type :=
  | DictFailure (e : exn)
  | EncodeFailure
  | HttpFailure
  | ResponseFailure
  | ExecuteFailure (i : nat)
  | CommitFailure (i : nat)
  | ConnectFailure (i : nat).

Inductive http_outcome : Type :=
  | HttpRaises
  | HttpStatus (status_code : Z) (usable : bool).

(** [now] is what [datetime.now().strftime('%Y%m%d%H%M%S')] returns. *)
Record world : Type := {
  now : Payload.pystr;
  http : http_outcome;
  execute_ok : nat -> bool;
  commit_ok : nat -> bool;
  connect_ok : nat -> bool
}.

Inductive outcome (A : Type) : Type :=
  | Done (a : A)
  | Fail (f : failure).
Arguments Done {A} a.
Arguments Fail {A} f.

(** A run takes the calls made so far and returns its outcome and the
    calls made by its end. *)
Definition run (A : Type) : Type := list event -> outcome A * list event.

Definition ret {A} (a : A) : run A := fun tr => (Done a, tr).

Definition raise {A} (f : failure) : run A := fun tr => (Fail f, tr).

Definition call (e : event) : run unit := fun tr => (Done tt, tr ++ [e]).

Definition and_then {A B} (m : run A) (k : A -> run B) : run B :=
  fun tr =>
    match m tr with
    | (Done a, tr') => k a tr'
    | (Fail f, tr') => (Fail f, tr')
    end.

(** [try: m  except Exception as e: handler(e)] *)
Definition try_except {A} (m : run A) (handler : failure -> run A) : run A :=
  fun tr =>
    match m tr with
    | (Done a, tr') => (Done a, tr')
    | (Fail f, tr') => handler f tr'
    end.

(** A computation on the dict, which calls nothing. *)
Definition lift {A} (x : failure + A) : run A :=
  match x with
  | inl f => raise f
  | inr a => ret a
  end.

Notation "x <-- m ;;; k" := (and_then m (fun x => k))
  (at level 100, m at next level, right associativity).
Notation "m1 ;;; m2" := (and_then m1 (fun _ => m2))
  (at level 100, right associativity).

(** [self.respondent_dict['accounti'] + datetime.now().strftime(...)]:
    a [KeyError] without the key, a [TypeError] when its value is not a
    string. *)
Definition new_requestid (respondent_dict : pydict) (now : Payload.pystr)
  : failure + Payload.pystr :=
  match getitem (Payload.literal "accounti") respondent_dict with
  | None => inl (DictFailure KeyError)
  | Some NotStr => inl (DictFailure TypeError)
  | Some (Str accounti) => inr (accounti ++ now)
  end.

(** [key+'='+value.encode().decode('latin1')] for each item, in the order of
    the dict: an [AttributeError] at a value that is not a string, which has
    no [encode], a [UnicodeEncodeError] at a string with a surrogate. *)
Fixpoint fields (d : pydict) : failure + list Payload.pystr :=
  match d with
  | [] => inr []
  | (key, NotStr) :: _ => inl (DictFailure AttributeError)
  | (key, Str s) :: d' =>
      match Payload.recode s with
      | inl _ => inl EncodeFailure
      | inr v =>
          match fields d' with
          | inl e => inl e
          | inr rest => inr ((key ++ Payload.literal "=" ++ v) :: rest)
          end
      end
  end.

(** ['&'.join([... for key, value in self.respondent_dict.items()])] *)
Definition payload (respondent_dict : pydict) : failure + Payload.pystr :=
  match fields respondent_dict with
  | inl e => inl e
  | inr l => inr (Payload.join (Payload.literal "&") l)
  end.

(** [insert_respondent]: the request id is built before the [try]; in it,
    the id is stored in the dict, the payload is joined and then posted,
    with [None] as result when the status is not 200.  The exception handler
    of the source logs and raises again. *)
Definition insert_respondent (w : world) (respondent_dict : pydict)
  : run (option bool) :=
  requestid <-- lift (new_requestid respondent_dict (now w));;;
  try_except
    (let respondent_dict :=
       setitem (Payload.literal "requesti") (Str requestid) respondent_dict in
     _ <-- lift (payload respondent_dict);;;
     call HttpPost;;;
     match http w with
     | HttpRaises => raise HttpFailure
     | HttpStatus status_code usable =>
         if (status_code =? 200)%Z then ret (Some usable) else ret None
     end)
    (fun e => raise e).

(** One iteration of [for i in range(3)]; [true] stands for [break],
    [false] for [continue]. *)
Definition attempt (w : world) (i : nat) : run bool :=
  try_except
    (call DbExecute;;;
     (if execute_ok w i then ret tt else raise (ExecuteFailure i));;;
     call DbCommit;;;
     (if commit_ok w i then ret tt else raise (CommitFailure i));;;
     ret true)
    (fun e =>
       if i + 1 =? 3 then raise e
       else
         call DbConnect;;;
         (if connect_ok w i then ret tt else raise (ConnectFailure i));;;
         ret false).

Fixpoint attempts (w : world) (range : list nat) : run unit :=
  match range with
  | [] => ret tt
  | i :: range' =>
      and_then (attempt w i)
        (fun stop => if stop : bool then ret tt else attempts w range')
  end.

(** The outer handler of the source prints and raises again. *)
Definition save_respondent_to_db (w : world) : run unit :=
  try_except (attempts w [0; 1; 2]) (fun e => raise e).

(** The body of [for r in respondent_dicts] from the call of
    [insert_respondent] on: the response is read ([response.json()],
    [createts]), which fails on [None] and on a response that cannot be
    read, and then saved. *)
Definition process_respondent (w : world) (respondent_dict : pydict)
  : run unit :=
  response <-- insert_respondent w respondent_dict;;;
  match response with
  | Some true => save_respondent_to_db w
  | Some false | None => raise ResponseFailure
  end.

(** Nothing raises in [insert_respondent] before the request. *)
Definition payload_built (w : world) (respondent_dict : pydict) : bool :=
  match new_requestid respondent_dict (now w) with
  | inl _ => false
  | inr requestid =>
      match payload (setitem (Payload.literal "requesti") (Str requestid)
                       respondent_dict) with
      | inl _ => false
      | inr _ => true
      end
  end.

(** The persistence step of iteration [i] goes through. *)
Definition attempt_ok (w : world) (i : nat) : bool :=
  execute_ok w i && commit_ok w i.

Definition result_of {A} (m : run A) : outcome A := fst (m []).
Definition trace_of {A} (m : run A) : list event := snd (m []).


(** A database that never accepts the row. *)
Definition never_commits : world :=
  {| now := Payload.sample_now;
     http := HttpStatus 200 true;
     execute_ok := fun _ => true;
     commit_ok := fun _ => false;
     connect_ok := fun _ => true |}.

(** The dict of [Payload.sample_row]; the same with [None] as age, as for a
    row without a value in that column; and with a lone surrogate in the
    first name. *)
Definition sample_dict : pydict := strings Payload.sample_dict.



End Uploader.

(** ** Documents with a single child

    Where an element has one child of a name, the parsed document holds
    the child itself, a dict, in place of a list of children. *)

Definition respondent_of (answer : json) : json :=
  JDict [("respondentanswer", JDict [("@key", JStr "R"); ("answer", answer)])].

(** One coded answer, not in a list. *)
Definition answers_single_choice : json :=
  respondent_of (JDict [("valueSingle", single "Q1" "1")]).

(** One text answer, not in a list. *)
Definition answers_single_text : json :=
  respondent_of (JDict [("valueText", free_text "Q2" "free comment")]).

(** A questionnaire with one variable, not in a list. *)
Definition survey_single_variable : json :=
  JDict [("questionnaire",
          JDict [("foreground",
                  JDict [("variable", variable "Q1" "First" [])])])].

(** A questionnaire whose variable has one choice, not in a list. *)
Definition survey_single_choice : json :=
  questionnaire_doc
    [JDict [("@name", JStr "Q1"); ("text", text_block "First");
            ("varChoice", var_choice "1" "Yes")]].

(** A coded answer to [Q1] after one to [Q3], and a text entry for [Q1]
    that has no text. *)
Definition answers_choice_with_absent_text : json :=
  respondent_doc "R" [single "Q3" "1"; single "Q1" "1"]
    [free_text "Q2" "free comment"; JDict [("@name", JStr "Q1")]].
(** Two text entries for [Q2], the first without a text, and one for the
    question [Q1] of the coded answer. *)
Definition answers_second_text : json :=
  respondent_doc "R" [single "Q1" "2"]
    [JDict [("@name", JStr "Q2")]; free_text "Q2" "second";
     free_text "Q2" "third"; free_text "Q1" ""].

(** A questionnaire that names [Q1] twice. *)
Definition survey_repeated_variable : json :=
  questionnaire_doc
    [variable "Q1" "First" [var_choice "1" "Yes"];
     variable "Q2" "Second" [];
     variable "Q1" "Again" []].
(** ** The batch of respondents and its connections

    [process_base_respondents] with the [DatabaseManager] objects it
    touches.  The local [db_manager] and the attribute [db_manager] of the
    uploader start as one object; a reconnection in
    [save_respondent_to_db] binds the attribute to a new object and leaves
    the local name on the first.  Connections are numbered in the order
    they are opened, and every call is recorded with the connection, or
    the respondent, it is made for. *)

Module Batch.

Inductive event : Type :=
  | Open (c : nat)              (* cx_Oracle.connect(...) returned *)
  | OpenFailed                  (* cx_Oracle.connect(...) raised *)
  | Post (r : nat)              (* requests.request("POST", ...) *)
  | Execute (c r : nat)         (* cursor.execute(stmt, values) *)
  | Commit (c r : nat)          (* connection.commit() *)
  | CloseCursor (c : nat)       (* cursor.close() *)
  | CloseConnection (c : nat).  (* connection.close() *)

Inductive failure : Type :=
  | ConnectionFailure           (* the first DatabaseManager(...) *)
  | RowFailure (r : nat)        (* r['EMAIL'], ...: a column is missing *)
  | UploadFailure (r : nat) (f : Uploader.failure)
  | CloseFailure.

Inductive outcome (A : Type) : Type :=
  | Done (a : A)
  | Fail (f : failure).
Arguments Done {A} a.
Arguments Fail {A} f.

(** [opened] connections exist, numbered from 0; [manager] is the one the
    attribute [db_manager] of the uploader holds. *)
Record conns : Type := {
  opened : nat;
  manager : nat
}.

(** The rows of a batch and what the remote service and the database do
    for it: for each respondent, its row and the world of its upload. *)
Record world : Type := {
  first_connect_ok : bool;
  row : nat -> Uploader.pydict;
  respondent : nat -> Uploader.world;
  cursor_close_ok : bool;
  connection_close_ok : bool
}.

(** A run returns its outcome, the connections by its end and the calls it
    made. *)
Definition run (A : Type) : Type := conns -> outcome A * conns * list event.

Definition ret {A} (a : A) : run A := fun s => (Done a, s, []).

Definition raise {A} (f : failure) : run A := fun s => (Fail f, s, []).

Definition call (e : event) : run unit := fun s => (Done tt, s, [e]).

Definition and_then {A B} (m : run A) (k : A -> run B) : run B :=
  fun s =>
    match m s with
    | (Done a, s1, e1) =>
        match k a s1 with
        | (o, s2, e2) => (o, s2, e1 ++ e2)
        end
    | (Fail f, s1, e1) => (Fail f, s1, e1)
    end.

(** [try: m  except Exception as e: handler(e)] *)
Definition try_except {A} (m : run A) (handler : failure -> run A) : run A :=
  fun s =>
    match m s with
    | (Done a, s1, e1) => (Done a, s1, e1)
    | (Fail f, s1, e1) =>
        match handler f s1 with
        | (o, s2, e2) => (o, s2, e1 ++ e2)
        end
    end.

Notation "x <-- m ;;; k" := (and_then m (fun x => k))
  (at level 100, m at next level, right associativity).
Notation "m1 ;;; m2" := (and_then m1 (fun _ => m2))
  (at level 100, right associativity).

(** [DatabaseManager(...)]: the number of the new connection, or the
    failure [f] when [cx_Oracle.connect] raises. *)
Definition DatabaseManager (ok : bool) (f : failure) : run nat :=
  fun s =>
    if ok then (Done (opened s), {| opened := S (opened s);
                                    manager := manager s |}, [Open (opened s)])
    else (Fail f, s, [OpenFailed]).

(** [self.db_manager = c] *)
Definition set_manager (c : nat) : run unit :=
  fun s => (Done tt, {| opened := opened s; manager := c |}, []).

(** [self.db_manager] *)
Definition get_manager : run nat := fun s => (Done (manager s), s, []).

(** [DatabaseManager.disconnect], on the connection [c]: both handlers
    are [except: pass]. *)
Definition disconnect (w : world) (c : nat) : run unit :=
  try_except
    (call (CloseCursor c);;;
     if cursor_close_ok w then ret tt else raise CloseFailure)
    (fun _ => ret tt);;;
  try_except
    (call (CloseConnection c);;;
     if connection_close_ok w then ret tt else raise CloseFailure)
    (fun _ => ret tt).

(** [OracleTableExtractor.__del__], on the connection [c]: one [try] for
    both calls, and a handler that logs and raises again. *)
Definition del_extractor (w : world) (c : nat) : run unit :=
  try_except
    (call (CloseCursor c);;;
     (if cursor_close_ok w then ret tt else raise CloseFailure);;;
     call (CloseConnection c);;;
     if connection_close_ok w then ret tt else raise CloseFailure)
    (fun e => raise e).

(** One item of the dict literal of [process_base_respondents]: [None]
    stands for the [KeyError] of a row without the column. *)
Definition add_item (r d : Uploader.pydict) (item : string * string)
  : option Uploader.pydict :=
  match Uploader.getitem (Payload.literal item.2) r with
  | None => None
  | Some v => Some (Uploader.setitem (Payload.literal item.1) v d)
  end.

Fixpoint add_items (r : Uploader.pydict) (items : list (string * string))
    (d : Uploader.pydict) : option Uploader.pydict :=
  match items with
  | [] => Some d
  | item :: items' =>
      match add_item r d item with
      | None => None
      | Some d' => add_items r items' d'
      end
  end.

(** [respondent_dict = {'email': r['EMAIL'], ...}] *)
Definition respondent_dict (r : Uploader.pydict) : option Uploader.pydict :=
  add_items r Payload.columns [].

(** A computation on the dict of the respondent [r], which calls
    nothing. *)
Definition lift {A} (r : nat) (x : Uploader.failure + A) : run A :=
  match x with
  | inl f => raise (UploadFailure r f)
  | inr a => ret a
  end.

(** [insert_respondent] for the respondent [r]: the request id is built
    before the [try]; in it, the id is stored in the dict, the payload is
    joined and then posted. *)
Definition insert_respondent (w : Uploader.world)
    (respondent_dict : Uploader.pydict) (r : nat) : run (option bool) :=
  requestid <-- lift r (Uploader.new_requestid respondent_dict
                          (Uploader.now w));;;
  try_except
    (let respondent_dict :=
       Uploader.setitem (Payload.literal "requesti") (Uploader.Str requestid)
         respondent_dict in
     _ <-- lift r (Uploader.payload respondent_dict);;;
     call (Post r);;;
     match Uploader.http w with
     | Uploader.HttpRaises => raise (UploadFailure r Uploader.HttpFailure)
     | Uploader.HttpStatus status_code usable =>
         if (status_code =? 200)%Z then ret (Some usable) else ret None
     end)
    (fun e => raise e).

(** One iteration of [for i in range(3)] for the respondent [r]; [true]
    stands for [break], [false] for [continue]. *)
Definition attempt (w : Uploader.world) (r i : nat) : run bool :=
  try_except
    (c <-- get_manager;;;
     call (Execute c r);;;
     (if Uploader.execute_ok w i then ret tt
      else raise (UploadFailure r (Uploader.ExecuteFailure i)));;;
     c' <-- get_manager;;;
     call (Commit c' r);;;
     (if Uploader.commit_ok w i then ret tt
      else raise (UploadFailure r (Uploader.CommitFailure i)));;;
     ret true)
    (fun e =>
       if i + 1 =? 3 then raise e
       else
         c <-- DatabaseManager (Uploader.connect_ok w i)
                 (UploadFailure r (Uploader.ConnectFailure i));;;
         set_manager c;;;
         ret false).

Fixpoint attempts (w : Uploader.world) (r : nat) (range : list nat)
  : run unit :=
  match range with
  | [] => ret tt
  | i :: range' =>
      stop <-- attempt w r i;;;
      if stop : bool then ret tt else attempts w r range'
  end.

Definition save_respondent_to_db (w : Uploader.world) (r : nat) : run unit :=
  try_except (attempts w r [0; 1; 2]) (fun e => raise e).

(** The body of [for r in respondent_dicts] for the respondent [r]. *)
Definition process_respondent (w : world) (r : nat) : run unit :=
  respondent_dict <--
    match respondent_dict (row w r) with
    | None => raise (RowFailure r)
    | Some d => ret d
    end;;;
  response <-- insert_respondent (respondent w r) respondent_dict r;;;
  match response with
  | Some true => save_respondent_to_db (respondent w r) r
  | Some false | None => raise (UploadFailure r Uploader.ResponseFailure)
  end.

Fixpoint respondents_loop (w : world) (rs : list nat) : run unit :=
  match rs with
  | [] => ret tt
  | r :: rs' => process_respondent w r;;; respondents_loop w rs'
  end.

(** [process_base_respondents] for [n] respondents. *)
Definition process_base_respondents (w : world) (n : nat) : run unit :=
  db_manager <-- DatabaseManager (first_connect_ok w) ConnectionFailure;;;
  set_manager db_manager;;;
  respondents_loop w (seq 0 n);;;
  disconnect w db_manager.

Definition no_connection : conns := {| opened := 0; manager := 0 |}.

Definition result_of {A} (m : run A) : outcome A := fst (fst (m no_connection)).
Definition calls_of {A} (m : run A) : list event := snd (m no_connection).

(** The respondents posted, in order. *)
Fixpoint posts (evs : list event) : list nat :=
  match evs with
  | [] => []
  | Post r :: evs' => r :: posts evs'
  | _ :: evs' => posts evs'
  end.

(** The connections opened, in order. *)
Fixpoint opens (evs : list event) : list nat :=
  match evs with
  | [] => []
  | Open c :: evs' => c :: opens evs'
  | _ :: evs' => opens evs'
  end.

(** The connections on which a close was called, in order. *)
Fixpoint closes (evs : list event) : list nat :=
  match evs with
  | [] => []
  | CloseCursor c :: evs' | CloseConnection c :: evs' => c :: closes evs'
  | _ :: evs' => closes evs'
  end.

(** Every [Execute] and [Commit] is made on the connection opened last
    before it, [cur] being the one opened last before [evs]. *)
Fixpoint uses_latest (cur : option nat) (evs : list event) : bool :=
  match evs with
  | [] => true
  | Open c :: evs' => uses_latest (Some c) evs'
  | Execute c _ :: evs' | Commit c _ :: evs' =>
      match cur with
      | Some c' => Nat.eqb c c'
      | None => false
      end && uses_latest cur evs'
  | _ :: evs' => uses_latest cur evs'
  end.

(** The connection opened last by the end of [evs]. *)
Fixpoint latest (cur : option nat) (evs : list event) : option nat :=
  match evs with
  | [] => cur
  | Open c :: evs' => latest (Some c) evs'
  | _ :: evs' => latest cur evs'
  end.

(** What the calls [evs] of a part of the loop, run from [s] to [s'], keep
    to: nothing is closed, the connections opened are the next numbers,
    each upload is made on the connection opened last, and that one is the
    manager of the uploader by the end. *)
Definition quiet (s s' : conns) (evs : list event) : Prop :=
  closes evs = [] /\
  (exists k, opened s' = opened s + k /\ opens evs = seq (opened s) k) /\
  uses_latest (Some (manager s)) evs = true /\
  latest (Some (manager s)) evs = Some (manager s').

Definition is_done {A} (o : outcome A) : bool :=
  match o with Done _ => true | Fail _ => false end.

(** The persistence step of an upload goes through within three runs. *)
Definition save_ok (w : Uploader.world) : bool :=
  Uploader.attempt_ok w 0 ||
  Uploader.connect_ok w 0 &&
    (Uploader.attempt_ok w 1 ||
     Uploader.connect_ok w 1 && Uploader.attempt_ok w 2).

(** The respondent [r] is posted: its row has every column and nothing
    raises in [insert_respondent] before the request. *)
Definition posted (w : world) (r : nat) : bool :=
  match respondent_dict (row w r) with
  | None => false
  | Some d => Uploader.payload_built (respondent w r) d
  end.

(** The respondent [r] is handled without an exception. *)
Definition handled (w : world) (r : nat) : bool :=
  posted w r &&
  match Uploader.http (respondent w r) with
  | Uploader.HttpStatus status_code true =>
      (status_code =? 200)%Z && save_ok (respondent w r)
  | _ => false
  end.

(** Without the numbers. *)
Definition erase (e : event) : list Uploader.event :=
  match e with
  | Open _ | OpenFailed => [Uploader.DbConnect]
  | Post _ => [Uploader.HttpPost]
  | Execute _ _ => [Uploader.DbExecute]
  | Commit _ _ => [Uploader.DbCommit]
  | CloseCursor _ | CloseConnection _ => []
  end.

(** Every row is [Payload.sample_row] and every upload goes through at
    once. *)
Definition smooth : world :=
  {| first_connect_ok := true;
     row := fun _ => Uploader.strings Payload.sample_row;
     respondent := fun _ =>
       {| Uploader.now := Payload.sample_now;
          Uploader.http := Uploader.HttpStatus 200 true;
          Uploader.execute_ok := fun _ => true;
          Uploader.commit_ok := fun _ => true;
          Uploader.connect_ok := fun _ => true |};
     cursor_close_ok := false;
     connection_close_ok := true |}.

(** The service rejects the respondent 1. *)
Definition rejects_second : world :=
  {| first_connect_ok := true;
     row := fun _ => Uploader.strings Payload.sample_row;
     respondent := fun r =>
       {| Uploader.now := Payload.sample_now;
          Uploader.http := Uploader.HttpStatus (if r =? 1 then 400 else 200)
                             true;
          Uploader.execute_ok := fun _ => true;
          Uploader.commit_ok := fun _ => true;
          Uploader.connect_ok := fun _ => true |};
     cursor_close_ok := true;
     connection_close_ok := true |}.

(** The first run of the persistence step of every respondent fails. *)
Definition reconnects : world :=
  {| first_connect_ok := true;
     row := fun _ => Uploader.strings Payload.sample_row;
     respondent := fun _ =>
       {| Uploader.now := Payload.sample_now;
          Uploader.http := Uploader.HttpStatus 200 true;
          Uploader.execute_ok := fun i => 1 <=? i;
          Uploader.commit_ok := fun _ => true;
          Uploader.connect_ok := fun _ => true |};
     cursor_close_ok := true;
     connection_close_ok := true |}.

(** The row of the respondent 1 has no age. *)
Definition row_without_age : world :=
  {| first_connect_ok := true;
     row := fun r =>
       if r =? 1
       then Uploader.setitem (Payload.literal "AGE") Uploader.NotStr
              (Uploader.strings Payload.sample_row)
       else Uploader.strings Payload.sample_row;
     respondent := fun _ =>
       {| Uploader.now := Payload.sample_now;
          Uploader.http := Uploader.HttpStatus 200 true;
          Uploader.execute_ok := fun _ => true;
          Uploader.commit_ok := fun _ => true;
          Uploader.connect_ok := fun _ => true |};
     cursor_close_ok := true;
     connection_close_ok := true |}.

End Batch.
(** ** The statement of [fetch_column_respondent_status]

    [OracleTableExtractor.fetch_column_respondent_status] (and its copy
    [fetch_column_respondent_status_NEW]) up to the call of
    [cursor.execute]: the query and the bind variables it is called with.
    A condition is a string or some other value. *)

Module Query.

Inductive value : Type :=
  | Text (s : string)
  | Number (n : Z)
  | Null.

(** [s[n:]] *)
Fixpoint skip (n : nat) (s : string) : string :=
  match n, s with
  | 0, _ => s
  | S _, EmptyString => EmptyString
  | S n', String _ s' => skip n' s'
  end.

(** [isinstance(condition, str) and condition.startswith("SQL:")] *)
Definition is_sql (condition : value) : bool :=
  match condition with
  | Text s => String.prefix "SQL:" s
  | _ => false
  end.

(** [condition[4:]] of a string. *)
Definition after_prefix (condition : value) : string :=
  match condition with
  | Text s => skip 4 s
  | _ => EmptyString
  end.

(** The clause appended for [col, condition]. *)
Definition clause (item : string * value) : string :=
  if is_sql item.2 then item.1 +:+ " " +:+ after_prefix item.2
  else item.1 +:+ " = :" +:+ item.1.

(** [query] as passed to [cursor.execute]. *)
Definition query (table_name column_name : string)
    (conditions : option (list (string * value))) : string :=
  let query := "SELECT " +:+ column_name +:+ " FROM " +:+ table_name in
  match conditions with
  | Some (c :: cs) =>
      query +:+ " WHERE " +:+ String.concat " AND " (map clause (c :: cs))
  | Some [] | None => query
  end.

(** The arguments of [cursor.execute]; [conditions.items()] raises when
    [conditions] is [None]. *)
Definition statement (table_name column_name : string)
    (conditions : option (list (string * value)))
  : result (string * list (string * value)) :=
  let q := query table_name column_name conditions in
  match conditions with
  | None => Raise AttributeError
  | Some items =>
      Ok (q, filter (fun item => is_sql item.2 = false) items)
  end.

Definition sample_conditions : list (string * value) :=
  [("SURVEYID", Text "1596625");
   ("SENDT", Text "SQL:> SYSDATE - 7");
   ("STATUSCODE", Number 200)].

End Query.

(** ** Basic facts *)

Lemma for_each_raises {S A} (body : S -> A -> result S)
    (before : list A) (x : A) (after : list A) (s s' : S) (e : exn) :
  for_each body before s = Ok s' ->
  body s' x = Raise e ->
  for_each body (before ++ x :: after) s = Raise e.
Proof.
  revert s. induction before as [|y before IH]; simpl; intros s Hs Hx.
  - injection Hs as ->. by rewrite Hx.
  - destruct (body s y) as [s1|e1]; simpl in *; [auto | discriminate].
Qed.


Lemma bind_Ok {A B} (m : result A) (f : A -> result B) (b : B) :
  bind m f = Ok b -> exists a, m = Ok a /\ f a = Ok b.
Proof. destruct m as [a|e]; simpl; [eauto | discriminate]. Qed.

Lemma bind_Raise {A B} (m : result A) (f : A -> result B) (e : exn) :
  m = Raise e -> bind m f = Raise e.
Proof. intros ->. reflexivity. Qed.

Ltac inv_bind H :=
  let a := fresh "a" in
  let E := fresh "E" in
  apply bind_Ok in H; destruct H as (a & E & H).

Lemma py_eq_hashable_l (a b : json) :
  hashable a = true -> py_eq a b = true -> a = b.
Proof.
  destruct a, b; simpl; try discriminate; auto.
  intros _ H. apply String.eqb_eq in H. congruence.
Qed.

Lemma py_eq_hashable_r (a b : json) :
  hashable b = true -> py_eq a b = true -> a = b.
Proof.
  destruct a, b; simpl; try discriminate; auto.
  intros _ H. apply String.eqb_eq in H. congruence.
Qed.

Lemma py_eq_refl (a : json) : hashable a = true -> py_eq a a = true.
Proof.
  destruct a; simpl; try discriminate; auto.
  intros _. apply String.eqb_refl.
Qed.

Lemma pymap_get_Ok {V} (m : pymap V) (k : json) (o : option V) :
  pymap_get m k = Ok o -> hashable k = true /\ o = pymap_lookup k m.
Proof.
  unfold pymap_get. destruct (hashable k); [|discriminate].
  intros [= <-]. auto.
Qed.

Lemma lookup_question_text_Ok (mapping : pymap question) (name qt : json) :
  lookup_question_text mapping name = Ok qt ->
  hashable name = true /\
  qt = match pymap_lookup name mapping with
       | Some d => text d
       | None => JStr "Unknown Question"
       end.
Proof.
  unfold lookup_question_text. intros H. inv_bind H.
  apply pymap_get_Ok in E as [? ->]. injection H as <-. auto.
Qed.

Lemma lookup_choice_text_Ok (mapping : pymap question) (name value ct : json) :
  lookup_choice_text mapping name value = Ok ct ->
  hashable value = true /\
  ct = default (JStr "Unknown Choice")
         (pymap_lookup value
            match pymap_lookup name mapping with
            | Some d => choices d
            | None => []
            end).
Proof.
  unfold lookup_choice_text. intros H. inv_bind H. inv_bind H.
  apply pymap_get_Ok in E as [? ->]. apply pymap_get_Ok in E0 as [? ->].
  injection H as <-. auto.
Qed.

(** ** The loop over the coded answers *)

Lemma choice_step_Ok data mapping rid sid answers entry answers' texts :
  valueText data = Ok texts ->
  choice_step data mapping rid sid answers entry = Ok answers' ->
  exists r, answers' = answers ++ [r] /\
            from_choice mapping texts rid sid entry r.
Proof.
  intros Ht H. unfold choice_step in H.
  inv_bind H. inv_bind H. inv_bind H. inv_bind H. inv_bind H.
  rewrite Ht in H. simpl in H. inv_bind H.
  exists (mk_answer rid sid a a0 a2 (if py_truthy a4 then a4 else a3)).
  split.
  - destruct (py_truthy a4); injection H as <-; reflexivity.
  - exists a, a2, a1, a0, a3, a4. repeat split; assumption.
Qed.

Lemma choice_pass_Ok data mapping rid sid texts singles answers out :
  valueText data = Ok texts ->
  for_each (choice_step data mapping rid sid) singles answers = Ok out ->
  exists p1, out = answers ++ p1 /\
             Forall2 (from_choice mapping texts rid sid) singles p1.
Proof.
  intros Ht. revert answers.
  induction singles as [|e singles IH]; simpl; intros answers H.
  - injection H as <-. exists []. split; [by rewrite app_nil_r | constructor].
  - inv_bind H. destruct (choice_step_Ok _ _ _ _ _ _ _ _ Ht E) as (r & -> & Hr).
    destruct (IH _ H) as (p1 & -> & Hp1).
    exists (r :: p1). split; [by rewrite <- app_assoc | by constructor].
Qed.

(** ** The loop over the free-text answers *)

Lemma seen_false (name : json) (answers : list answer_record) :
  hashable name = true ->
  existsb (fun a => py_eq (question_name a) name) answers = false ->
  name ∉ names answers.
Proof.
  intros Hh. induction answers as [|a answers IH]; simpl.
  - intros _. apply not_elem_of_nil.
  - intros H. apply orb_false_iff in H as [H1 H2].
    apply not_elem_of_cons. split; [|auto].
    intros ->. rewrite py_eq_refl in H1; [discriminate | assumption].
Qed.

Lemma text_step_Ok mapping rid sid answers entry answers' :
  text_step mapping rid sid answers entry = Ok answers' ->
  answers' = answers \/
  exists r, answers' = answers ++ [r] /\
            from_text mapping rid sid entry r /\
            question_name r ∉ names answers.
Proof.
  unfold text_step. intros H. inv_bind H.
  destruct (existsb _ answers) eqn:Eseen.
  { injection H as <-. by left. }
  inv_bind H. inv_bind H.
  destruct (lookup_question_text_Ok _ _ _ E0) as [Hh _].
  assert (Hnew : a ∉ names answers) by (by apply seen_false).
  destruct a1 as [|s|l|d].
  { injection H as <-. by left. }
  all: injection H as <-; right; eexists; split; [reflexivity|]; split;
    [|exact Hnew]; eexists _, _, _; repeat split; eauto; discriminate.
Qed.

Lemma text_pass_Ok mapping rid sid texts answers out :
  for_each (text_step mapping rid sid) texts answers = Ok out ->
  exists p2 kept,
    out = answers ++ p2 /\
    sublist kept texts /\
    Forall2 (from_text mapping rid sid) kept p2 /\
    (NoDup (names answers) -> NoDup (names out)).
Proof.
  revert answers.
  induction texts as [|e texts IH]; simpl; intros answers H.
  - injection H as <-. exists [], []. rewrite app_nil_r.
    repeat split; auto; constructor.
  - inv_bind H. destruct (IH _ H) as (p2 & kept & -> & Hsub & Hall & Hnd).
    destruct (text_step_Ok _ _ _ _ _ _ E) as [->|(r & -> & Hr & Hnew)].
    + exists p2, kept. repeat split; auto. by apply sublist_cons.
    + exists (r :: p2), (e :: kept). rewrite <- app_assoc. simpl.
      repeat split; auto.
      * by apply sublist_skip.
      * intros Hnd0. rewrite <- app_assoc in Hnd. apply Hnd.
        unfold names. rewrite fmap_app. simpl.
        apply NoDup_app. split; [exact Hnd0|]. split.
        -- intros x Hx Hx'. apply list_elem_of_singleton in Hx'. by subst.
        -- apply NoDup_singleton.
Qed.

(** ** [get_answers] as a whole *)

Lemma get_answers_Ok sid json_data data out :
  get_answers sid json_data data = Ok out ->
  exists mapping rid singles texts p1 p2 kept,
    questions_mapping json_data = Ok mapping /\
    valueSingle data = Ok singles /\
    valueText data = Ok texts /\
    out = p1 ++ p2 /\
    Forall2 (from_choice mapping texts rid sid) singles p1 /\
    sublist kept texts /\
    Forall2 (from_text mapping rid sid) kept p2 /\
    (NoDup (names p1) -> NoDup (names out)).
Proof.
  unfold get_answers. intros H.
  inv_bind H. inv_bind H. inv_bind H. inv_bind H. inv_bind H. inv_bind H.
  destruct (choice_pass_Ok _ _ _ _ _ _ _ _ E4 E3) as (p1 & -> & Hp1).
  destruct (text_pass_Ok _ _ _ _ _ _ H) as (p2 & kept & -> & Hsub & Hp2 & Hnd).
  simpl in *. exists a, a1, a2, a4, p1, p2, kept. repeat split; auto.
Qed.

Lemma getitem_Ok_get (x : json) (k : string) (v dflt : json) :
  py_getitem x k = Ok v -> exists w, py_get x "#text" dflt = Ok w.
Proof. destruct x; simpl; try discriminate. eauto. Qed.

Lemma choice_step_total data mapping rid sid texts answers e :
  valueText data = Ok texts ->
  valid_choice_entry texts e = true ->
  exists answers', choice_step data mapping rid sid answers e = Ok answers'.
Proof.
  intros Ht. unfold valid_choice_entry, choice_step.
  destruct (py_getitem e "@name") as [name|]; [|discriminate]. simpl.
  destruct (py_getitem e "choice") as [c|]; [|discriminate]. simpl.
  destruct (py_getitem c "@value") as [value|]; [|discriminate]. simpl.
  intros H. apply andb_true_iff in H as [H H3].
  apply andb_true_iff in H as [H1 H2].
  unfold lookup_question_text, lookup_choice_text, pymap_get.
  rewrite H1, H2, Ht. simpl.
  destruct (text_answer_for texts name) as [t|]; [|discriminate]. simpl.
  destruct (py_truthy t); eauto.
Qed.

Lemma choice_pass_total data mapping rid sid texts singles answers :
  valueText data = Ok texts ->
  forallb (valid_choice_entry texts) singles = true ->
  exists out,
    for_each (choice_step data mapping rid sid) singles answers = Ok out.
Proof.
  intros Ht. revert answers.
  induction singles as [|e singles IH]; simpl; intros answers H; [eauto|].
  apply andb_true_iff in H as [He H].
  destruct (choice_step_total data mapping rid sid texts answers e Ht He)
    as (answers' & ->).
  simpl. auto.
Qed.

Lemma text_step_total mapping rid sid answers e :
  valid_text_entry e = true ->
  exists answers', text_step mapping rid sid answers e = Ok answers'.
Proof.
  unfold valid_text_entry, text_step.
  destruct (py_getitem e "@name") as [name|] eqn:En; [|discriminate].
  intros Hh. simpl. destruct (existsb _ answers); [eauto|].
  unfold lookup_question_text, pymap_get. rewrite Hh. simpl.
  destruct (getitem_Ok_get _ _ _ JNull En) as (w & ->). simpl.
  destruct w; eauto.
Qed.

Lemma text_pass_total mapping rid sid texts answers :
  forallb valid_text_entry texts = true ->
  exists out, for_each (text_step mapping rid sid) texts answers = Ok out.
Proof.
  revert answers.
  induction texts as [|e texts IH]; simpl; intros answers H; [eauto|].
  apply andb_true_iff in H as [He H].
  destruct (text_step_total mapping rid sid answers e He) as (answers' & ->).
  simpl. auto.
Qed.

Lemma get_answers_total sid json_data data mapping :
  questions_mapping json_data = Ok mapping ->
  valid_respondent data = true ->
  exists out, get_answers sid json_data data = Ok out.
Proof.
  intros Hm. unfold valid_respondent, get_answers. rewrite Hm. simpl.
  destruct (py_getitem data "respondentanswer") as [ra|]; [|discriminate].
  simpl. destruct (py_getitem ra "@key") as [rid|]; [|discriminate]. simpl.
  destruct (valueSingle data) as [singles|]; [|discriminate].
  destruct (valueText data) as [texts|] eqn:Ht; [|discriminate]. simpl.
  intros H. apply andb_true_iff in H as [H1 H2].
  destruct (choice_pass_total data mapping rid sid texts singles [] Ht H1)
    as (answers & ->).
  simpl. by apply text_pass_total.
Qed.

(** What a valid respondent document gives: the output and where each of
    its records comes from. *)
Lemma get_answers_valid sid json_data data mapping singles texts :
  questions_mapping json_data = Ok mapping ->
  valid_respondent data = true ->
  valueSingle data = Ok singles ->
  valueText data = Ok texts ->
  exists rid p1 p2 kept,
    get_answers sid json_data data = Ok (p1 ++ p2) /\
    Forall2 (from_choice mapping texts rid sid) singles p1 /\
    sublist kept texts /\
    Forall2 (from_text mapping rid sid) kept p2 /\
    (NoDup (names p1) -> NoDup (names (p1 ++ p2))).
Proof.
  intros Hm Hv Hs Ht.
  destruct (get_answers_total sid _ _ _ Hm Hv) as (out & Hout).
  destruct (get_answers_Ok _ _ _ _ Hout)
    as (m' & rid & s' & t' & p1 & p2 & kept & Hm' & Hs' & Ht' & -> & H).
  assert (m' = mapping) as -> by congruence.
  assert (s' = singles) as -> by congruence.
  assert (t' = texts) as -> by congruence.
  exists rid, p1, p2, kept. split; [exact Hout | exact H].
Qed.

(** [valid_respondent] asks for no more than what a run needs: a run that
    ends with a list was given a valid document. *)

Lemma from_choice_valid mapping texts rid sid e r :
  from_choice mapping texts rid sid e r ->
  valid_choice_entry texts e = true /\ hashable (question_name r) = true.
Proof.
  intros (name & value & c & qt & ct & t & Hn & Hc & Hv & Hqt & Hct & Ht & ->).
  destruct (lookup_question_text_Ok _ _ _ Hqt) as [Hh _].
  destruct (lookup_choice_text_Ok _ _ _ _ Hct) as [Hh' _].
  unfold valid_choice_entry. rewrite Hn, Hc. simpl.
  by rewrite Hv, Hh, Hh', Ht.
Qed.

Lemma choice_pass_valid mapping texts rid sid singles p1 :
  Forall2 (from_choice mapping texts rid sid) singles p1 ->
  forallb (valid_choice_entry texts) singles = true /\
  Forall (fun a => hashable (question_name a) = true) p1.
Proof.
  induction 1 as [|e r singles p1 Hr _ [IH1 IH2]]; [by split|].
  destruct (from_choice_valid _ _ _ _ _ _ Hr) as [Hv Hh].
  simpl. rewrite Hv, IH1. split; [done | by constructor].
Qed.

Lemma seen_true (name : json) (answers : list answer_record) :
  Forall (fun a => hashable (question_name a) = true) answers ->
  existsb (fun a => py_eq (question_name a) name) answers = true ->
  hashable name = true.
Proof.
  induction 1 as [|a answers Ha _ IH]; simpl; [discriminate|].
  intros H. apply orb_true_iff in H as [H|H]; [|auto].
  by apply (py_eq_hashable_l _ _ Ha) in H as <-.
Qed.

Lemma text_pass_valid mapping rid sid texts answers out :
  Forall (fun a => hashable (question_name a) = true) answers ->
  for_each (text_step mapping rid sid) texts answers = Ok out ->
  forallb valid_text_entry texts = true.
Proof.
  revert answers.
  induction texts as [|e texts IH]; simpl; intros answers Hall H; [done|].
  inv_bind H. unfold text_step in E. inv_bind E.
  unfold valid_text_entry at 1. rewrite E0.
  destruct (existsb _ answers) eqn:Eseen.
  - injection E as <-. rewrite (seen_true _ _ Hall Eseen). eauto.
  - inv_bind E. inv_bind E.
    destruct (lookup_question_text_Ok _ _ _ E1) as [Hh _]. rewrite Hh.
    apply (IH a); [|done].
    destruct a2; injection E as <-; try done;
      apply Forall_app; split; try done; by repeat constructor.
Qed.

Lemma get_answers_Ok_valid sid json_data data out :
  get_answers sid json_data data = Ok out ->
  valid_respondent data = true.
Proof.
  unfold get_answers. intros H.
  inv_bind H. inv_bind H. inv_bind H. inv_bind H. inv_bind H. inv_bind H.
  destruct (choice_pass_Ok _ _ _ _ _ _ _ _ E4 E3) as (p1 & -> & Hp1).
  destruct (choice_pass_valid _ _ _ _ _ _ Hp1) as [Hv1 Hh].
  unfold valid_respondent. rewrite E0. simpl. rewrite E1, E2, E4, Hv1.
  simpl. by apply (text_pass_valid _ _ _ _ _ _ Hh H).
Qed.

(** ** Facts about the records *)

Lemma from_choice_names mapping texts rid sid singles p1 :
  Forall2 (from_choice mapping texts rid sid) singles p1 ->
  entry_names singles = Ok <$> names p1.
Proof.
  induction 1 as [|e r singles p1 Hr _ IH]; [reflexivity|].
  destruct Hr as (name & value & c & qt & ct & t & Hn & _ & _ & _ & _ & _ & ->).
  unfold entry_names, names in *. rewrite !fmap_cons. simpl.
  by rewrite Hn, IH.
Qed.

Lemma from_text_elem mapping rid sid kept p2 r :
  Forall2 (from_text mapping rid sid) kept p2 ->
  r ∈ p2 -> exists e, e ∈ kept /\ from_text mapping rid sid e r.
Proof.
  induction 1 as [|e r' kept p2 Hr _ IH]; intros Hin.
  - by apply elem_of_nil in Hin.
  - apply elem_of_cons in Hin as [->|Hin].
    + exists e. split; [apply elem_of_cons; by left | exact Hr].
    + destruct (IH Hin) as (e' & ? & ?). exists e'.
      split; [apply elem_of_cons; by right | assumption].
Qed.

Lemma from_choice_elem mapping texts rid sid singles p1 r :
  Forall2 (from_choice mapping texts rid sid) singles p1 ->
  r ∈ p1 -> exists e, e ∈ singles /\ from_choice mapping texts rid sid e r.
Proof.
  induction 1 as [|e r' singles p1 Hr _ IH]; intros Hin.
  - by apply elem_of_nil in Hin.
  - apply elem_of_cons in Hin as [->|Hin].
    + exists e. split; [apply elem_of_cons; by left | exact Hr].
    + destruct (IH Hin) as (e' & ? & ?). exists e'.
      split; [apply elem_of_cons; by right | assumption].
Qed.

(** The generator of the first loop returns the text of the first entry of
    the question. *)
Lemma text_answer_for_first texts name j te t :
  hashable name = true ->
  texts !! j = Some te ->
  py_getitem te "@name" = Ok name ->
  (forall j' te', j' < j -> texts !! j' = Some te' ->
                  py_getitem te' "@name" <> Ok name) ->
  text_answer_for texts name = Ok t ->
  py_getitem te "#text" = Ok t.
Proof.
  intros Hh. revert j.
  induction texts as [|x texts IH]; intros j Hj Hn Hfirst H; [done|].
  simpl in H. inv_bind H. destruct j as [|j]; simpl in Hj.
  - injection Hj as ->. rewrite Hn in E. injection E as <-.
    by rewrite (py_eq_refl _ Hh) in H.
  - destruct (py_eq a name) eqn:Eq.
    + apply (py_eq_hashable_r _ _ Hh) in Eq as ->.
      exfalso. apply (Hfirst 0 x); [lia | done | done].
    + apply (IH j); auto. intros j' te' Hlt Hj'.
      apply (Hfirst (S j') te'); [lia | done].
Qed.

Lemma text_answer_for_no_override texts name t :
  hashable name = true ->
  no_text_override texts name ->
  text_answer_for texts name = Ok t ->
  py_truthy t = false.
Proof.
  intros Hh. induction texts as [|x texts IH]; simpl; intros Hno H.
  - by injection H as <-.
  - inv_bind H. destruct (py_eq a name) eqn:Eq.
    + apply (py_eq_hashable_r _ _ Hh) in Eq as ->.
      apply (Hno x t); [apply elem_of_cons; by left | done | done].
    + apply IH; [|done]. intros e t' He. apply Hno.
      apply elem_of_cons. by right.
Qed.

(** The record at the position of a [valueSingle] entry. *)
Lemma record_of_choice mapping texts rid sid singles p1 p2 i entry :
  Forall2 (from_choice mapping texts rid sid) singles p1 ->
  singles !! i = Some entry ->
  exists r, (p1 ++ p2) !! i = Some r /\
            from_choice mapping texts rid sid entry r.
Proof.
  intros Hall Hi.
  destruct (Forall2_lookup_l _ _ _ _ _ Hall Hi) as (r & Hr & Hfrom).
  exists r. split; [|done]. by apply lookup_app_l_Some.
Qed.

Lemma valid_respondent_entries data :
  valid_respondent data = true ->
  exists singles texts,
    valueSingle data = Ok singles /\ valueText data = Ok texts.
Proof.
  unfold valid_respondent.
  destruct (bind _ _); [|discriminate].
  destruct (valueSingle data); [|discriminate].
  destruct (valueText data); [|discriminate]. eauto.
Qed.

(** ** Deduplication *)

(** C1, as stated, fails: two coded answers to [Q1] give two records named
    [Q1]. *)
Lemma repeated_choice_repeats_record :
  exists out,
    get_answers "S" survey answers_repeated_choice = Ok out /\
    ~ NoDup (names out).
Proof.
  eexists. split; [reflexivity|]. simpl.
  intros H. apply NoDup_cons in H as [H _]. apply H.
  apply elem_of_cons. by left.
Qed.

(** C1 (amended): when the [valueSingle] entries of a valid respondent
    document have pairwise distinct names, no two records of the output share
    a [question_name]; repeated [valueText] entries of a question never add
    a second record. *)
Theorem distinct_choices_distinct_records sid json_data data mapping singles :
  questions_mapping json_data = Ok mapping ->
  valid_respondent data = true ->
  valueSingle data = Ok singles ->
  NoDup (entry_names singles) ->
  exists out, get_answers sid json_data data = Ok out /\ NoDup (names out).
Proof.
  intros Hm Hv Hs Hnd.
  destruct (valid_respondent_entries _ Hv) as (s' & texts & Hs' & Ht).
  destruct (get_answers_valid sid _ _ _ _ _ Hm Hv Hs Ht)
    as (rid & p1 & p2 & kept & Hout & Hp1 & _ & _ & Hdedup).
  exists (p1 ++ p2). split; [exact Hout|]. apply Hdedup.
  rewrite (from_choice_names _ _ _ _ _ _ Hp1) in Hnd.
  by apply NoDup_fmap_1 in Hnd.
Qed.

Lemma distinct_choices_distinct_records_witness :
  exists out,
    get_answers "S" survey
      (respondent_doc "R" [single "Q1" "1"; single "Q3" "9"]
         [free_text "Q2" "a"; free_text "Q2" "b"; free_text "Q1" "c"])
      = Ok out /\
    NoDup (names out).
Proof.
  eapply distinct_choices_distinct_records; [reflexivity..|].
  vm_compute. repeat constructor; intros H; inversion H; subst;
    match goal with H' : _ ∈ [] |- _ => inversion H' end.
Defined.

(** ** The text of a coded answer *)

(** C2, as stated, fails: with a coded answer ["1"] to [Q1] and a text entry
    for [Q1] whose text is the empty string, the record keeps the coded
    choice text ["Yes"], not the entry's text. *)
Lemma empty_text_does_not_override :
  valueText answers_empty_override = Ok [free_text "Q1" ""] /\
  py_getitem (free_text "Q1" "") "#text" = Ok (JStr "") /\
  get_answers "S" survey answers_empty_override
    = Ok [mk_answer (JStr "R") "S" (JStr "Q1") (JStr "First") (JStr "1")
            (JStr "Yes")] /\
  JStr "Yes" <> JStr "".
Proof. repeat split; discriminate. Qed.

(** C2 (amended): in a valid respondent document, when the first [valueText]
    entry of the question of a [valueSingle] entry has a text that is not
    empty, the record at the position of the [valueSingle] entry has that
    text as [choice_text] and the coded value as [question_value]. *)
Theorem text_overrides_choice
    sid json_data data mapping singles texts i entry name c value j te t :
  questions_mapping json_data = Ok mapping ->
  valid_respondent data = true ->
  valueSingle data = Ok singles ->
  valueText data = Ok texts ->
  singles !! i = Some entry ->
  py_getitem entry "@name" = Ok name ->
  py_getitem entry "choice" = Ok c ->
  py_getitem c "@value" = Ok value ->
  texts !! j = Some te ->
  py_getitem te "@name" = Ok name ->
  (forall j' te', j' < j -> texts !! j' = Some te' ->
                  py_getitem te' "@name" <> Ok name) ->
  py_getitem te "#text" = Ok t ->
  py_truthy t = true ->
  exists out r,
    get_answers sid json_data data = Ok out /\
    out !! i = Some r /\
    question_name r = name /\
    question_value r = value /\
    choice_text r = t.
Proof.
  intros Hm Hv Hs Ht Hi Hn Hc Hval Hj Hten Hfirst Htext Htruthy.
  destruct (get_answers_valid sid _ _ _ _ _ Hm Hv Hs Ht)
    as (rid & p1 & p2 & kept & Hout & Hp1 & _).
  destruct (record_of_choice _ _ _ _ _ _ p2 _ _ Hp1 Hi) as (r & Hr & Hfrom).
  destruct Hfrom
    as (name' & value' & c' & qt & ct & t' &
        Hn' & Hc' & Hval' & Hqt & _ & Hta & ->).
  assert (name' = name) as -> by congruence.
  assert (c' = c) as -> by congruence.
  assert (value' = value) as -> by congruence.
  destruct (lookup_question_text_Ok _ _ _ Hqt) as [Hh _].
  pose proof (text_answer_for_first _ _ _ _ _ Hh Hj Hten Hfirst Hta) as Ht'.
  assert (t' = t) as -> by congruence.
  eexists (p1 ++ p2), _. split; [exact Hout|]. split; [exact Hr|]. simpl.
  by rewrite Htruthy.
Qed.

Lemma text_overrides_choice_witness :
  exists out r,
    get_answers "S" survey answers_scenario = Ok out /\
    out !! 0 = Some r /\
    question_name r = JStr "Q1" /\
    question_value r = JStr "1" /\
    choice_text r = JStr "Maybe, unsure".
Proof.
  apply (text_overrides_choice "S" survey answers_scenario
           survey_index
           [single "Q1" "1"]
           [free_text "Q1" "Maybe, unsure"; free_text "Q2" "free comment"]
           0 (single "Q1" "1") (JStr "Q1") (JDict [("@value", JStr "1")])
           (JStr "1") 0 (free_text "Q1" "Maybe, unsure")
           (JStr "Maybe, unsure"));
    try reflexivity.
  intros j' te' Hlt. lia.
Defined.

(** ** Sentinel texts *)

(** C4: in a valid respondent document, a [valueSingle] entry whose question
    is in the index, whose coded value is not a key of the question's
    choices, and whose question has no overriding text entry, gives a record
    with [choice_text = "Unknown Choice"]. *)
Theorem unknown_choice_fallback
    sid json_data data mapping singles texts i entry name c value qd :
  questions_mapping json_data = Ok mapping ->
  valid_respondent data = true ->
  valueSingle data = Ok singles ->
  valueText data = Ok texts ->
  singles !! i = Some entry ->
  py_getitem entry "@name" = Ok name ->
  py_getitem entry "choice" = Ok c ->
  py_getitem c "@value" = Ok value ->
  pymap_lookup name mapping = Some qd ->
  pymap_lookup value (choices qd) = None ->
  no_text_override texts name ->
  exists out r,
    get_answers sid json_data data = Ok out /\
    out !! i = Some r /\
    question_name r = name /\
    question_value r = value /\
    choice_text r = JStr "Unknown Choice".
Proof.
  intros Hm Hv Hs Ht Hi Hn Hc Hval Hq Hcv Hno.
  destruct (get_answers_valid sid _ _ _ _ _ Hm Hv Hs Ht)
    as (rid & p1 & p2 & kept & Hout & Hp1 & _).
  destruct (record_of_choice _ _ _ _ _ _ p2 _ _ Hp1 Hi) as (r & Hr & Hfrom).
  destruct Hfrom
    as (name' & value' & c' & qt & ct & t' &
        Hn' & Hc' & Hval' & Hqt & Hct & Hta & ->).
  assert (name' = name) as -> by congruence.
  assert (c' = c) as -> by congruence.
  assert (value' = value) as -> by congruence.
  destruct (lookup_question_text_Ok _ _ _ Hqt) as [Hh _].
  destruct (lookup_choice_text_Ok _ _ _ _ Hct) as [_ ->].
  rewrite (text_answer_for_no_override _ _ _ Hh Hno Hta) in Hr.
  eexists (p1 ++ p2), _. split; [exact Hout|]. split; [exact Hr|]. simpl.
  by rewrite Hq, Hcv.
Qed.

Lemma unknown_choice_fallback_witness :
  exists out r,
    get_answers "S" survey answers_unknown_choice = Ok out /\
    out !! 0 = Some r /\
    question_name r = JStr "Q3" /\
    question_value r = JStr "9" /\
    choice_text r = JStr "Unknown Choice".
Proof.
  apply (unknown_choice_fallback "S" survey answers_unknown_choice
           survey_index
           [single "Q3" "9"] [] 0 (single "Q3" "9") (JStr "Q3")
           (JDict [("@value", JStr "9")]) (JStr "9")
           (mk_question (JStr "Third") [(JStr "1", JStr "A")]));
    try reflexivity.
  intros e t He. inversion He.
Defined.

(** C10: in a valid respondent document, a [valueSingle] entry whose question
    is not in the index and has no overriding text entry gives a record with
    both [question_text = "Unknown Question"] and
    [choice_text = "Unknown Choice"], whatever the coded value. *)
Theorem unknown_question_unknown_choice
    sid json_data data mapping singles texts i entry name :
  questions_mapping json_data = Ok mapping ->
  valid_respondent data = true ->
  valueSingle data = Ok singles ->
  valueText data = Ok texts ->
  singles !! i = Some entry ->
  py_getitem entry "@name" = Ok name ->
  pymap_lookup name mapping = None ->
  no_text_override texts name ->
  exists out r,
    get_answers sid json_data data = Ok out /\
    out !! i = Some r /\
    question_name r = name /\
    question_text r = JStr "Unknown Question" /\
    choice_text r = JStr "Unknown Choice".
Proof.
  intros Hm Hv Hs Ht Hi Hn Hq Hno.
  destruct (get_answers_valid sid _ _ _ _ _ Hm Hv Hs Ht)
    as (rid & p1 & p2 & kept & Hout & Hp1 & _).
  destruct (record_of_choice _ _ _ _ _ _ p2 _ _ Hp1 Hi) as (r & Hr & Hfrom).
  destruct Hfrom
    as (name' & value & c & qt & ct & t' & Hn' & _ & _ & Hqt & Hct & Hta & ->).
  assert (name' = name) as -> by congruence.
  destruct (lookup_question_text_Ok _ _ _ Hqt) as [Hh ->].
  destruct (lookup_choice_text_Ok _ _ _ _ Hct) as [_ ->].
  rewrite (text_answer_for_no_override _ _ _ Hh Hno Hta) in Hr.
  eexists (p1 ++ p2), _. split; [exact Hout|]. split; [exact Hr|]. simpl.
  by rewrite Hq.
Qed.

Lemma unknown_question_unknown_choice_witness :
  exists out r,
    get_answers "S" survey answers_unknown_question = Ok out /\
    out !! 0 = Some r /\
    question_name r = JStr "Q7" /\
    question_text r = JStr "Unknown Question" /\
    choice_text r = JStr "Unknown Choice".
Proof.
  apply (unknown_question_unknown_choice "S" survey answers_unknown_question
           survey_index
           [single "Q7" "1"] [free_text "Q8" "hello"] 0 (single "Q7" "1")
           (JStr "Q7"));
    try reflexivity.
  intros e t He Hname. apply list_elem_of_singleton in He as ->. discriminate.
Defined.

Lemma elem_of_sublist {A} (x : A) (l k : list A) :
  sublist l k -> x ∈ l -> x ∈ k.
Proof. intros Hsub Hx. eapply elem_of_submseteq, sublist_submseteq; eauto. Qed.

(** C5: in the output for a valid respondent document, every record comes
    from an entry of its name, and a record whose name is not a key of the
    index has [question_text = "Unknown Question"], whichever loop appended
    it. *)
Theorem unknown_question_fallback
    sid json_data data mapping singles texts :
  questions_mapping json_data = Ok mapping ->
  valid_respondent data = true ->
  valueSingle data = Ok singles ->
  valueText data = Ok texts ->
  exists out,
    get_answers sid json_data data = Ok out /\
    forall r, r ∈ out ->
      (exists entry, (entry ∈ singles \/ entry ∈ texts) /\
                     py_getitem entry "@name" = Ok (question_name r)) /\
      (pymap_lookup (question_name r) mapping = None ->
       question_text r = JStr "Unknown Question").
Proof.
  intros Hm Hv Hs Ht.
  destruct (get_answers_valid sid _ _ _ _ _ Hm Hv Hs Ht)
    as (rid & p1 & p2 & kept & Hout & Hp1 & Hsub & Hp2 & _).
  exists (p1 ++ p2). split; [exact Hout|].
  intros r Hr. apply elem_of_app in Hr as [Hr|Hr].
  - destruct (from_choice_elem _ _ _ _ _ _ _ Hp1 Hr) as (e & He & Hfrom).
    destruct Hfrom as (n & v & c & qt & ct & t & Hn & _ & _ & Hqt & _ & _ & ->).
    destruct (lookup_question_text_Ok _ _ _ Hqt) as [_ ->]. simpl. split.
    + exists e. auto.
    + by intros ->.
  - destruct (from_text_elem _ _ _ _ _ _ Hp2 Hr) as (e & He & Hfrom).
    destruct Hfrom as (n & qt & t & Hn & Hqt & _ & _ & ->).
    destruct (lookup_question_text_Ok _ _ _ Hqt) as [_ ->]. simpl. split.
    + exists e. split; [right; by eapply elem_of_sublist | done].
    + by intros ->.
Qed.

Lemma unknown_question_fallback_witness :
  exists out,
    get_answers "S" survey answers_unknown_question = Ok out /\
    forall r, r ∈ out ->
      (exists entry,
         (entry ∈ [single "Q7" "1"] \/ entry ∈ [free_text "Q8" "hello"]) /\
         py_getitem entry "@name" = Ok (question_name r)) /\
      (pymap_lookup (question_name r)
         survey_index
         = None ->
       question_text r = JStr "Unknown Question").
Proof.
  apply (unknown_question_fallback "S" survey answers_unknown_question);
    reflexivity.
Defined.

(** ** Text answers without a text *)

(** C3, as stated, fails: a text entry for [Q2] whose text is the empty
    string, with no coded answer to [Q2], gives a record for [Q2]. *)
Lemma empty_text_record_emitted :
  valueSingle answers_empty_text = Ok [] /\
  valueText answers_empty_text = Ok [free_text "Q2" ""] /\
  py_get (free_text "Q2" "") "#text" JNull = Ok (JStr "") /\
  get_answers "S" survey answers_empty_text
    = Ok [mk_answer (JStr "R") "S" (JStr "Q2") (JStr "Second") JNull
            (JStr "")].
Proof. repeat split. Qed.

(** C3 (amended): in a valid respondent document, when a question has no
    [valueSingle] entry and each of its [valueText] entries has no text
    (the key is missing, or its value is [None]), the output has no record
    for the question. *)
Theorem absent_text_suppressed
    sid json_data data mapping singles texts name :
  questions_mapping json_data = Ok mapping ->
  valid_respondent data = true ->
  valueSingle data = Ok singles ->
  valueText data = Ok texts ->
  (forall e, e ∈ singles -> py_getitem e "@name" <> Ok name) ->
  (forall e, e ∈ texts -> py_getitem e "@name" = Ok name ->
             py_get e "#text" JNull = Ok JNull) ->
  exists out, get_answers sid json_data data = Ok out /\ name ∉ names out.
Proof.
  intros Hm Hv Hs Ht Hnochoice Hnotext.
  destruct (get_answers_valid sid _ _ _ _ _ Hm Hv Hs Ht)
    as (rid & p1 & p2 & kept & Hout & Hp1 & Hsub & Hp2 & _).
  exists (p1 ++ p2). split; [exact Hout|].
  intros Hin. apply list_elem_of_fmap in Hin as (r & -> & Hr).
  apply elem_of_app in Hr as [Hr|Hr].
  - destruct (from_choice_elem _ _ _ _ _ _ _ Hp1 Hr) as (e & He & Hfrom).
    destruct Hfrom as (n & v & c & qt & ct & t & Hn & _ & _ & _ & _ & _ & ->).
    by apply (Hnochoice e He).
  - destruct (from_text_elem _ _ _ _ _ _ Hp2 Hr) as (e & He & Hfrom).
    destruct Hfrom as (n & qt & t & Hn & _ & Htext & Hnn & ->).
    apply (elem_of_sublist _ _ _ Hsub) in He.
    specialize (Hnotext e He Hn). congruence.
Qed.

Lemma absent_text_suppressed_witness :
  exists out,
    get_answers "S" survey answers_absent_text = Ok out /\
    JStr "Q2" ∉ names out.
Proof.
  apply (absent_text_suppressed "S" survey answers_absent_text
           survey_index
           [] [JDict [("@name", JStr "Q2")]] (JStr "Q2"));
    try reflexivity.
  - intros e He. inversion He.
  - intros e He _. apply list_elem_of_singleton in He as ->. reflexivity.
Defined.

(** ** Order of the output *)

(** C6: the output for a valid respondent document is the records of the
    [valueSingle] entries, one per entry and in the order of the entries,
    followed by the records of those [valueText] entries that give one, in
    the order of the entries. *)
Theorem choice_records_then_text_records
    sid json_data data mapping singles texts :
  questions_mapping json_data = Ok mapping ->
  valid_respondent data = true ->
  valueSingle data = Ok singles ->
  valueText data = Ok texts ->
  exists rid p1 p2 kept,
    get_answers sid json_data data = Ok (p1 ++ p2) /\
    Forall2 (from_choice mapping texts rid sid) singles p1 /\
    sublist kept texts /\
    Forall2 (from_text mapping rid sid) kept p2.
Proof.
  intros Hm Hv Hs Ht.
  destruct (get_answers_valid sid _ _ _ _ _ Hm Hv Hs Ht)
    as (rid & p1 & p2 & kept & Hout & Hp1 & Hsub & Hp2 & _).
  exists rid, p1, p2, kept. auto.
Qed.

Lemma choice_records_then_text_records_witness :
  exists rid p1 p2 kept,
    get_answers "S" survey answers_scenario = Ok (p1 ++ p2) /\
    Forall2 (from_choice
               survey_index
               [free_text "Q1" "Maybe, unsure"; free_text "Q2" "free comment"]
               rid "S")
      [single "Q1" "1"] p1 /\
    sublist kept
      [free_text "Q1" "Maybe, unsure"; free_text "Q2" "free comment"] /\
    Forall2 (from_text
               survey_index
               rid "S")
      kept p2.
Proof.
  apply (choice_records_then_text_records "S" survey answers_scenario);
    reflexivity.
Defined.

(** ** Building the index *)

Lemma pymap_lookup_insert_eq {V} (k : json) (v : V) (m : pymap V) :
  hashable k = true -> pymap_lookup k (pymap_insert k v m) = Some v.
Proof.
  intros Hh. induction m as [|[k' v'] m IH]; simpl.
  - by rewrite py_eq_refl.
  - destruct (py_eq k' k) eqn:Eq; simpl; by rewrite Eq.
Qed.

Lemma pymap_lookup_insert_ne {V} (k k2 : json) (v : V) (m : pymap V) :
  hashable k = true -> k <> k2 ->
  pymap_lookup k2 (pymap_insert k v m) = pymap_lookup k2 m.
Proof.
  intros Hh Hne. induction m as [|[k' v'] m IH]; simpl.
  - destruct (py_eq k k2) eqn:Eq; [|done].
    by apply (py_eq_hashable_l _ _ Hh) in Eq.
  - destruct (py_eq k' k) eqn:Eq; simpl.
    + apply (py_eq_hashable_r _ _ Hh) in Eq as ->.
      destruct (py_eq k k2) eqn:Eq2; [|done].
      by apply (py_eq_hashable_l _ _ Hh) in Eq2.
    + by rewrite IH.
Qed.

Section insert_loop.
Context {V : Type}.
Variable step : pymap V -> json -> result (pymap V).
Variable key : json -> result json.
Variable stores : json -> V -> Prop.

Hypothesis step_Ok : forall m x m',
  step m x = Ok m' ->
  exists k v, key x = Ok k /\ hashable k = true /\ stores x v /\
              m' = pymap_insert k v m.

Lemma insert_loop_other (l : list json) (m0 m : pymap V) (k : json) :
  for_each step l m0 = Ok m ->
  (forall x, x ∈ l -> key x <> Ok k) ->
  pymap_lookup k m = pymap_lookup k m0.
Proof.
  revert m0. induction l as [|x l IH]; simpl; intros m0 H Hother.
  - by injection H as <-.
  - inv_bind H. destruct (step_Ok _ _ _ E) as (k' & v & Hk & Hh & _ & ->).
    rewrite (IH _ H).
    + apply pymap_lookup_insert_ne; [done|]. intros ->.
      apply (Hother x); [apply elem_of_cons; by left | done].
    + intros y Hy. apply Hother. apply elem_of_cons. by right.
Qed.

Lemma insert_loop_last (l : list json) (m0 m : pymap V) i x k :
  for_each step l m0 = Ok m ->
  last_with_key key l i x k ->
  exists v, pymap_lookup k m = Some v /\ stores x v.
Proof.
  revert m0 i. induction l as [|y l IH]; intros m0 i H (Hi & Hk & Hlast).
  - done.
  - simpl in H. inv_bind H.
    destruct (step_Ok _ _ _ E) as (k' & v & Hk' & Hh & Hv & ->).
    destruct i as [|i]; simpl in Hi.
    + injection Hi as ->. assert (k' = k) as -> by congruence.
      exists v. split; [|done].
      rewrite (insert_loop_other _ _ _ _ H).
      * by apply pymap_lookup_insert_eq.
      * intros z Hz. apply list_elem_of_lookup in Hz as (i' & Hz).
        apply (Hlast (S i')); [lia | done].
    + apply (IH _ i H). split; [done|]. split; [done|].
      intros i' x' Hlt. apply (Hlast (S i')). lia.
Qed.
End insert_loop.

Lemma text_of_Ok (x t : json) :
  text_of x = Ok t ->
  exists tb, py_getitem x "text" = Ok (JDict tb) /\
             t = default (JStr "") (assoc "#text" tb).
Proof.
  unfold text_of. intros H. inv_bind H.
  destruct a; simpl in H; try discriminate.
  injection H as <-. eauto.
Qed.

Lemma pymap_set_Ok {V} (m m' : pymap V) (k : json) (v : V) :
  pymap_set m k v = Ok m' -> hashable k = true /\ m' = pymap_insert k v m.
Proof.
  unfold pymap_set. destruct (hashable k); [|discriminate].
  by intros [= <-].
Qed.

Lemma index_choice_Ok (cs : pymap json) (c : json) (cs' : pymap json) :
  index_choice cs c = Ok cs' ->
  exists k v, py_getitem c "@value" = Ok k /\ hashable k = true /\
              text_of c = Ok v /\ cs' = pymap_insert k v cs.
Proof.
  unfold index_choice. intros H. inv_bind H. inv_bind H.
  apply pymap_set_Ok in H as [Hh ->]. eauto 6.
Qed.

Lemma index_item_Ok (m : pymap question) (item : json) (m' : pymap question) :
  index_item m item = Ok m' ->
  exists k qd, py_getitem item "@name" = Ok k /\ hashable k = true /\
               indexed_as item qd /\ m' = pymap_insert k qd m.
Proof.
  unfold index_item. intros H. inv_bind H. inv_bind H. inv_bind H. inv_bind H.
  apply pymap_set_Ok in H as [Hh ->].
  exists a, (mk_question a0 a2). repeat split; auto. simpl.
  intros l Hl. destruct item as [| | |d]; try discriminate.
  unfold var_choices in *. simpl in *.
  destruct (assoc "varChoice" d); [|discriminate].
  injection E1 as <-. simpl in *. rewrite Hl in E2. exact E2.
Qed.

Lemma index_choice_total (cs : pymap json) (c : json) :
  valid_var_choice c = true -> exists cs', index_choice cs c = Ok cs'.
Proof.
  unfold valid_var_choice, index_choice, text_of.
  destruct (py_getitem c "@value") as [value|]; [|discriminate].
  destruct (py_getitem c "text") as [t|]; [|discriminate].
  intros H. apply andb_true_iff in H as [Hh Hd].
  destruct t; try discriminate. simpl. unfold pymap_set. rewrite Hh. eauto.
Qed.

Lemma index_choices_total (l : list json) (cs : pymap json) :
  forallb valid_var_choice l = true ->
  exists cs', for_each index_choice l cs = Ok cs'.
Proof.
  revert cs. induction l as [|c l IH]; simpl; intros cs H; [eauto|].
  apply andb_true_iff in H as [Hc H].
  destruct (index_choice_total cs c Hc) as (cs' & ->). simpl. auto.
Qed.

Lemma index_item_total (m : pymap question) (item : json) :
  valid_variable item = true -> exists m', index_item m item = Ok m'.
Proof.
  unfold valid_variable, index_item, text_of, var_choices.
  destruct item as [| | |d]; try discriminate. simpl.
  destruct (assoc "@name" d) as [name|]; [|discriminate].
  destruct (assoc "text" d) as [t|]; [|discriminate]. simpl.
  intros H. apply andb_true_iff in H as [H Hl].
  apply andb_true_iff in H as [Hh Hd].
  destruct t; try discriminate. simpl.
  unfold pymap_set. rewrite Hh.
  destruct (assoc "varChoice" d) as [v|]; simpl in *; [|eauto].
  destruct (py_iter v) as [l|]; [|discriminate]. simpl.
  destruct (index_choices_total l [] Hl) as (cs & ->). simpl. eauto.
Qed.

Lemma index_items_total (items : list json) (m : pymap question) :
  forallb valid_variable items = true ->
  exists m', for_each index_item items m = Ok m'.
Proof.
  revert m. induction items as [|x items IH]; simpl; intros m H; [eauto|].
  apply andb_true_iff in H as [Hx H].
  destruct (index_item_total m x Hx) as (m' & ->). simpl. auto.
Qed.

Lemma questions_mapping_total (json_data : json) :
  valid_questionnaire json_data = true ->
  exists items mapping,
    variables json_data = Ok items /\
    questions_mapping json_data = Ok mapping.
Proof.
  unfold valid_questionnaire, questions_mapping.
  destruct (variables json_data) as [items|]; [|discriminate].
  intros H. destruct (index_items_total items [] H) as (m & Hm).
  exists items, m. auto.
Qed.

(** C8: where every text block of the questionnaire is a dict, with or
    without a body, the index is built, and it holds for each variable (as
    last entered under its name) the body of its text block, or the empty
    string when the block has no body; likewise for the text of each of its
    choices.  Where the text block of a variable is not a dict (an empty
    element without attributes is parsed as [None]) and the variables before
    it are well formed, building the index raises [AttributeError]. *)
Theorem text_body_defaulted_or_attribute_error (json_data : json) :
  (valid_questionnaire json_data = true ->
   exists items mapping,
     variables json_data = Ok items /\
     questions_mapping json_data = Ok mapping /\
     forall i item name,
       last_with_key (fun x => py_getitem x "@name") items i item name ->
       exists qd tb,
         pymap_lookup name mapping = Some qd /\
         py_getitem item "text" = Ok (JDict tb) /\
         text qd = match assoc "#text" tb with
                   | Some body => body
                   | None => JStr ""
                   end /\
         forall l j c value,
           var_choices item = Ok l ->
           last_with_key (fun x => py_getitem x "@value") l j c value ->
           exists ctb,
             py_getitem c "text" = Ok (JDict ctb) /\
             pymap_lookup value (choices qd)
               = Some match assoc "#text" ctb with
                      | Some body => body
                      | None => JStr ""
                      end) /\
  (forall before item after name t,
     variables json_data = Ok (before ++ item :: after) ->
     forallb valid_variable before = true ->
     py_getitem item "@name" = Ok name ->
     py_getitem item "text" = Ok t ->
     is_dict t = false ->
     questions_mapping json_data = Raise AttributeError).
Proof.
  split.
  - intros Hv.
    destruct (questions_mapping_total _ Hv) as (items & mapping & Hitems & Hm).
    exists items, mapping. split; [done|]. split; [done|].
    unfold questions_mapping in Hm. rewrite Hitems in Hm. simpl in Hm.
    intros i item name Hlast.
    destruct (insert_loop_last index_item (fun x => py_getitem x "@name")
                indexed_as index_item_Ok _ _ _ _ _ _ Hm Hlast)
      as (qd & Hqd & Htext & Hchoices).
    destruct (text_of_Ok _ _ Htext) as (tb & Htb & Hbody).
    exists qd, tb. split; [done|]. split; [done|]. split; [done|].
    intros l j c value Hl Hc. specialize (Hchoices l Hl).
    destruct (insert_loop_last index_choice (fun x => py_getitem x "@value")
                (fun x v => text_of x = Ok v) index_choice_Ok
                _ _ _ _ _ _ Hchoices Hc)
      as (v & Hlook & Hv').
    destruct (text_of_Ok _ _ Hv') as (ctb & Hctb & ->).
    exists ctb. auto.
  - intros before item after name t Hitems Hbefore Hname Htext Ht.
    unfold questions_mapping. rewrite Hitems. simpl.
    destruct (index_items_total before [] Hbefore) as (m & Hm).
    rewrite (for_each_raises index_item before item after [] m AttributeError);
      [done | done |].
    unfold index_item, text_of. rewrite Hname, Htext. simpl.
    by destruct t.
Qed.

Lemma text_body_defaulted_or_attribute_error_witness :
  (exists items mapping,
     variables survey_without_bodies = Ok items /\
     questions_mapping survey_without_bodies = Ok mapping /\
     forall i item name,
       last_with_key (fun x => py_getitem x "@name") items i item name ->
       exists qd tb,
         pymap_lookup name mapping = Some qd /\
         py_getitem item "text" = Ok (JDict tb) /\
         text qd = match assoc "#text" tb with
                   | Some body => body
                   | None => JStr ""
                   end /\
         forall l j c value,
           var_choices item = Ok l ->
           last_with_key (fun x => py_getitem x "@value") l j c value ->
           exists ctb,
             py_getitem c "text" = Ok (JDict ctb) /\
             pymap_lookup value (choices qd)
               = Some match assoc "#text" ctb with
                      | Some body => body
                      | None => JStr ""
                      end) /\
  questions_mapping survey_with_empty_text_element = Raise AttributeError.
Proof.
  split.
  - destruct (text_body_defaulted_or_attribute_error survey_without_bodies)
      as (H & _).
    apply H. reflexivity.
  - destruct (text_body_defaulted_or_attribute_error
                survey_with_empty_text_element)
      as (_ & H).
    apply (H [variable "Q1" "First"
                [var_choice "1" "Yes"; var_choice "2" "No"]]
             (JDict [("@name", JStr "Q2"); ("text", JNull)])
             [] (JStr "Q2") JNull);
      reflexivity.
Defined.

(** A text block that is an empty element without attributes is parsed as
    [None], which has no [get]: the index is not built, and no record is
    returned. *)
Lemma empty_text_element_raises :
  questions_mapping survey_with_empty_text_element = Raise AttributeError /\
  get_answers "S" survey_with_empty_text_element answers_scenario
    = Raise AttributeError.
Proof. split; reflexivity. Qed.

(** The index of a questionnaire whose text blocks have no body. *)
Example index_without_bodies :
  questions_mapping survey_without_bodies
    = Ok [(JStr "Q1", mk_question (JStr "") [(JStr "1", JStr "")])].
Proof. reflexivity. Qed.

(** ** Documents without their containers *)

Lemma lacks_key_getitem (x : json) (k : string) :
  lacks_key x k = true -> py_getitem x k = Raise KeyError.
Proof.
  destruct x as [| | |d]; simpl; try discriminate.
  by destruct (assoc k d).
Qed.

Lemma getitem_Raise (x : json) (k : string) (e : exn) :
  py_getitem x k = Raise e -> e = KeyError \/ e = TypeError.
Proof.
  destruct x as [| | |d]; simpl; try (intros [= <-]; by right).
  destruct (assoc k d); [discriminate|]. intros [= <-]. by left.
Qed.

Lemma lacks_variables_raises (json_data : json) :
  lacks_variables json_data = true ->
  foreground_variables json_data = Raise KeyError.
Proof.
  unfold lacks_variables, foreground_variables. intros H.
  apply orb_true_iff in H as [H|H].
  { by rewrite (lacks_key_getitem _ _ H). }
  destruct (py_getitem json_data "questionnaire") as [q|]; [|discriminate].
  simpl. apply orb_true_iff in H as [H|H].
  { by rewrite (lacks_key_getitem _ _ H). }
  destruct (py_getitem q "foreground") as [f|]; [|discriminate].
  simpl. by apply lacks_key_getitem.
Qed.

(** C7, as stated, fails: without the [foreground] section, and without the
    [respondentanswer] root, the failure is a [KeyError]; no exception of
    the code is a [DocumentFormatError]. *)
Lemma missing_container_not_DocumentFormatError :
  get_answers "S" survey_without_foreground answers_scenario
    = Raise KeyError /\
  get_answers "S" survey answers_without_root = Raise KeyError /\
  forall e : exn, exn_name e <> "DocumentFormatError".
Proof.
  split; [reflexivity|]. split; [reflexivity|]. intros []; discriminate.
Qed.

(** C7 (amended): when the questionnaire has no [questionnaire],
    [foreground] or [variable] section, or when, the questionnaire being
    indexed, the respondent document has no [respondentanswer] root,
    [get_answers] raises [KeyError] and gives no list; whatever the lookup
    of a container raises, a [KeyError] or a [TypeError], is what
    [get_answers] raises; and with valid documents no error is raised. *)
Theorem missing_container_raises (sid : string) (json_data data : json) :
  (lacks_variables json_data = true ->
   get_answers sid json_data data = Raise KeyError) /\
  (is_ok (questions_mapping json_data) = true ->
   lacks_key data "respondentanswer" = true ->
   get_answers sid json_data data = Raise KeyError) /\
  (forall e, foreground_variables json_data = Raise e ->
             get_answers sid json_data data = Raise e /\
             (e = KeyError \/ e = TypeError)) /\
  (forall e, is_ok (questions_mapping json_data) = true ->
             py_getitem data "respondentanswer" = Raise e ->
             get_answers sid json_data data = Raise e /\
             (e = KeyError \/ e = TypeError)) /\
  (valid_questionnaire json_data = true ->
   valid_respondent data = true ->
   exists out, get_answers sid json_data data = Ok out).
Proof.
  assert (Hq : forall e, foreground_variables json_data = Raise e ->
                         get_answers sid json_data data = Raise e).
  { intros e He. unfold get_answers, questions_mapping, variables.
    by rewrite He. }
  assert (Hr : forall e, is_ok (questions_mapping json_data) = true ->
                         py_getitem data "respondentanswer" = Raise e ->
                         get_answers sid json_data data = Raise e).
  { intros e Hm He. unfold get_answers.
    destruct (questions_mapping json_data); [|discriminate].
    simpl. by rewrite He. }
  split; [|split; [|split; [|split]]].
  - intros H. by apply Hq, lacks_variables_raises.
  - intros Hm H. by apply Hr, lacks_key_getitem.
  - intros e He. split; [by apply Hq|].
    unfold foreground_variables in He.
    destruct (py_getitem json_data "questionnaire") as [q|e1] eqn:E1;
      simpl in He.
    2: { injection He as <-. by apply getitem_Raise in E1. }
    destruct (py_getitem q "foreground") as [f|e2] eqn:E2; simpl in He.
    2: { injection He as <-. by apply getitem_Raise in E2. }
    by apply getitem_Raise in He.
  - intros e Hm He. split; [by apply Hr|]. by apply getitem_Raise in He.
  - intros Hvq Hvr.
    destruct (questions_mapping_total _ Hvq) as (items & mapping & _ & Hm).
    by apply (get_answers_total sid _ _ mapping).
Qed.

Lemma missing_container_raises_witness :
  get_answers "S" survey_without_foreground answers_scenario
    = Raise KeyError /\
  get_answers "S" survey answers_without_root = Raise KeyError /\
  exists out, get_answers "S" survey answers_scenario = Ok out.
Proof.
  split; [|split].
  - destruct (missing_container_raises "S" survey_without_foreground
                answers_scenario) as (H & _).
    apply H. reflexivity.
  - destruct (missing_container_raises "S" survey answers_without_root)
      as (_ & H & _).
    apply H; reflexivity.
  - destruct (missing_container_raises "S" survey answers_scenario)
      as (_ & _ & _ & _ & H).
    apply H; reflexivity.
Defined.

(** ** The uploader *)





(** A database that never accepts the row is tried three times, and the
    third failure is the one that leaves the function. *)
Example never_commits_run :
  Uploader.process_respondent Uploader.never_commits Uploader.sample_dict []
    = (Uploader.Fail (Uploader.CommitFailure 2),
       [Uploader.HttpPost;
        Uploader.DbExecute; Uploader.DbCommit; Uploader.DbConnect;
        Uploader.DbExecute; Uploader.DbCommit; Uploader.DbConnect;
        Uploader.DbExecute; Uploader.DbCommit]).
Proof. vm_compute. reflexivity. Qed.

(** ** Sample runs *)

(** The coded answer ["1"] to [Q1] with its text, and a free text for [Q2]. *)
Example scenario_run :
  get_answers "S" survey answers_scenario
    = Ok [mk_answer (JStr "R") "S" (JStr "Q1") (JStr "First") (JStr "1")
            (JStr "Maybe, unsure");
          mk_answer (JStr "R") "S" (JStr "Q2") (JStr "Second") JNull
            (JStr "free comment")].
Proof. reflexivity. Qed.

(** A text entry without a text is read with [item['#text']] by the first
    loop when its question has a coded answer. *)
Example absent_text_with_choice_raises :
  get_answers "S" survey
    (respondent_doc "R" [single "Q1" "1"] [JDict [("@name", JStr "Q1")]])
    = Raise KeyError.
Proof. reflexivity. Qed.

(** * Further properties of [get_answers] *)

(** ** A single child in place of a list *)

Lemma for_each_app {S A} (body : S -> A -> result S) (l1 l2 : list A) (s : S) :
  for_each body (l1 ++ l2) s
    = bind (for_each body l1 s) (fun s' => for_each body l2 s').
Proof.
  revert s. induction l1 as [|x l1 IH]; intros s; simpl; [done|].
  destruct (body s x); simpl; auto.
Qed.

Lemma answer_entries_eq kind data ra a v :
  py_getitem data "respondentanswer" = Ok ra ->
  py_getitem ra "answer" = Ok a ->
  py_get a kind (JList []) = Ok v ->
  answer_entries kind data = py_iter v.
Proof.
  intros H1 H2 H3. unfold answer_entries.
  rewrite H1. simpl. rewrite H2. simpl. by rewrite H3.
Qed.

(** X1: when the respondent document holds a single coded answer as a dict,
    the first loop runs over the keys of that dict and [get_answers] raises
    [TypeError]. *)
Theorem single_coded_answer_raises sid json_data data mapping ra key a kv d :
  questions_mapping json_data = Ok mapping ->
  py_getitem data "respondentanswer" = Ok ra ->
  py_getitem ra "@key" = Ok key ->
  py_getitem ra "answer" = Ok a ->
  py_get a "valueSingle" (JList []) = Ok (JDict (kv :: d)) ->
  get_answers sid json_data data = Raise TypeError.
Proof.
  intros Hm Hra Hkey Ha Hv. unfold get_answers, valueSingle.
  rewrite Hm. simpl. rewrite Hra. simpl. rewrite Hkey. simpl.
  by rewrite (answer_entries_eq _ _ _ _ _ Hra Ha Hv).
Qed.

Lemma single_coded_answer_raises_witness :
  get_answers "S" survey answers_single_choice = Raise TypeError.
Proof.
  apply (single_coded_answer_raises "S" survey answers_single_choice
           survey_index
           (JDict [("@key", JStr "R");
                   ("answer", JDict [("valueSingle", single "Q1" "1")])])
           (JStr "R") (JDict [("valueSingle", single "Q1" "1")])
           ("@name", JStr "Q1")
           [("choice", JDict [("@value", JStr "1")])]);
    reflexivity.
Defined.

(** X2: when the respondent document holds a single text answer as a dict,
    [get_answers] never ends with a list; with no coded answer it raises
    [TypeError]. *)
Theorem single_text_answer_raises sid json_data data ra a kv d :
  py_getitem data "respondentanswer" = Ok ra ->
  py_getitem ra "answer" = Ok a ->
  py_get a "valueText" (JList []) = Ok (JDict (kv :: d)) ->
  is_ok (get_answers sid json_data data) = false /\
  (is_ok (questions_mapping json_data) = true ->
   is_ok (py_getitem ra "@key") = true ->
   valueSingle data = Ok [] ->
   get_answers sid json_data data = Raise TypeError).
Proof.
  intros Hra Ha Hv.
  assert (Ht : valueText data
               = Ok (JStr (fst kv) :: map (fun kv => JStr (fst kv)) d)).
  { unfold valueText. by rewrite (answer_entries_eq _ _ _ _ _ Hra Ha Hv). }
  split.
  - destruct (get_answers sid json_data data) as [out|] eqn:E; [|done].
    apply get_answers_Ok_valid in E. unfold valid_respondent in E.
    rewrite Hra, Ht in E. simpl in E.
    destruct (py_getitem ra "@key"); [|done].
    destruct (valueSingle data); [|done].
    by rewrite andb_false_r in E.
  - intros Hm Hk Hs. unfold get_answers.
    destruct (questions_mapping json_data); [|done]. simpl.
    rewrite Hra. simpl. destruct (py_getitem ra "@key"); [|done]. simpl.
    rewrite Hs. simpl. by rewrite Ht.
Qed.

Lemma single_text_answer_raises_witness :
  is_ok (get_answers "S" survey answers_single_text) = false /\
  get_answers "S" survey answers_single_text = Raise TypeError.
Proof.
  destruct (single_text_answer_raises "S" survey answers_single_text
              (JDict [("@key", JStr "R");
                      ("answer",
                       JDict [("valueText", free_text "Q2" "free comment")])])
              (JDict [("valueText", free_text "Q2" "free comment")])
              ("@name", JStr "Q2") [("#text", JStr "free comment")]
              eq_refl eq_refl eq_refl) as [H1 H2].
  split; [exact H1|]. apply H2; reflexivity.
Defined.

(** X3: when the questionnaire holds a single variable as a dict, or one of
    its variables holds a single choice as a dict, the index is not built:
    [questions_mapping] and [get_answers] raise [TypeError]. *)
Theorem single_variable_raises sid json_data data :
  (forall kv d,
     foreground_variables json_data = Ok (JDict (kv :: d)) ->
     questions_mapping json_data = Raise TypeError /\
     get_answers sid json_data data = Raise TypeError) /\
  (forall before item after m name t kv d,
     variables json_data = Ok (before ++ item :: after) ->
     for_each index_item before [] = Ok m ->
     py_getitem item "@name" = Ok name ->
     text_of item = Ok t ->
     py_getitem item "varChoice" = Ok (JDict (kv :: d)) ->
     questions_mapping json_data = Raise TypeError /\
     get_answers sid json_data data = Raise TypeError).
Proof.
  assert (Hg : questions_mapping json_data = Raise TypeError ->
               get_answers sid json_data data = Raise TypeError).
  { intros H. unfold get_answers. by rewrite H. }
  split.
  - intros kv d H.
    assert (Hq : questions_mapping json_data = Raise TypeError).
    { unfold questions_mapping, variables. by rewrite H. }
    auto.
  - intros before item after m name t kv d Hv Hb Hn Ht Hc.
    assert (Hq : questions_mapping json_data = Raise TypeError).
    { unfold questions_mapping. rewrite Hv. simpl.
      rewrite for_each_app, Hb. simpl.
      unfold index_item, var_choices. rewrite Hn, Ht. simpl.
      destruct item as [| | |di]; try discriminate. simpl in *.
      destruct (assoc "varChoice" di) as [v|]; [|discriminate].
      injection Hc as ->. reflexivity. }
    auto.
Qed.

Lemma single_variable_raises_witness :
  get_answers "S" survey_single_variable answers_scenario = Raise TypeError /\
  get_answers "S" survey_single_choice answers_scenario = Raise TypeError.
Proof.
  split.
  - destruct (single_variable_raises "S" survey_single_variable
                answers_scenario) as [H _].
    apply (H ("@name", JStr "Q1")
             [("text", text_block "First"); ("varChoice", JList [])]).
    reflexivity.
  - destruct (single_variable_raises "S" survey_single_choice
                answers_scenario) as [_ H].
    apply (H [] (JDict [("@name", JStr "Q1"); ("text", text_block "First");
                        ("varChoice", var_choice "1" "Yes")])
             [] [] (JStr "Q1") (JStr "First") ("@value", JStr "1")
             [("text", text_block "Yes")]);
      reflexivity.
Defined.

(** ** The text of a coded question that has none *)

Lemma text_answer_for_at texts name j te :
  hashable name = true ->
  texts !! j = Some te ->
  py_getitem te "@name" = Ok name ->
  (forall j' te', j' < j -> texts !! j' = Some te' ->
                  exists n, py_getitem te' "@name" = Ok n /\ n <> name) ->
  text_answer_for texts name = py_getitem te "#text".
Proof.
  intros Hh. revert j.
  induction texts as [|x texts IH]; intros j Hj Hn Hbefore; [done|].
  simpl. destruct j as [|j]; simpl in Hj.
  - injection Hj as ->. rewrite Hn. simpl. by rewrite (py_eq_refl _ Hh).
  - destruct (Hbefore 0 x) as (n & -> & Hne); [lia | done |]. simpl.
    destruct (py_eq n name) eqn:Eq.
    + by apply (py_eq_hashable_r _ _ Hh) in Eq.
    + apply (IH j); auto. intros j' te' Hlt Hj'.
      apply (Hbefore (S j') te'); [lia | done].
Qed.

(** X4: when the first text entry of the question of a coded answer has no
    ['#text'], the first loop reads it with a plain subscript and
    [get_answers] raises [KeyError]; the coded answers before it and the
    text entries before that entry are well formed. *)
Theorem absent_text_of_coded_question_raises
    sid json_data data mapping ra key texts before entry after
    name value j te :
  questions_mapping json_data = Ok mapping ->
  py_getitem data "respondentanswer" = Ok ra ->
  py_getitem ra "@key" = Ok key ->
  valueSingle data = Ok (before ++ entry :: after) ->
  valueText data = Ok texts ->
  forallb (valid_choice_entry texts) before = true ->
  py_getitem entry "@name" = Ok name ->
  hashable name = true ->
  (c <- py_getitem entry "choice";; py_getitem c "@value") = Ok value ->
  hashable value = true ->
  texts !! j = Some te ->
  py_getitem te "@name" = Ok name ->
  (forall j' te', j' < j -> texts !! j' = Some te' ->
                  exists n, py_getitem te' "@name" = Ok n /\ n <> name) ->
  lacks_key te "#text" = true ->
  get_answers sid json_data data = Raise KeyError.
Proof.
  intros Hm Hra Hkey Hs Ht Hbefore Hn Hh Hv Hhv Hj Hten Hfirst Hlack.
  unfold get_answers. rewrite Hm. simpl. rewrite Hra. simpl.
  rewrite Hkey. simpl. rewrite Hs. simpl. rewrite for_each_app.
  destruct (choice_pass_total data mapping key sid texts before [] Ht Hbefore)
    as (answers & ->).
  simpl. unfold choice_step at 1. rewrite Hn. simpl.
  unfold lookup_question_text, lookup_choice_text, pymap_get.
  rewrite Hh. simpl.
  destruct (py_getitem entry "choice") as [c|]; [|discriminate]. simpl in *.
  rewrite Hv. simpl. rewrite Hhv. simpl. rewrite Ht. simpl.
  rewrite (text_answer_for_at _ _ _ _ Hh Hj Hten Hfirst).
  by rewrite (lacks_key_getitem _ _ Hlack).
Qed.

Lemma absent_text_of_coded_question_raises_witness :
  get_answers "S" survey answers_choice_with_absent_text = Raise KeyError.
Proof.
  apply (absent_text_of_coded_question_raises "S" survey
           answers_choice_with_absent_text survey_index
           (JDict [("@key", JStr "R");
                   ("answer",
                    JDict [("valueSingle",
                            JList [single "Q3" "1"; single "Q1" "1"]);
                           ("valueText",
                            JList [free_text "Q2" "free comment";
                                   JDict [("@name", JStr "Q1")]])])])
           (JStr "R")
           [free_text "Q2" "free comment"; JDict [("@name", JStr "Q1")]]
           [single "Q3" "1"] (single "Q1" "1") []
           (JStr "Q1") (JStr "1") 1 (JDict [("@name", JStr "Q1")]));
    try reflexivity.
  intros j' te' Hlt Hj'. destruct j' as [|j']; [|lia].
  injection Hj' as <-. exists (JStr "Q2"). split; [reflexivity | discriminate].
Defined.

(** ** When [get_answers] ends with a list *)

(** X5: [get_answers] ends with a list exactly when the index is built and
    the respondent document is valid: its root has ['@key'] and ['answer'],
    every entry exposes a hashable name (a coded entry also a hashable
    coded value), and no coded entry meets a first text entry of its
    question without ['#text']. *)
Theorem get_answers_ok_iff (sid : string) (json_data data : json) :
  is_ok (get_answers sid json_data data)
    = is_ok (questions_mapping json_data) && valid_respondent data.
Proof.
  destruct (questions_mapping json_data) as [mapping|e] eqn:Hm; simpl.
  - destruct (valid_respondent data) eqn:Hv.
    + by destruct (get_answers_total sid _ _ _ Hm Hv) as (out & ->).
    + destruct (get_answers sid json_data data) as [out|] eqn:E; [|done].
      apply get_answers_Ok_valid in E. congruence.
  - unfold get_answers. by rewrite Hm.
Qed.

(** ** What every record carries *)

Lemma get_answers_eq sid json_data data mapping ra key singles texts :
  questions_mapping json_data = Ok mapping ->
  py_getitem data "respondentanswer" = Ok ra ->
  py_getitem ra "@key" = Ok key ->
  valueSingle data = Ok singles ->
  valueText data = Ok texts ->
  get_answers sid json_data data
    = bind (for_each (choice_step data mapping key sid) singles [])
           (fun answers => for_each (text_step mapping key sid) texts answers).
Proof.
  intros Hm Hra Hkey Hs Ht. unfold get_answers.
  rewrite Hm. simpl. rewrite Hra. simpl. rewrite Hkey. simpl.
  rewrite Hs. simpl. destruct (for_each _ singles []); simpl; [|done].
  by rewrite Ht.
Qed.

Lemma valid_respondent_key data :
  valid_respondent data = true ->
  exists ra key,
    py_getitem data "respondentanswer" = Ok ra /\
    py_getitem ra "@key" = Ok key.
Proof.
  unfold valid_respondent.
  destruct (py_getitem data "respondentanswer") as [ra|]; simpl;
    [|discriminate].
  destruct (py_getitem ra "@key") as [key|] eqn:Hkey; simpl; [|discriminate].
  intros _. exists ra, key. auto.
Qed.

Lemma valid_respondent_entries_valid data singles texts :
  valid_respondent data = true ->
  valueSingle data = Ok singles ->
  valueText data = Ok texts ->
  forallb (valid_choice_entry texts) singles = true /\
  forallb valid_text_entry texts = true.
Proof.
  unfold valid_respondent. intros H Hs Ht. rewrite Hs, Ht in H.
  destruct (bind _ _); [|discriminate]. by apply andb_true_iff in H.
Qed.

(** The two loops of a run on a valid document. *)
Lemma get_answers_valid_key sid json_data data mapping ra key singles texts :
  questions_mapping json_data = Ok mapping ->
  valid_respondent data = true ->
  py_getitem data "respondentanswer" = Ok ra ->
  py_getitem ra "@key" = Ok key ->
  valueSingle data = Ok singles ->
  valueText data = Ok texts ->
  exists p1 p2 kept,
    get_answers sid json_data data = Ok (p1 ++ p2) /\
    Forall2 (from_choice mapping texts key sid) singles p1 /\
    for_each (text_step mapping key sid) texts p1 = Ok (p1 ++ p2) /\
    sublist kept texts /\
    Forall2 (from_text mapping key sid) kept p2.
Proof.
  intros Hm Hv Hra Hkey Hs Ht.
  destruct (get_answers_total sid _ _ _ Hm Hv) as (out & Hout).
  pose proof Hout as H.
  rewrite (get_answers_eq _ _ _ _ _ _ _ _ Hm Hra Hkey Hs Ht) in H.
  inv_bind H.
  destruct (choice_pass_Ok _ _ _ _ _ _ _ _ Ht E) as (p1 & -> & Hp1).
  destruct (text_pass_Ok _ _ _ _ _ _ H) as (p2 & kept & -> & Hsub & Hp2 & _).
  simpl in *. exists p1, p2, kept. auto.
Qed.

(** X6: every record of the output carries the ['@key'] of the respondent
    document as [respondent_id] and the survey identifier [get_answers] was
    given as [survey_id]. *)
Theorem records_carry_identifiers sid json_data data mapping ra key :
  questions_mapping json_data = Ok mapping ->
  valid_respondent data = true ->
  py_getitem data "respondentanswer" = Ok ra ->
  py_getitem ra "@key" = Ok key ->
  exists out,
    get_answers sid json_data data = Ok out /\
    forall r, r ∈ out -> respondent_id r = key /\ survey_id r = sid.
Proof.
  intros Hm Hv Hra Hkey.
  destruct (valid_respondent_entries _ Hv) as (singles & texts & Hs & Ht).
  destruct (get_answers_valid_key sid _ _ _ _ _ _ _ Hm Hv Hra Hkey Hs Ht)
    as (p1 & p2 & kept & Hout & Hp1 & _ & _ & Hp2).
  exists (p1 ++ p2). split; [done|].
  intros r Hr. apply elem_of_app in Hr as [Hr|Hr].
  - destruct (from_choice_elem _ _ _ _ _ _ _ Hp1 Hr) as (e & _ & Hfrom).
    by destruct Hfrom as (? & ? & ? & ? & ? & ? & _ & _ & _ & _ & _ & _ & ->).
  - destruct (from_text_elem _ _ _ _ _ _ Hp2 Hr) as (e & _ & Hfrom).
    by destruct Hfrom as (? & ? & ? & _ & _ & _ & _ & ->).
Qed.

Lemma records_carry_identifiers_witness :
  exists out,
    get_answers "S" survey answers_scenario = Ok out /\
    forall r, r ∈ out -> respondent_id r = JStr "R" /\ survey_id r = "S".
Proof.
  apply (records_carry_identifiers "S" survey answers_scenario survey_index
           (JDict [("@key", JStr "R");
                   ("answer",
                    JDict [("valueSingle", JList [single "Q1" "1"]);
                           ("valueText",
                            JList [free_text "Q1" "Maybe, unsure";
                                   free_text "Q2" "free comment"])])]));
    reflexivity.
Defined.

(** X7: the output has one record per coded entry and at most one more per
    text entry. *)
Theorem output_length_bounds sid json_data data mapping singles texts :
  questions_mapping json_data = Ok mapping ->
  valid_respondent data = true ->
  valueSingle data = Ok singles ->
  valueText data = Ok texts ->
  exists out,
    get_answers sid json_data data = Ok out /\
    length singles <= length out <= length singles + length texts.
Proof.
  intros Hm Hv Hs Ht.
  destruct (get_answers_valid sid _ _ _ _ _ Hm Hv Hs Ht)
    as (rid & p1 & p2 & kept & Hout & Hp1 & Hsub & Hp2 & _).
  exists (p1 ++ p2). split; [done|].
  rewrite length_app.
  apply Forall2_length in Hp1. apply Forall2_length in Hp2.
  apply sublist_length in Hsub. lia.
Qed.

Lemma output_length_bounds_witness :
  exists out,
    get_answers "S" survey answers_scenario = Ok out /\
    1 <= length out <= 1 + 2.
Proof.
  apply (output_length_bounds "S" survey answers_scenario survey_index
           [single "Q1" "1"]
           [free_text "Q1" "Maybe, unsure"; free_text "Q2" "free comment"]);
    reflexivity.
Defined.

(** ** Texts resolved from the index *)

(** X8: a record whose question is in the index has the text the index
    holds for the question as [question_text], whichever loop appended
    it. *)
Theorem known_question_text sid json_data data mapping :
  questions_mapping json_data = Ok mapping ->
  valid_respondent data = true ->
  exists out,
    get_answers sid json_data data = Ok out /\
    forall r qd, r ∈ out ->
      pymap_lookup (question_name r) mapping = Some qd ->
      question_text r = text qd.
Proof.
  intros Hm Hv.
  destruct (valid_respondent_entries _ Hv) as (singles & texts & Hs & Ht).
  destruct (get_answers_valid sid _ _ _ _ _ Hm Hv Hs Ht)
    as (rid & p1 & p2 & kept & Hout & Hp1 & Hsub & Hp2 & _).
  exists (p1 ++ p2). split; [done|].
  intros r qd Hr. apply elem_of_app in Hr as [Hr|Hr].
  - destruct (from_choice_elem _ _ _ _ _ _ _ Hp1 Hr) as (e & He & Hfrom).
    destruct Hfrom as (n & v & c & qt & ct & t & _ & _ & _ & Hqt & _ & _ & ->).
    destruct (lookup_question_text_Ok _ _ _ Hqt) as [_ ->]. simpl.
    by intros ->.
  - destruct (from_text_elem _ _ _ _ _ _ Hp2 Hr) as (e & He & Hfrom).
    destruct Hfrom as (n & qt & t & _ & Hqt & _ & _ & ->).
    destruct (lookup_question_text_Ok _ _ _ Hqt) as [_ ->]. simpl.
    by intros ->.
Qed.

Lemma known_question_text_witness :
  exists out,
    get_answers "S" survey answers_scenario = Ok out /\
    forall r qd, r ∈ out ->
      pymap_lookup (question_name r) survey_index = Some qd ->
      question_text r = text qd.
Proof.
  apply (known_question_text "S" survey answers_scenario); reflexivity.
Defined.

(** X9: a coded entry whose question is in the index, whose coded value is
    a key of the question's choices, and whose question has no overriding
    text entry, gives a record with the text of that choice as
    [choice_text]. *)
Theorem known_choice_text
    sid json_data data mapping singles texts i entry name c value qd ct :
  questions_mapping json_data = Ok mapping ->
  valid_respondent data = true ->
  valueSingle data = Ok singles ->
  valueText data = Ok texts ->
  singles !! i = Some entry ->
  py_getitem entry "@name" = Ok name ->
  py_getitem entry "choice" = Ok c ->
  py_getitem c "@value" = Ok value ->
  pymap_lookup name mapping = Some qd ->
  pymap_lookup value (choices qd) = Some ct ->
  no_text_override texts name ->
  exists out r,
    get_answers sid json_data data = Ok out /\
    out !! i = Some r /\
    question_name r = name /\
    question_value r = value /\
    choice_text r = ct.
Proof.
  intros Hm Hv Hs Ht Hi Hn Hc Hval Hq Hcv Hno.
  destruct (get_answers_valid sid _ _ _ _ _ Hm Hv Hs Ht)
    as (rid & p1 & p2 & kept & Hout & Hp1 & _).
  destruct (record_of_choice _ _ _ _ _ _ p2 _ _ Hp1 Hi) as (r & Hr & Hfrom).
  destruct Hfrom
    as (name' & value' & c' & qt & ct' & t' &
        Hn' & Hc' & Hval' & Hqt & Hct & Hta & ->).
  assert (name' = name) as -> by congruence.
  assert (c' = c) as -> by congruence.
  assert (value' = value) as -> by congruence.
  destruct (lookup_question_text_Ok _ _ _ Hqt) as [Hh _].
  destruct (lookup_choice_text_Ok _ _ _ _ Hct) as [_ ->].
  rewrite (text_answer_for_no_override _ _ _ Hh Hno Hta) in Hr.
  eexists (p1 ++ p2), _. split; [exact Hout|]. split; [exact Hr|]. simpl.
  by rewrite Hq, Hcv.
Qed.

Lemma known_choice_text_witness :
  exists out r,
    get_answers "S" survey answers_second_text = Ok out /\
    out !! 0 = Some r /\
    question_name r = JStr "Q1" /\
    question_value r = JStr "2" /\
    choice_text r = JStr "No".
Proof.
  apply (known_choice_text "S" survey answers_second_text survey_index
           [single "Q1" "2"]
           [JDict [("@name", JStr "Q2")]; free_text "Q2" "second";
            free_text "Q2" "third"; free_text "Q1" ""]
           0 (single "Q1" "2") (JStr "Q1") (JDict [("@value", JStr "2")])
           (JStr "2")
           (mk_question (JStr "First")
              [(JStr "1", JStr "Yes"); (JStr "2", JStr "No")])
           (JStr "No"));
    try reflexivity.
  intros e t He Hname Htext.
  repeat (apply elem_of_cons in He as [->|He]; [try discriminate|]).
  - by injection Htext as <-.
  - inversion He.
Defined.

(** ** The second loop *)

Lemma not_seen (name : json) (answers : list answer_record) :
  hashable name = true ->
  name ∉ names answers ->
  existsb (fun a => py_eq (question_name a) name) answers = false.
Proof.
  intros Hh Hnot. destruct (existsb _ answers) eqn:E; [|done].
  exfalso. apply Hnot. apply existsb_exists in E as (a & Ha & Heq).
  apply (py_eq_hashable_r _ _ Hh) in Heq as <-.
  apply list_elem_of_fmap_2. by apply list_elem_of_In.
Qed.

Lemma seen (name : json) (answers : list answer_record) :
  hashable name = true ->
  existsb (fun a => py_eq (question_name a) name) answers = true ->
  name ∈ names answers.
Proof.
  intros Hh E. apply existsb_exists in E as (a & Ha & Heq).
  apply (py_eq_hashable_r _ _ Hh) in Heq as <-.
  apply list_elem_of_fmap_2. by apply list_elem_of_In.
Qed.

Lemma text_pass_keeps mapping rid sid texts answers out r :
  for_each (text_step mapping rid sid) texts answers = Ok out ->
  r ∈ answers -> r ∈ out.
Proof.
  intros H Hr.
  destruct (text_pass_Ok _ _ _ _ _ _ H) as (p2 & kept & -> & _).
  apply elem_of_app. by left.
Qed.

(** The records the second loop appends have names that are new and
    pairwise distinct. *)
Lemma text_pass_fresh mapping rid sid texts answers out :
  for_each (text_step mapping rid sid) texts answers = Ok out ->
  exists p2, out = answers ++ p2 /\
             NoDup (names p2) /\
             forall n, n ∈ names p2 -> n ∉ names answers.
Proof.
  revert answers.
  induction texts as [|e texts IH]; simpl; intros answers H.
  - injection H as <-. exists []. rewrite app_nil_r.
    split; [done|]. split; [constructor|]. intros n Hn. inversion Hn.
  - inv_bind H. destruct (IH _ H) as (p2 & -> & Hnd & Hnew).
    destruct (text_step_Ok _ _ _ _ _ _ E) as [->|(r & -> & _ & Hr)].
    + exists p2. auto.
    + exists (r :: p2). rewrite <- app_assoc. split; [done|].
      unfold names in *. rewrite fmap_cons. split.
      * apply NoDup_cons. split; [|done]. intros Hin.
        apply (Hnew _ Hin). rewrite fmap_app. apply elem_of_app. right.
        apply list_elem_of_singleton. reflexivity.
      * intros n Hn. apply elem_of_cons in Hn as [->|Hn]; [done|].
        intros Hin. apply (Hnew _ Hn). rewrite fmap_app.
        apply elem_of_app. by left.
Qed.

Lemma text_pass_first mapping rid sid texts answers out name j te t qt :
  for_each (text_step mapping rid sid) texts answers = Ok out ->
  hashable name = true ->
  name ∉ names answers ->
  texts !! j = Some te ->
  py_getitem te "@name" = Ok name ->
  py_get te "#text" JNull = Ok t ->
  t <> JNull ->
  (forall j' te', j' < j -> texts !! j' = Some te' ->
                  py_getitem te' "@name" = Ok name ->
                  py_get te' "#text" JNull = Ok JNull) ->
  lookup_question_text mapping name = Ok qt ->
  mk_answer rid sid name qt JNull t ∈ out.
Proof.
  intros H Hh. revert answers j H.
  induction texts as [|x texts IH];
    intros answers j H Hnot Hj Hn Ht Htn Hbefore Hqt; [done|].
  simpl in H. inv_bind H. destruct j as [|j]; simpl in Hj.
  - injection Hj as ->. unfold text_step in E. rewrite Hn in E. simpl in E.
    rewrite (not_seen _ _ Hh Hnot), Hqt in E. simpl in E.
    rewrite Ht in E. simpl in E.
    apply (text_pass_keeps _ _ _ _ _ _ _ H).
    destruct t; [done|..]; injection E as <-; apply elem_of_app; right;
      apply list_elem_of_singleton; reflexivity.
  - apply (IH a j); auto.
    + destruct (text_step_Ok _ _ _ _ _ _ E) as [->|(r & -> & Hr & _)];
        [done|].
      destruct Hr as (n & qt' & t' & Hxn & _ & Hxt & Hne & ->).
      unfold names. rewrite fmap_app. intros Hin.
      apply elem_of_app in Hin as [Hin|Hin]; [by apply Hnot|].
      apply list_elem_of_singleton in Hin. simpl in Hin. subst n.
      specialize (Hbefore 0 x ltac:(lia) eq_refl Hxn). congruence.
    + intros j' te' Hlt Hj'. apply (Hbefore (S j') te'); [lia | done].
Qed.

Lemma NoDup_fmap_elem_eq {A B} (f : A -> B) (l : list A) (x y : A) :
  NoDup (f <$> l) -> x ∈ l -> y ∈ l -> f x = f y -> x = y.
Proof.
  induction l as [|z l IH]; intros Hnd Hx Hy Hf; [inversion Hx|].
  rewrite fmap_cons in Hnd. apply NoDup_cons in Hnd as [Hz Hnd].
  apply elem_of_cons in Hx as [->|Hx]; apply elem_of_cons in Hy as [->|Hy];
    auto.
  - exfalso. apply Hz. rewrite Hf. by apply list_elem_of_fmap_2.
  - exfalso. apply Hz. rewrite <- Hf. by apply list_elem_of_fmap_2.
Qed.

Lemma valid_text_entry_hashable texts e name :
  forallb valid_text_entry texts = true ->
  e ∈ texts ->
  py_getitem e "@name" = Ok name ->
  hashable name = true.
Proof.
  intros Hall He Hn. apply list_elem_of_In in He.
  rewrite forallb_forall in Hall. specialize (Hall e He).
  unfold valid_text_entry in Hall. by rewrite Hn in Hall.
Qed.

(** X10: for a question without a coded answer, the first text entry of
    the question that has a text gives the one record of the question: its
    [choice_text] is that text, its [question_value] is [None], and later
    entries of the question add nothing. *)
Theorem first_text_gives_the_record
    sid json_data data mapping singles texts name j te t :
  questions_mapping json_data = Ok mapping ->
  valid_respondent data = true ->
  valueSingle data = Ok singles ->
  valueText data = Ok texts ->
  (forall e, e ∈ singles -> py_getitem e "@name" <> Ok name) ->
  texts !! j = Some te ->
  py_getitem te "@name" = Ok name ->
  py_get te "#text" JNull = Ok t ->
  t <> JNull ->
  (forall j' te', j' < j -> texts !! j' = Some te' ->
                  py_getitem te' "@name" = Ok name ->
                  py_get te' "#text" JNull = Ok JNull) ->
  exists out r,
    get_answers sid json_data data = Ok out /\
    r ∈ out /\
    question_name r = name /\
    question_value r = JNull /\
    choice_text r = t /\
    forall r', r' ∈ out -> question_name r' = name -> r' = r.
Proof.
  intros Hm Hv Hs Ht Hnochoice Hj Hn Htext Htn Hbefore.
  destruct (valid_respondent_key _ Hv) as (ra & key & Hra & Hkey).
  destruct (valid_respondent_entries_valid _ _ _ Hv Hs Ht) as [_ Hvt].
  destruct (get_answers_valid_key sid _ _ _ _ _ _ _ Hm Hv Hra Hkey Hs Ht)
    as (p1 & p2 & kept & Hout & Hp1 & Hpass & _ & _).
  assert (Hh : hashable name = true).
  { apply (valid_text_entry_hashable texts te); auto.
    by apply list_elem_of_lookup_2 in Hj. }
  assert (Hnot : name ∉ names p1).
  { intros Hin. apply list_elem_of_fmap in Hin as (r & -> & Hr).
    destruct (from_choice_elem _ _ _ _ _ _ _ Hp1 Hr) as (e & He & Hfrom).
    destruct Hfrom as (n & ? & ? & ? & ? & ? & Hen & _ & _ & _ & _ & _ & ->).
    by apply (Hnochoice e He). }
  assert (Hqt : exists qt, lookup_question_text mapping name = Ok qt).
  { unfold lookup_question_text, pymap_get. rewrite Hh. simpl. eauto. }
  destruct Hqt as (qt & Hqt).
  pose proof (text_pass_first _ _ _ _ _ _ _ _ _ _ _
                Hpass Hh Hnot Hj Hn Htext Htn Hbefore Hqt) as Hin.
  eexists (p1 ++ p2), _. split; [exact Hout|]. split; [exact Hin|].
  simpl. repeat split.
  intros r' Hr' Hname.
  destruct (text_pass_fresh _ _ _ _ _ _ Hpass) as (p2' & Heq & Hnd & Hnew).
  apply app_inv_head in Heq as <-.
  assert (Hp2 : forall x, x ∈ p1 ++ p2 -> question_name x = name -> x ∈ p2).
  { intros x Hx Hxn. apply elem_of_app in Hx as [Hx|Hx]; [|done].
    exfalso. apply Hnot. rewrite <- Hxn. by apply list_elem_of_fmap_2. }
  apply (NoDup_fmap_elem_eq question_name p2); auto.
Qed.

Lemma first_text_gives_the_record_witness :
  exists out r,
    get_answers "S" survey answers_second_text = Ok out /\
    r ∈ out /\
    question_name r = JStr "Q2" /\
    question_value r = JNull /\
    choice_text r = JStr "second" /\
    forall r', r' ∈ out -> question_name r' = JStr "Q2" -> r' = r.
Proof.
  apply (first_text_gives_the_record "S" survey answers_second_text
           survey_index [single "Q1" "2"]
           [JDict [("@name", JStr "Q2")]; free_text "Q2" "second";
            free_text "Q2" "third"; free_text "Q1" ""]
           (JStr "Q2") 1 (free_text "Q2" "second") (JStr "second"));
    try reflexivity.
  - intros e He. apply list_elem_of_singleton in He as ->. discriminate.
  - discriminate.
  - intros j' te' Hlt Hj' _. destruct j' as [|j']; [|lia].
    by injection Hj' as <-.
Defined.

Lemma text_pass_complete mapping rid sid texts answers out e n t :
  for_each (text_step mapping rid sid) texts answers = Ok out ->
  forallb valid_text_entry texts = true ->
  e ∈ texts ->
  py_getitem e "@name" = Ok n ->
  py_get e "#text" JNull = Ok t ->
  t <> JNull ->
  n ∈ names out.
Proof.
  revert answers.
  induction texts as [|x texts IH]; intros answers H Hv He Hn Ht Htn;
    [inversion He|].
  simpl in H. inv_bind H. simpl in Hv. apply andb_true_iff in Hv as [Hx Hv].
  apply elem_of_cons in He as [->|He]; [|by apply (IH a)].
  assert (Hh : hashable n = true).
  { unfold valid_text_entry in Hx. by rewrite Hn in Hx. }
  assert (Hin : n ∈ names a).
  { unfold text_step in E. rewrite Hn in E. simpl in E.
    destruct (existsb _ answers) eqn:Es.
    - injection E as <-. by apply seen.
    - inv_bind E. rewrite Ht in E. simpl in E.
      destruct t; [done|..]; injection E as <-; unfold names;
        rewrite fmap_app; apply elem_of_app; right;
        apply list_elem_of_singleton; reflexivity. }
  apply list_elem_of_fmap in Hin as (r & -> & Hr).
  apply list_elem_of_fmap_2. by apply (text_pass_keeps _ _ _ _ _ _ _ H).
Qed.

(** X11: no answered question is lost: the name of every coded entry, and
    of every text entry that has a text, is the [question_name] of a
    record of the output. *)
Theorem answered_questions_in_output
    sid json_data data mapping singles texts :
  questions_mapping json_data = Ok mapping ->
  valid_respondent data = true ->
  valueSingle data = Ok singles ->
  valueText data = Ok texts ->
  exists out,
    get_answers sid json_data data = Ok out /\
    (forall e n, e ∈ singles -> py_getitem e "@name" = Ok n ->
                 n ∈ names out) /\
    (forall e n t, e ∈ texts -> py_getitem e "@name" = Ok n ->
                   py_get e "#text" JNull = Ok t -> t <> JNull ->
                   n ∈ names out).
Proof.
  intros Hm Hv Hs Ht.
  destruct (valid_respondent_key _ Hv) as (ra & key & Hra & Hkey).
  destruct (valid_respondent_entries_valid _ _ _ Hv Hs Ht) as [_ Hvt].
  destruct (get_answers_valid_key sid _ _ _ _ _ _ _ Hm Hv Hra Hkey Hs Ht)
    as (p1 & p2 & kept & Hout & Hp1 & Hpass & _ & _).
  exists (p1 ++ p2). split; [done|]. split.
  - intros e n He Hn. apply list_elem_of_lookup in He as (i & Hi).
    destruct (record_of_choice _ _ _ _ _ _ p2 _ _ Hp1 Hi) as (r & Hr & Hfrom).
    destruct Hfrom as (n' & ? & ? & ? & ? & ? & Hn' & _ & _ & _ & _ & _ & ->).
    assert (n' = n) as -> by congruence.
    apply list_elem_of_lookup_2 in Hr.
    by apply (list_elem_of_fmap_2 question_name) in Hr.
  - intros e n t He Hn Htext Htn.
    by apply (text_pass_complete _ _ _ _ _ _ _ _ _ Hpass Hvt He Hn Htext Htn).
Qed.

Lemma answered_questions_in_output_witness :
  exists out,
    get_answers "S" survey answers_second_text = Ok out /\
    (forall e n, e ∈ [single "Q1" "2"] -> py_getitem e "@name" = Ok n ->
                 n ∈ names out) /\
    (forall e n t,
       e ∈ [JDict [("@name", JStr "Q2")]; free_text "Q2" "second";
            free_text "Q2" "third"; free_text "Q1" ""] ->
       py_getitem e "@name" = Ok n ->
       py_get e "#text" JNull = Ok t -> t <> JNull ->
       n ∈ names out).
Proof.
  apply (answered_questions_in_output "S" survey answers_second_text
           survey_index);
    reflexivity.
Defined.

(** ** The keys of the index *)

Lemma hashable_eq_dec (a b : json) :
  hashable a = true -> py_eq a b = false -> a <> b.
Proof. intros Hh Hne ->. by rewrite (py_eq_refl _ Hh) in Hne. Qed.

Lemma pymap_insert_keys {V} (k k' : json) (v : V) (m : pymap V) :
  hashable k = true ->
  k' ∈ (pymap_insert k v m).*1 <-> k' = k \/ k' ∈ m.*1.
Proof.
  intros Hh. induction m as [|[k1 v1] m IH]; simpl.
  - rewrite list_elem_of_singleton. split; [auto|].
    intros [?|H]; [done | inversion H].
  - destruct (py_eq k1 k) eqn:Eq; simpl.
    + apply (py_eq_hashable_r _ _ Hh) in Eq as ->.
      rewrite elem_of_cons. tauto.
    + rewrite !elem_of_cons, IH. tauto.
Qed.

Lemma pymap_insert_NoDup {V} (k : json) (v : V) (m : pymap V) :
  hashable k = true ->
  Forall (fun k1 => hashable k1 = true) m.*1 ->
  NoDup m.*1 -> NoDup (pymap_insert k v m).*1.
Proof.
  intros Hh. induction m as [|[k1 v1] m IH]; simpl; intros Hall Hnd.
  - apply NoDup_singleton.
  - apply Forall_cons in Hall as [Hh1 Hall].
    apply NoDup_cons in Hnd as [Hk1 Hnd].
    destruct (py_eq k1 k) eqn:Eq; simpl.
    + by apply NoDup_cons.
    + apply NoDup_cons. split; [|auto].
      rewrite (pymap_insert_keys _ _ _ _ Hh). intros [->|Hin]; [|done].
      by apply (hashable_eq_dec _ _ Hh1 Eq).
Qed.

Section insert_loop_keys.
Context {V : Type}.
Variable step : pymap V -> json -> result (pymap V).
Variable key : json -> result json.

Hypothesis step_key : forall m x m',
  step m x = Ok m' ->
  exists k v, key x = Ok k /\ hashable k = true /\ m' = pymap_insert k v m.

Lemma insert_loop_keys (l : list json) (m0 m : pymap V) :
  for_each step l m0 = Ok m ->
  Forall (fun k => hashable k = true) m0.*1 ->
  NoDup m0.*1 ->
  Forall (fun k => hashable k = true) m.*1 /\
  NoDup m.*1 /\
  forall k, k ∈ m.*1 <-> k ∈ m0.*1 \/ Ok k ∈ key <$> l.
Proof.
  revert m0. induction l as [|x l IH]; simpl; intros m0 H Hall Hnd.
  - injection H as <-. split; [done|]. split; [done|].
    intros k. split; [auto|]. intros [?|Hin]; [done | inversion Hin].
  - inv_bind H. destruct (step_key _ _ _ E) as (k1 & v & Hk & Hh & ->).
    destruct (IH _ H) as (Hall' & Hnd' & Hkeys).
    + apply Forall_forall. intros k' Hk'.
      apply (pymap_insert_keys _ _ _ _ Hh) in Hk' as [->|Hk']; [done|].
      by apply (proj1 (Forall_forall _ _) Hall).
    + by apply pymap_insert_NoDup.
    + split; [done|]. split; [done|]. intros k.
      rewrite Hkeys, (pymap_insert_keys _ _ _ _ Hh), elem_of_cons.
      rewrite Hk. split.
      * intros [[->|?]|?]; auto.
      * intros [?|[[= ->]|?]]; auto.
Qed.
End insert_loop_keys.

Lemma index_item_key (m : pymap question) (item : json) (m' : pymap question) :
  index_item m item = Ok m' ->
  exists k v, py_getitem item "@name" = Ok k /\ hashable k = true /\
              m' = pymap_insert k v m.
Proof.
  intros H. destruct (index_item_Ok _ _ _ H) as (k & qd & ? & ? & _ & ?).
  eauto.
Qed.

(** X12: the keys of the index are the names of the variables of the
    questionnaire, each once, however often a name occurs among the
    variables. *)
Theorem index_keys_are_variable_names (json_data : json) items mapping :
  variables json_data = Ok items ->
  questions_mapping json_data = Ok mapping ->
  NoDup mapping.*1 /\
  forall k, k ∈ mapping.*1 <-> Ok k ∈ entry_names items.
Proof.
  intros Hitems Hm. unfold questions_mapping in Hm. rewrite Hitems in Hm.
  simpl in Hm.
  destruct (insert_loop_keys index_item (fun x => py_getitem x "@name")
              index_item_key items [] mapping Hm)
    as (_ & Hnd & Hkeys); [constructor | constructor |].
  split; [done|]. intros k. rewrite Hkeys. unfold entry_names.
  split; [|auto]. intros [Hin|?]; [inversion Hin | done].
Qed.

Lemma index_keys_are_variable_names_witness :
  NoDup [JStr "Q1"; JStr "Q2"] /\
  forall k,
    k ∈ [JStr "Q1"; JStr "Q2"] <->
    Ok k ∈ entry_names
             [variable "Q1" "First" [var_choice "1" "Yes"];
              variable "Q2" "Second" [];
              variable "Q1" "Again" []].
Proof.
  apply (index_keys_are_variable_names survey_repeated_variable
           [variable "Q1" "First" [var_choice "1" "Yes"];
            variable "Q2" "Second" [];
            variable "Q1" "Again" []]
           [(JStr "Q1", mk_question (JStr "Again") []);
            (JStr "Q2", mk_question (JStr "Second") [])]);
    reflexivity.
Defined.

(** * The batch of respondents *)

Lemma posts_app (a b : list Batch.event) :
  Batch.posts (a ++ b) = Batch.posts a ++ Batch.posts b.
Proof.
  induction a as [|[] a IH]; simpl; auto. by rewrite IH.
Qed.

Lemma opens_app (a b : list Batch.event) :
  Batch.opens (a ++ b) = Batch.opens a ++ Batch.opens b.
Proof.
  induction a as [|[] a IH]; simpl; auto. by rewrite IH.
Qed.

Lemma closes_app (a b : list Batch.event) :
  Batch.closes (a ++ b) = Batch.closes a ++ Batch.closes b.
Proof.
  induction a as [|[] a IH]; simpl; auto; by rewrite IH.
Qed.

Lemma latest_app (cur : option nat) (a b : list Batch.event) :
  Batch.latest cur (a ++ b) = Batch.latest (Batch.latest cur a) b.
Proof.
  revert cur. induction a as [|[] a IH]; intros cur; simpl; auto.
Qed.

Lemma uses_latest_app (cur : option nat) (a b : list Batch.event) :
  Batch.uses_latest cur (a ++ b)
    = Batch.uses_latest cur a && Batch.uses_latest (Batch.latest cur a) b.
Proof.
  revert cur. induction a as [|[] a IH]; intros cur; simpl; auto;
    by rewrite IH, andb_assoc.
Qed.

Lemma quiet_nil (s : Batch.conns) : Batch.quiet s s [].
Proof.
  repeat split; auto. exists 0. split; [lia | done].
Qed.

Lemma quiet_app (s s1 s2 : Batch.conns) (e1 e2 : list Batch.event) :
  Batch.quiet s s1 e1 -> Batch.quiet s1 s2 e2 -> Batch.quiet s s2 (e1 ++ e2).
Proof.
  intros (Hc1 & (k1 & Hk1 & Ho1) & Hu1 & Hl1)
         (Hc2 & (k2 & Hk2 & Ho2) & Hu2 & Hl2).
  split; [by rewrite closes_app, Hc1, Hc2|]. split.
  - exists (k1 + k2). split; [lia|].
    rewrite opens_app, Ho1, Ho2, Hk1. by rewrite seq_app.
  - split.
    + by rewrite uses_latest_app, Hu1, Hl1, Hu2.
    + by rewrite latest_app, Hl1, Hl2.
Qed.

Lemma attempt_quiet (w : Uploader.world) (r i : nat) (s : Batch.conns) :
  Batch.quiet s (Batch.attempt w r i s).1.2 (Batch.attempt w r i s).2.
Proof.
  unfold Batch.attempt, Batch.try_except, Batch.and_then, Batch.get_manager,
    Batch.call, Batch.ret, Batch.raise, Batch.DatabaseManager,
    Batch.set_manager.
  unfold Batch.quiet.
  destruct (Uploader.execute_ok w i), (Uploader.commit_ok w i),
    (i + 1 =? 3), (Uploader.connect_ok w i); simpl;
    (split; [reflexivity|]);
    (split; [first [exists 0; split; [lia | reflexivity]
                   | exists 1; split; [lia | reflexivity]]|]);
    rewrite ?Nat.eqb_refl; split; reflexivity.
Qed.

Lemma attempts_quiet (w : Uploader.world) (r : nat) (range : list nat)
    (s : Batch.conns) :
  Batch.quiet s (Batch.attempts w r range s).1.2
    (Batch.attempts w r range s).2.
Proof.
  revert s. induction range as [|i range IH]; intros s; simpl.
  - apply quiet_nil.
  - unfold Batch.and_then.
    pose proof (attempt_quiet w r i s) as Ha.
    destruct (Batch.attempt w r i s) as [[[stop|f] s1] e1]; simpl in *.
    + destruct stop.
      * simpl. rewrite app_nil_r. exact Ha.
      * specialize (IH s1).
        destruct (Batch.attempts w r range s1) as [[o s2] e2]. simpl in *.
        by apply (quiet_app s s1 s2).
    + exact Ha.
Qed.

Lemma save_quiet (w : Uploader.world) (r : nat) (s : Batch.conns) :
  Batch.quiet s (Batch.save_respondent_to_db w r s).1.2
    (Batch.save_respondent_to_db w r s).2.
Proof.
  unfold Batch.save_respondent_to_db, Batch.try_except.
  pose proof (attempts_quiet w r [0; 1; 2] s) as Ha.
  destruct (Batch.attempts w r [0; 1; 2] s) as [[[u|f] s1] e1]; simpl in *;
    [exact Ha|].
  by rewrite app_nil_r.
Qed.

Lemma save_posts (w : Uploader.world) (r : nat) (s : Batch.conns) :
  Batch.posts (Batch.save_respondent_to_db w r s).2 = [].
Proof.
  unfold Batch.save_respondent_to_db, Batch.attempts, Batch.attempt,
    Batch.try_except, Batch.and_then, Batch.get_manager,
    Batch.call, Batch.ret, Batch.raise, Batch.DatabaseManager,
    Batch.set_manager.
  simpl.
  destruct (Uploader.execute_ok w 0), (Uploader.commit_ok w 0),
    (Uploader.connect_ok w 0); simpl; try reflexivity;
    destruct (Uploader.execute_ok w 1), (Uploader.commit_ok w 1),
      (Uploader.connect_ok w 1); simpl; try reflexivity;
    destruct (Uploader.execute_ok w 2), (Uploader.commit_ok w 2);
    reflexivity.
Qed.

Lemma save_done (w : Uploader.world) (r : nat) (s : Batch.conns) :
  (Batch.save_respondent_to_db w r s).1.1
    = if Batch.save_ok w then Batch.Done tt
      else Batch.Fail
             (Batch.UploadFailure r
                (if negb (Uploader.attempt_ok w 0)
                    && negb (Uploader.connect_ok w 0)
                 then Uploader.ConnectFailure 0
                 else if negb (Uploader.attempt_ok w 1)
                         && negb (Uploader.connect_ok w 1)
                 then Uploader.ConnectFailure 1
                 else if Uploader.execute_ok w 2
                 then Uploader.CommitFailure 2
                 else Uploader.ExecuteFailure 2)).
Proof.
  unfold Batch.save_respondent_to_db, Batch.attempts, Batch.attempt,
    Batch.try_except, Batch.and_then, Batch.get_manager,
    Batch.call, Batch.ret, Batch.raise, Batch.DatabaseManager,
    Batch.set_manager, Batch.save_ok, Uploader.attempt_ok.
  simpl.
  destruct (Uploader.execute_ok w 0), (Uploader.commit_ok w 0),
    (Uploader.connect_ok w 0); simpl; try reflexivity;
    destruct (Uploader.execute_ok w 1), (Uploader.commit_ok w 1),
      (Uploader.connect_ok w 1); simpl; try reflexivity;
    destruct (Uploader.execute_ok w 2), (Uploader.commit_ok w 2);
    reflexivity.
Qed.

(** [insert_respondent] either raises before the request, with nothing
    called, or posts once and returns what the service answered. *)
Lemma batch_insert_respondent_run (w : Uploader.world)
    (d : Uploader.pydict) (r : nat) (s : Batch.conns) :
  if Uploader.payload_built w d then
    Batch.insert_respondent w d r s
      = (match Uploader.http w with
         | Uploader.HttpRaises =>
             Batch.Fail (Batch.UploadFailure r Uploader.HttpFailure)
         | Uploader.HttpStatus status_code usable =>
             Batch.Done (if (status_code =? 200)%Z then Some usable else None)
         end, s, [Batch.Post r])
  else
    exists f,
      Batch.insert_respondent w d r s
        = (Batch.Fail (Batch.UploadFailure r f), s, []).
Proof.
  unfold Uploader.payload_built, Batch.insert_respondent,
    Batch.and_then, Batch.try_except, Batch.lift.
  destruct (Uploader.new_requestid d (Uploader.now w)) as [f|requestid].
  { exists f. reflexivity. }
  cbn beta iota zeta delta [Batch.ret Batch.raise Batch.call].
  destruct (Uploader.payload _) as [f|data].
  { exists f. reflexivity. }
  destruct (Uploader.http w) as [|status_code usable]; [reflexivity|].
  by destruct (status_code =? 200)%Z.
Qed.

(** The body of the loop for one respondent: nothing is called when the
    respondent is not posted. *)
Lemma process_respondent_run (w : Batch.world) (r : nat) (s : Batch.conns) :
  if Batch.posted w r then
    Batch.process_respondent w r s
      = match Uploader.http (Batch.respondent w r) with
        | Uploader.HttpRaises =>
            (Batch.Fail (Batch.UploadFailure r Uploader.HttpFailure), s,
             [Batch.Post r])
        | Uploader.HttpStatus status_code usable =>
            if (status_code =? 200)%Z && usable then
              let '(o, s', evs) :=
                Batch.save_respondent_to_db (Batch.respondent w r) r s in
              (o, s', Batch.Post r :: evs)
            else
              (Batch.Fail (Batch.UploadFailure r Uploader.ResponseFailure), s,
               [Batch.Post r])
        end
  else
    exists f,
      Batch.process_respondent w r s = (Batch.Fail f, s, []) /\
      (f = Batch.RowFailure r \/ exists u, f = Batch.UploadFailure r u).
Proof.
  unfold Batch.posted, Batch.process_respondent.
  destruct (Batch.respondent_dict (Batch.row w r)) as [d|].
  2: { exists (Batch.RowFailure r). split; [reflexivity | by left]. }
  pose proof (batch_insert_respondent_run (Batch.respondent w r) d r s)
    as Hrun.
  unfold Batch.and_then.
  cbn beta iota zeta delta [Batch.ret].
  destruct (Uploader.payload_built (Batch.respondent w r) d).
  2: { destruct Hrun as (f & ->). eexists. split; [reflexivity|]. eauto. }
  rewrite Hrun.
  destruct (Uploader.http (Batch.respondent w r)) as [|status_code usable];
    [reflexivity|].
  destruct (status_code =? 200)%Z, usable; try reflexivity.
  simpl.
  by destruct (Batch.save_respondent_to_db (Batch.respondent w r) r s)
    as [[o s'] evs].
Qed.

Lemma process_respondent_summary (w : Batch.world) (r : nat)
    (s : Batch.conns) :
  Batch.is_done (Batch.process_respondent w r s).1.1 = Batch.handled w r /\
  (forall f, (Batch.process_respondent w r s).1.1 = Batch.Fail f ->
             f = Batch.RowFailure r \/ exists u, f = Batch.UploadFailure r u) /\
  exists evs,
    (Batch.process_respondent w r s).2
      = (if Batch.posted w r then [Batch.Post r] else []) ++ evs /\
    Batch.posts evs = [] /\
    Batch.quiet s (Batch.process_respondent w r s).1.2 evs.
Proof.
  pose proof (process_respondent_run w r s) as Hrun.
  unfold Batch.handled.
  destruct (Batch.posted w r); simpl.
  2: { destruct Hrun as (f & -> & Hf). simpl. split; [done|].
       split; [by intros f' [= <-]|].
       exists []. split; [done|]. split; [done | apply quiet_nil]. }
  rewrite Hrun. clear Hrun.
  destruct (Uploader.http (Batch.respondent w r)) as [|code usable]; simpl.
  { split; [done|]. split; [intros f [= <-]; right; eauto|].
    exists []. split; [done|]. split; [done | apply quiet_nil]. }
  destruct (code =? 200)%Z; simpl.
  2: { split; [by destruct usable|].
       split; [intros f [= <-]; right; eauto|].
       exists []. split; [done|]. split; [done | apply quiet_nil]. }
  destruct usable; simpl.
  2: { split; [done|]. split; [intros f [= <-]; right; eauto|].
       exists []. split; [done|]. split; [done | apply quiet_nil]. }
  pose proof (save_quiet (Batch.respondent w r) r s) as Hq.
  pose proof (save_posts (Batch.respondent w r) r s) as Hp.
  pose proof (save_done (Batch.respondent w r) r s) as Hd.
  destruct (Batch.save_respondent_to_db (Batch.respondent w r) r s)
    as [[o s'] evs].
  simpl in *. subst o. split; [|split].
  - by destruct (Batch.save_ok (Batch.respondent w r)).
  - destruct (Batch.save_ok (Batch.respondent w r)); [done|].
    intros f [= <-]. right. eauto.
  - exists evs. auto.
Qed.

Lemma quiet_loop_step (s s1 s2 : Batch.conns) (e1 e2 : list Batch.event) r b :
  Batch.quiet s s1 e1 -> Batch.quiet s1 s2 e2 ->
  Batch.quiet s s2 (((if b : bool then [Batch.Post r] else []) ++ e1) ++ e2).
Proof.
  intros H1 H2. apply (quiet_app s s1 s2); [|done].
  destruct b; [|done].
  destruct H1 as (Hc & Ho & Hu & Hl). by repeat split.
Qed.

(** The loop up to the first respondent that is not handled. *)
Lemma loop_stops (w : Batch.world) (len a k : nat) (s : Batch.conns) :
  a <= k < a + len ->
  (forall r, a <= r < k -> Batch.handled w r = true) ->
  Batch.handled w k = false ->
  (exists f,
     (Batch.respondents_loop w (seq a len) s).1.1 = Batch.Fail f /\
     (f = Batch.RowFailure k \/ exists u, f = Batch.UploadFailure k u)) /\
  Batch.posts (Batch.respondents_loop w (seq a len) s).2
    = seq a (k - a) ++ (if Batch.posted w k then [k] else []) /\
  Batch.quiet s (Batch.respondents_loop w (seq a len) s).1.2
    (Batch.respondents_loop w (seq a len) s).2.
Proof.
  revert a s. induction len as [|len IH]; intros a s Hk Hbefore Hfail; [lia|].
  simpl. unfold Batch.and_then.
  destruct (process_respondent_summary w a s)
    as (Hdone & Hkind & evs & Hevs & Hposts & Hquiet).
  destruct (Batch.process_respondent w a s) as [[o s1] e1]. simpl in *.
  subst e1. destruct (decide (a = k)) as [->|Hne].
  - rewrite Hfail in Hdone. destruct o as [u|f]; [done|].
    rewrite Nat.sub_diag. simpl. split; [eauto|].
    rewrite posts_app, Hposts, app_nil_r. split.
    + by destruct (Batch.posted w k).
    + pose proof (quiet_loop_step s s1 s1 evs [] k (Batch.posted w k)
                    Hquiet (quiet_nil s1)) as H.
      by rewrite app_nil_r in H.
  - rewrite (Hbefore a) in Hdone by lia.
    destruct o as [[]|f]; [|done].
    assert (Hrow : Batch.posted w a = true).
    { specialize (Hbefore a ltac:(lia)). unfold Batch.handled in Hbefore.
      by apply andb_true_iff in Hbefore as [? _]. }
    destruct (IH (S a) s1) as ((f & Hf & Hfk) & Hp & Hq);
      [lia | intros r Hr; apply Hbefore; lia | done |].
    destruct (Batch.respondents_loop w (seq (S a) len) s1) as [[o2 s2] e2].
    simpl in *. split; [eauto|]. split.
    + rewrite !posts_app, Hposts, Hp, Hrow. simpl.
      replace (k - a) with (S (k - S a)) by lia. reflexivity.
    + by apply (quiet_loop_step s s1 s2).
Qed.

(** The loop when every respondent is handled. *)
Lemma loop_completes (w : Batch.world) (len a : nat) (s : Batch.conns) :
  (forall r, a <= r < a + len -> Batch.handled w r = true) ->
  (Batch.respondents_loop w (seq a len) s).1.1 = Batch.Done tt /\
  Batch.posts (Batch.respondents_loop w (seq a len) s).2 = seq a len /\
  Batch.quiet s (Batch.respondents_loop w (seq a len) s).1.2
    (Batch.respondents_loop w (seq a len) s).2.
Proof.
  revert a s. induction len as [|len IH]; intros a s Hall; simpl.
  { split; [done|]. split; [done | apply quiet_nil]. }
  unfold Batch.and_then.
  destruct (process_respondent_summary w a s)
    as (Hdone & _ & evs & Hevs & Hposts & Hquiet).
  destruct (Batch.process_respondent w a s) as [[o s1] e1]. simpl in *.
  subst e1. rewrite (Hall a) in Hdone by lia.
  destruct o as [[]|f]; [|done].
  assert (Hrow : Batch.posted w a = true).
  { specialize (Hall a ltac:(lia)). unfold Batch.handled in Hall.
    by apply andb_true_iff in Hall as [? _]. }
  destruct (IH (S a) s1) as (Hd & Hp & Hq); [intros r Hr; apply Hall; lia|].
  destruct (Batch.respondents_loop w (seq (S a) len) s1) as [[o2 s2] e2].
  simpl in *. split; [done|]. split.
  - by rewrite !posts_app, Hposts, Hp, Hrow.
  - by apply (quiet_loop_step s s1 s2).
Qed.

(** The loop, whatever the respondents. *)
Lemma loop_quiet (w : Batch.world) (rs : list nat) (s : Batch.conns) :
  Batch.quiet s (Batch.respondents_loop w rs s).1.2
    (Batch.respondents_loop w rs s).2.
Proof.
  revert s. induction rs as [|r rs IH]; intros s; simpl; [apply quiet_nil|].
  unfold Batch.and_then.
  destruct (process_respondent_summary w r s)
    as (_ & _ & evs & Hevs & Hposts & Hquiet).
  destruct (Batch.process_respondent w r s) as [[o s1] e1]. simpl in *.
  subst e1. destruct o as [[]|f].
  - specialize (IH s1).
    destruct (Batch.respondents_loop w rs s1) as [[o2 s2] e2]. simpl in *.
    by apply (quiet_loop_step s s1 s2).
  - simpl.
    pose proof (quiet_loop_step s s1 s1 evs [] r (Batch.posted w r)
                  Hquiet (quiet_nil s1)) as H.
    by rewrite app_nil_r in H.
Qed.

Lemma disconnect_run (w : Batch.world) (c : nat) (s : Batch.conns) :
  Batch.disconnect w c s
    = (Batch.Done tt, s, [Batch.CloseCursor c; Batch.CloseConnection c]).
Proof.
  unfold Batch.disconnect, Batch.and_then, Batch.try_except, Batch.call,
    Batch.ret, Batch.raise.
  by destruct (Batch.cursor_close_ok w), (Batch.connection_close_ok w).
Qed.

(** [process_base_respondents] once the first connection is there. *)
Lemma process_base_respondents_eq (w : Batch.world) (n : nat) :
  Batch.first_connect_ok w = true ->
  let body := Batch.respondents_loop w (seq 0 n)
                {| Batch.opened := 1; Batch.manager := 0 |} in
  Batch.process_base_respondents w n Batch.no_connection
    = match body.1.1 with
      | Batch.Done _ =>
          (Batch.Done tt, body.1.2,
           Batch.Open 0 :: body.2
             ++ [Batch.CloseCursor 0; Batch.CloseConnection 0])
      | Batch.Fail f => (Batch.Fail f, body.1.2, Batch.Open 0 :: body.2)
      end.
Proof.
  intros Hc. unfold Batch.process_base_respondents, Batch.and_then,
    Batch.DatabaseManager, Batch.set_manager. rewrite Hc. simpl.
  destruct (Batch.respondents_loop w (seq 0 n) _) as [[[u|f] s1] e1]; simpl;
    [|done].
  by rewrite disconnect_run.
Qed.

(** The numbered run of one respondent is the run of [Uploader] on the
    dict of its row, with the numbers left out. *)
Lemma process_respondent_erase (w : Batch.world) (r : nat)
    (d : Uploader.pydict) (s : Batch.conns) :
  Batch.respondent_dict (Batch.row w r) = Some d ->
  concat (Batch.erase <$> (Batch.process_respondent w r s).2)
    = Uploader.trace_of
        (Uploader.process_respondent (Batch.respondent w r) d) /\
  match (Batch.process_respondent w r s).1.1 with
  | Batch.Done _ =>
      Uploader.result_of
        (Uploader.process_respondent (Batch.respondent w r) d)
        = Uploader.Done tt
  | Batch.Fail f =>
      exists u,
        f = Batch.UploadFailure r u /\
        Uploader.result_of
          (Uploader.process_respondent (Batch.respondent w r) d)
          = Uploader.Fail u
  end.
Proof.
  intros Hrow.
  unfold Batch.process_respondent, Uploader.result_of, Uploader.trace_of,
    Uploader.process_respondent.
  rewrite Hrow.
  unfold Batch.insert_respondent, Uploader.insert_respondent, Batch.lift,
    Uploader.lift, Batch.and_then, Uploader.and_then, Batch.try_except,
    Uploader.try_except.
  cbn beta iota zeta delta [Batch.ret].
  destruct (Uploader.new_requestid d (Uploader.now (Batch.respondent w r)))
    as [f|requestid].
  { simpl. eauto. }
  cbn beta iota zeta delta [Batch.ret Batch.raise Batch.call Uploader.ret
                            Uploader.raise Uploader.call].
  destruct (Uploader.payload _) as [f|data].
  { simpl. eauto. }
  unfold Batch.save_respondent_to_db, Batch.attempts, Batch.attempt,
    Batch.and_then, Batch.try_except, Batch.call, Batch.ret, Batch.raise,
    Batch.get_manager, Batch.set_manager, Batch.DatabaseManager,
    Uploader.save_respondent_to_db,
    Uploader.attempts, Uploader.attempt, Uploader.try_except,
    Uploader.and_then, Uploader.call, Uploader.ret, Uploader.raise.
  simpl.
  destruct (Uploader.http (Batch.respondent w r)) as [|code usable]; simpl;
    [eauto|].
  destruct (code =? 200)%Z; simpl; [|eauto].
  destruct usable; simpl; [|eauto].
  destruct (Uploader.execute_ok (Batch.respondent w r) 0),
    (Uploader.commit_ok (Batch.respondent w r) 0),
    (Uploader.connect_ok (Batch.respondent w r) 0); simpl; eauto;
    destruct (Uploader.execute_ok (Batch.respondent w r) 1),
      (Uploader.commit_ok (Batch.respondent w r) 1),
      (Uploader.connect_ok (Batch.respondent w r) 1); simpl; eauto;
    destruct (Uploader.execute_ok (Batch.respondent w r) 2),
      (Uploader.commit_ok (Batch.respondent w r) 2); simpl; eauto.
Qed.

(** ** What a batch does *)

(** X13: once the first connection is there, the batch stops at the first
    respondent [k] that is not handled: it ends with an exception of [k],
    the respondents before [k] were posted once each and in order, [k]
    itself when its row had every column and its payload was built, no
    later respondent was posted, and nothing is closed. *)
Theorem batch_stops_at_first_failure (w : Batch.world) (n k : nat) :
  Batch.first_connect_ok w = true ->
  k < n ->
  (forall r, r < k -> Batch.handled w r = true) ->
  Batch.handled w k = false ->
  (exists f,
     Batch.result_of (Batch.process_base_respondents w n) = Batch.Fail f /\
     (f = Batch.RowFailure k \/ exists u, f = Batch.UploadFailure k u)) /\
  Batch.posts (Batch.calls_of (Batch.process_base_respondents w n))
    = seq 0 k ++ (if Batch.posted w k then [k] else []) /\
  Batch.closes (Batch.calls_of (Batch.process_base_respondents w n)) = [].
Proof.
  intros Hc Hk Hbefore Hfail.
  unfold Batch.result_of, Batch.calls_of.
  rewrite (process_base_respondents_eq w n Hc). simpl.
  destruct (loop_stops w n 0 k {| Batch.opened := 1; Batch.manager := 0 |})
    as ((f & Hf & Hkind) & Hp & Hq);
    [lia | intros r Hr; apply Hbefore; lia | done |].
  rewrite Hf. simpl. split; [eauto|].
  rewrite Nat.sub_0_r in Hp. split; [done|].
  by destruct Hq as (-> & _).
Qed.

Lemma batch_stops_at_first_failure_witness :
  (exists f,
     Batch.result_of (Batch.process_base_respondents Batch.row_without_age 3)
       = Batch.Fail f /\
     (f = Batch.RowFailure 1 \/ exists u, f = Batch.UploadFailure 1 u)) /\
  Batch.posts
    (Batch.calls_of (Batch.process_base_respondents Batch.row_without_age 3))
    = [0] ++ [] /\
  Batch.closes
    (Batch.calls_of (Batch.process_base_respondents Batch.row_without_age 3))
    = [].
Proof.
  apply (batch_stops_at_first_failure Batch.row_without_age 3 1).
  - reflexivity.
  - lia.
  - intros r Hr. destruct r as [|r]; [reflexivity | lia].
  - reflexivity.
Defined.

(** A row without an age ends the batch before its respondent is
    posted. *)
Example row_without_age_run :
  Batch.process_base_respondents Batch.row_without_age 3 Batch.no_connection
    = (Batch.Fail
         (Batch.UploadFailure 1 (Uploader.DictFailure AttributeError)),
       {| Batch.opened := 1; Batch.manager := 0 |},
       [Batch.Open 0; Batch.Post 0; Batch.Execute 0 0; Batch.Commit 0 0]).
Proof. vm_compute. reflexivity. Qed.

(** X14: when the first connection is there and every respondent is
    handled, the batch ends without an exception, every respondent was
    posted once and in order, and the last two calls close the cursor and
    the connection of the first [DatabaseManager], whether or not these
    two calls raise. *)
Theorem batch_completes (w : Batch.world) (n : nat) :
  Batch.first_connect_ok w = true ->
  (forall r, r < n -> Batch.handled w r = true) ->
  Batch.result_of (Batch.process_base_respondents w n) = Batch.Done tt /\
  Batch.posts (Batch.calls_of (Batch.process_base_respondents w n))
    = seq 0 n /\
  exists body,
    Batch.calls_of (Batch.process_base_respondents w n)
      = body ++ [Batch.CloseCursor 0; Batch.CloseConnection 0] /\
    Batch.closes body = [].
Proof.
  intros Hc Hall.
  unfold Batch.result_of, Batch.calls_of.
  rewrite (process_base_respondents_eq w n Hc). simpl.
  destruct (loop_completes w n 0 {| Batch.opened := 1; Batch.manager := 0 |})
    as (Hd & Hp & Hq); [intros r Hr; apply Hall; lia|].
  rewrite Hd. simpl. split; [done|]. split.
  - by rewrite posts_app, Hp, app_nil_r.
  - eexists (Batch.Open 0 :: _). split; [reflexivity|]. simpl.
    by destruct Hq as (-> & _).
Qed.

Lemma batch_completes_witness :
  Batch.result_of (Batch.process_base_respondents Batch.smooth 2)
    = Batch.Done tt /\
  Batch.posts (Batch.calls_of (Batch.process_base_respondents Batch.smooth 2))
    = seq 0 2 /\
  exists body,
    Batch.calls_of (Batch.process_base_respondents Batch.smooth 2)
      = body ++ [Batch.CloseCursor 0; Batch.CloseConnection 0] /\
    Batch.closes body = [].
Proof.
  apply (batch_completes Batch.smooth 2); [reflexivity|].
  intros r Hr. destruct r as [|[|r]]; [reflexivity.. | lia].
Defined.

Lemma batch_calls (w : Batch.world) (n : nat) :
  Batch.calls_of (Batch.process_base_respondents w n) = [Batch.OpenFailed] \/
  exists s' body tail,
    Batch.calls_of (Batch.process_base_respondents w n)
      = Batch.Open 0 :: body ++ tail /\
    Batch.quiet {| Batch.opened := 1; Batch.manager := 0 |} s' body /\
    (tail = [] \/ tail = [Batch.CloseCursor 0; Batch.CloseConnection 0]).
Proof.
  destruct (Batch.first_connect_ok w) eqn:Hc.
  - right. unfold Batch.calls_of.
    rewrite (process_base_respondents_eq w n Hc). simpl.
    pose proof (loop_quiet w (seq 0 n)
                  {| Batch.opened := 1; Batch.manager := 0 |}) as Hq.
    destruct (Batch.respondents_loop w (seq 0 n) _) as [[[u|f] s1] e1];
      simpl in *.
    + exists s1, e1, [Batch.CloseCursor 0; Batch.CloseConnection 0]. auto.
    + exists s1, e1, []. rewrite app_nil_r. auto.
  - left. unfold Batch.calls_of, Batch.process_base_respondents,
      Batch.and_then, Batch.DatabaseManager. by rewrite Hc.
Qed.

(** X15: a close is only ever called on the first connection: a connection
    opened by a reconnection of [save_respondent_to_db] is never
    closed. *)
Theorem reconnections_never_closed (w : Batch.world) (n c : nat) :
  c ∈ Batch.opens (Batch.calls_of (Batch.process_base_respondents w n)) ->
  c <> 0 ->
  c ∉ Batch.closes (Batch.calls_of (Batch.process_base_respondents w n)).
Proof.
  intros Hopen Hc Hclose.
  destruct (batch_calls w n) as [H|(s' & body & tail & H & Hq & Htail)];
    rewrite H in Hclose; simpl in Hclose.
  - inversion Hclose.
  - destruct Hq as (Hcl & _). rewrite closes_app, Hcl in Hclose.
    simpl in Hclose. destruct Htail as [->| ->]; simpl in Hclose.
    + inversion Hclose.
    + apply elem_of_cons in Hclose as [?|Hclose]; [done|].
      apply list_elem_of_singleton in Hclose. done.
Qed.

Lemma reconnections_never_closed_witness :
  1 ∉ Batch.closes
        (Batch.calls_of (Batch.process_base_respondents Batch.reconnects 2)).
Proof.
  apply (reconnections_never_closed Batch.reconnects 2 1).
  - vm_compute. apply elem_of_cons. right. apply elem_of_cons. by left.
  - discriminate.
Defined.

(** X16: every insert and every commit of a batch is made on the
    connection opened last before it: after a reconnection no call goes to
    an older connection, for the respondent at hand or a later one. *)
Theorem uploads_use_latest_connection (w : Batch.world) (n : nat) :
  Batch.uses_latest None
    (Batch.calls_of (Batch.process_base_respondents w n)) = true.
Proof.
  destruct (batch_calls w n) as [->|(s' & body & tail & -> & Hq & Htail)];
    [done|].
  simpl. rewrite uses_latest_app.
  destruct Hq as (_ & _ & Hu & _). simpl in Hu. rewrite Hu. simpl.
  by destruct Htail as [->| ->].
Qed.

(** X17: a respondent whose payload is built and whom the service answers
    with a status other than 200 is posted and ends the batch:
    [insert_respondent] returns [None], reading the response raises,
    nothing is saved for the respondent and no later respondent is
    posted. *)
Theorem rejected_respondent_ends_batch
    (w : Batch.world) (n k : nat) (status_code : Z) (usable : bool) :
  Batch.first_connect_ok w = true ->
  k < n ->
  (forall r, r < k -> Batch.handled w r = true) ->
  Batch.posted w k = true ->
  Uploader.http (Batch.respondent w k)
    = Uploader.HttpStatus status_code usable ->
  status_code <> 200%Z ->
  Batch.result_of (Batch.process_base_respondents w n)
    = Batch.Fail (Batch.UploadFailure k Uploader.ResponseFailure) /\
  Batch.posts (Batch.calls_of (Batch.process_base_respondents w n))
    = seq 0 (S k) /\
  (forall c, Batch.Execute c k
             ∉ Batch.calls_of (Batch.process_base_respondents w n)).
Proof.
  intros Hc Hk Hbefore Hrow Hhttp Hcode.
  assert (Hcodeb : (status_code =? 200)%Z = false) by (by apply Z.eqb_neq).
  unfold Batch.result_of, Batch.calls_of.
  rewrite (process_base_respondents_eq w n Hc). simpl.
  assert (Hloop : exists s1 e1,
    Batch.respondents_loop w (seq 0 n)
      {| Batch.opened := 1; Batch.manager := 0 |}
      = (Batch.Fail (Batch.UploadFailure k Uploader.ResponseFailure), s1,
         e1 ++ [Batch.Post k]) /\
    Batch.posts e1 = seq 0 k /\
    forall c, Batch.Execute c k ∉ e1).
  { replace n with (k + S (n - S k)) by lia.
    generalize (n - S k). intros m.
    generalize {| Batch.opened := 1; Batch.manager := 0 |}.
    assert (Hgen : forall len a s,
      a + len = k ->
      exists s1 e1,
        Batch.respondents_loop w (seq a (len + S m)) s
          = (Batch.Fail (Batch.UploadFailure k Uploader.ResponseFailure), s1,
             e1 ++ [Batch.Post k]) /\
        Batch.posts e1 = seq a len /\
        forall c, Batch.Execute c k ∉ e1).
    { induction len as [|len IH]; intros a s Ha.
      - assert (a = k) as -> by lia. clear Ha. simpl. exists s, [].
        unfold Batch.and_then at 1.
        pose proof (process_respondent_run w k s) as Hrun.
        rewrite Hrow in Hrun. rewrite Hrun, Hhttp, Hcodeb. simpl.
        split; [done|]. split; [done|intros c Hin; inversion Hin].
      - simpl. unfold Batch.and_then at 1.
        destruct (process_respondent_summary w a s)
          as (Hdone & _ & evs & Hevs & Hposts & Hquiet).
        assert (Hra : Batch.posted w a = true).
        { specialize (Hbefore a ltac:(lia)). unfold Batch.handled in Hbefore.
          by apply andb_true_iff in Hbefore as [? _]. }
        assert (Hnok : forall c, Batch.Execute c k
                                 ∉ (Batch.process_respondent w a s).2).
        { intros c.
          pose proof (process_respondent_run w a s) as Hrun.
          rewrite Hra in Hrun. rewrite Hrun.
          unfold Batch.save_respondent_to_db, Batch.attempts, Batch.attempt,
            Batch.and_then, Batch.try_except, Batch.call, Batch.ret,
            Batch.raise, Batch.get_manager, Batch.set_manager,
            Batch.DatabaseManager.
          assert (Hak : a <> k) by lia.
          repeat (simpl; match goal with
                         | |- context [if ?b then _ else _] => destruct b
                         | |- context [match ?x with
                                       | Uploader.HttpRaises => _
                                       | Uploader.HttpStatus _ _ => _
                                       end] => destruct x
                         end);
            simpl; intros Hin;
            repeat (apply elem_of_cons in Hin as [Hin|Hin];
                    [congruence|]);
            inversion Hin. }
        rewrite (Hbefore a) in Hdone by lia.
        destruct (Batch.process_respondent w a s) as [[o s1] e1].
        simpl in *. destruct o as [[]|f]; [|done].
        destruct (IH (S a) s1) as (s2 & e2 & -> & Hp2 & Hne2); [lia|].
        exists s2, (e1 ++ e2). rewrite app_assoc. split; [done|]. split.
        + subst e1. by rewrite !posts_app, Hposts, Hp2, Hra.
        + intros c Hin. apply elem_of_app in Hin as [Hin|Hin].
          * by apply (Hnok c).
          * by apply (Hne2 c). }
    intros s. destruct (Hgen k 0 s) as (s1 & e1 & H1 & H2 & H3); [lia|].
    eauto. }
  destruct Hloop as (s1 & e1 & -> & Hp & Hne). simpl.
  split; [done|]. split.
  - rewrite posts_app, Hp. symmetry. apply (seq_S k 0).
  - intros c Hin. apply elem_of_cons in Hin as [?|Hin]; [done|].
    apply elem_of_app in Hin as [Hin|Hin]; [by apply (Hne c)|].
    apply list_elem_of_singleton in Hin. done.
Qed.

Lemma rejected_respondent_ends_batch_witness :
  Batch.result_of (Batch.process_base_respondents Batch.rejects_second 3)
    = Batch.Fail (Batch.UploadFailure 1 Uploader.ResponseFailure) /\
  Batch.posts
    (Batch.calls_of (Batch.process_base_respondents Batch.rejects_second 3))
    = seq 0 2 /\
  (forall c,
     Batch.Execute c 1
     ∉ Batch.calls_of
         (Batch.process_base_respondents Batch.rejects_second 3)).
Proof.
  apply (rejected_respondent_ends_batch Batch.rejects_second 3 1 400 true).
  - reflexivity.
  - lia.
  - intros r Hr. destruct r as [|r]; [reflexivity | lia].
  - reflexivity.
  - reflexivity.
  - discriminate.
Defined.

(** X18: [DatabaseManager.disconnect] calls both closes and never raises,
    whatever the two calls do; [OracleTableExtractor.__del__] does not
    close the connection when closing the cursor raises, and raises
    itself. *)
Theorem disconnect_closes_both (w : Batch.world) (c : nat) (s : Batch.conns) :
  Batch.disconnect w c s
    = (Batch.Done tt, s, [Batch.CloseCursor c; Batch.CloseConnection c]) /\
  (Batch.cursor_close_ok w = false ->
   Batch.del_extractor w c s
     = (Batch.Fail Batch.CloseFailure, s, [Batch.CloseCursor c])).
Proof.
  split; [apply disconnect_run|].
  intros H. unfold Batch.del_extractor, Batch.and_then, Batch.try_except,
    Batch.call, Batch.ret, Batch.raise. by rewrite H.
Qed.

Lemma disconnect_closes_both_witness :
  Batch.disconnect Batch.smooth 0 Batch.no_connection
    = (Batch.Done tt, Batch.no_connection,
       [Batch.CloseCursor 0; Batch.CloseConnection 0]) /\
  Batch.del_extractor Batch.smooth 0 Batch.no_connection
    = (Batch.Fail Batch.CloseFailure, Batch.no_connection,
       [Batch.CloseCursor 0]).
Proof.
  destruct (disconnect_closes_both Batch.smooth 0 Batch.no_connection)
    as [H1 H2].
  split; [exact H1 | apply H2; reflexivity].
Defined.

(** * The statement of [fetch_column_respondent_status] *)

Lemma append_cons (x : Ascii.ascii) (a s : string) :
  String x a +:+ s = String x (a +:+ s).
Proof. reflexivity. Qed.

Lemma append_nil_l (s : string) : "" +:+ s = s.
Proof. reflexivity. Qed.

Lemma append_nil_r (s : string) : s +:+ "" = s.
Proof.
  induction s as [|x s IH]; [done|]. by rewrite append_cons, IH.
Qed.

Lemma prefix_append (k s : string) : String.prefix k (k +:+ s) = true.
Proof.
  induction k as [|a k IH]; [by destruct s|].
  rewrite append_cons. simpl. by destruct (Ascii.ascii_dec a a).
Qed.

Lemma append_assoc (a b c : string) : (a +:+ b) +:+ c = a +:+ (b +:+ c).
Proof.
  induction a as [|x a IH]; [done|]. by rewrite !append_cons, IH.
Qed.

Lemma is_substring_prefix (k s : string) :
  String.prefix k s = true -> is_substring k s = true.
Proof. intros H. destruct s; simpl in *; by rewrite H. Qed.

Lemma is_substring_append (k a b : string) :
  is_substring k (a +:+ k +:+ b) = true.
Proof.
  induction a as [|x a IH].
  - rewrite append_nil_l. apply is_substring_prefix, prefix_append.
  - rewrite append_cons. simpl. rewrite IH. apply orb_true_r.
Qed.

Lemma concat_holds (sep x : string) (l : list string) :
  x ∈ l -> exists a b, String.concat sep l = a +:+ x +:+ b.
Proof.
  induction l as [|y l IH]; intros Hx; [inversion Hx|].
  apply elem_of_cons in Hx as [->|Hx].
  - destruct l as [|z l].
    + exists "", "". simpl. by rewrite append_nil_l, append_nil_r.
    + exists "", (sep +:+ String.concat sep (z :: l)). reflexivity.
  - destruct (IH Hx) as (a & b & Hab). destruct l as [|z l]; [inversion Hx|].
    exists (y +:+ sep +:+ a), b.
    change (String.concat sep (y :: z :: l))
      with (y +:+ sep +:+ String.concat sep (z :: l)).
    by rewrite Hab, !append_assoc.
Qed.

Lemma query_holds_clause table_name column_name items item :
  item ∈ items ->
  is_substring (Query.clause item)
    (Query.query table_name column_name (Some items)) = true.
Proof.
  intros Hin. destruct items as [|c cs]; [inversion Hin|].
  unfold Query.query.
  destruct (concat_holds " AND " (Query.clause item)
              (map Query.clause (c :: cs))) as (a & b & ->).
  { apply list_elem_of_In, in_map. by apply list_elem_of_In. }
  replace (("SELECT " +:+ column_name +:+ " FROM " +:+ table_name)
             +:+ " WHERE " +:+ a +:+ Query.clause item +:+ b)
    with ((("SELECT " +:+ column_name +:+ " FROM " +:+ table_name)
             +:+ " WHERE " +:+ a) +:+ Query.clause item +:+ b)
    by (by rewrite !append_assoc).
  apply is_substring_append.
Qed.

(** X19: the bind variables passed to [cursor.execute] are the conditions
    whose value does not start with ["SQL:"], in their order, and the query
    holds the placeholder clause [col = :col] of each of them; a condition
    whose value starts with ["SQL:"] is not bound, and the query holds its
    column followed by the text after the prefix, as written. *)
Theorem statement_binds_match_placeholders
    table_name column_name items q binds :
  Query.statement table_name column_name (Some items) = Ok (q, binds) ->
  binds = filter (fun item => Query.is_sql item.2 = false) items /\
  (forall col v, (col, v) ∈ binds ->
     is_substring (col +:+ " = :" +:+ col) q = true) /\
  (forall col rest, (col, Query.Text ("SQL:" +:+ rest)) ∈ items ->
     ((col, Query.Text ("SQL:" +:+ rest)) ∉ binds) /\
     is_substring (col +:+ " " +:+ rest) q = true).
Proof.
  unfold Query.statement. intros [= <- <-]. split; [done|]. split.
  - intros col v Hin. apply list_elem_of_filter in Hin as [Hsql Hin].
    pose proof (query_holds_clause table_name column_name _ _ Hin) as H.
    unfold Query.clause in H. simpl in *. by rewrite Hsql in H.
  - intros col rest Hin.
    assert (Hsql : Query.is_sql (Query.Text ("SQL:" +:+ rest)) = true)
      by apply (prefix_append "SQL:" rest).
    split.
    + intros Hb. apply list_elem_of_filter in Hb as [Hb _].
      change (Query.is_sql (Query.Text ("SQL:" +:+ rest)) = false) in Hb.
      congruence.
    + pose proof (query_holds_clause table_name column_name _ _ Hin) as H.
      unfold Query.clause in H.
      change (Query.is_sql (col, Query.Text ("SQL:" +:+ rest)).2)
        with (Query.is_sql (Query.Text ("SQL:" +:+ rest))) in H.
      by rewrite Hsql in H.
Qed.

Lemma statement_binds_match_placeholders_witness :
  [("SURVEYID", Query.Text "1596625"); ("STATUSCODE", Query.Number 200)]
    = filter (fun item => Query.is_sql item.2 = false)
        Query.sample_conditions /\
  (forall col v,
     (col, v) ∈ [("SURVEYID", Query.Text "1596625");
                 ("STATUSCODE", Query.Number 200)] ->
     is_substring (col +:+ " = :" +:+ col)
       (Query.query "sx_respondent_log" "EXTERNALKEY"
          (Some Query.sample_conditions))
       = true) /\
  (forall col rest,
     (col, Query.Text ("SQL:" +:+ rest)) ∈ Query.sample_conditions ->
     ((col, Query.Text ("SQL:" +:+ rest))
        ∉ [("SURVEYID", Query.Text "1596625");
           ("STATUSCODE", Query.Number 200)]) /\
     is_substring (col +:+ " " +:+ rest)
       (Query.query "sx_respondent_log" "EXTERNALKEY"
          (Some Query.sample_conditions))
       = true).
Proof.
  apply (statement_binds_match_placeholders "sx_respondent_log" "EXTERNALKEY"
           Query.sample_conditions).
  reflexivity.
Defined.

(** The query of the sample conditions. *)
Example sample_query :
  Query.query "sx_respondent_log" "EXTERNALKEY"
    (Some Query.sample_conditions)
    = "SELECT EXTERNALKEY FROM sx_respondent_log"
      +:+ " WHERE SURVEYID = :SURVEYID"
      +:+ " AND SENDT > SYSDATE - 7"
      +:+ " AND STATUSCODE = :STATUSCODE".
Proof. reflexivity. Qed.

(** Without conditions, the default of the parameter, the query is built
    and not run. *)
Example statement_without_conditions :
  Query.query "sx_respondent_log" "EXTERNALKEY" None
    = "SELECT EXTERNALKEY FROM sx_respondent_log" /\
  Query.statement "sx_respondent_log" "EXTERNALKEY" None
    = Raise AttributeError.
Proof. split; reflexivity. Qed.

(** * The payload of [insert_respondent] *)

Lemma count_app (c : N) (a b : Payload.pystr) :
  Payload.count c (a ++ b) = Payload.count c a + Payload.count c b.
Proof.
  induction a as [|x a IH]; simpl; [done|]. rewrite IH. lia.
Qed.

Lemma utf8_count (c c' : N) (bytes : list N) :
  (c' < 128)%N ->
  Payload.utf8 c = inr bytes ->
  Payload.count c' bytes = Payload.count c' [c].
Proof.
  intros Hc'. unfold Payload.utf8.
  destruct (N.ltb_spec c 128); [by intros [= <-]|].
  assert (Hne : (c =? c')%N = false) by (apply N.eqb_neq; lia).
  assert (Hhigh : forall h x : N, (128 <= h)%N -> ((h + x =? c')%N = false)).
  { intros h x Hh. apply N.eqb_neq. lia. }
  simpl. rewrite Hne.
  destruct (N.ltb_spec c 2048).
  { intros [= <-]. simpl. by rewrite !Hhigh by lia. }
  destruct (N.ltb_spec c 65536).
  { destruct (_ && _); [done|]. intros [= <-]. simpl.
    by rewrite !Hhigh by lia. }
  intros [= <-]. simpl. by rewrite !Hhigh by lia.
Qed.

Lemma utf8_bound (c : N) (bytes : list N) :
  (c < 1114112)%N ->
  Payload.utf8 c = inr bytes ->
  Forall (fun b => (b < 256)%N) bytes.
Proof.
  intros Hc. unfold Payload.utf8.
  assert (Hmod : forall x : N, (128 + x mod 64 < 256)%N).
  { intros x. pose proof (N.mod_lt x 64). lia. }
  destruct (N.ltb_spec c 128).
  { intros [= <-]. repeat constructor. lia. }
  destruct (N.ltb_spec c 2048).
  { intros [= <-]. repeat constructor; [|apply Hmod].
    assert (c / 64 < 32)%N by (apply N.Div0.div_lt_upper_bound; lia). lia. }
  destruct (N.ltb_spec c 65536).
  { destruct (_ && _); [done|]. intros [= <-].
    repeat constructor; [|apply Hmod..].
    assert (c / 4096 < 16)%N by (apply N.Div0.div_lt_upper_bound; lia). lia. }
  intros [= <-]. repeat constructor; [|apply Hmod..].
  assert (c / 262144 < 16)%N by (apply N.Div0.div_lt_upper_bound; lia). lia.
Qed.

Lemma recode_count (c' : N) (v v' : Payload.pystr) :
  (c' < 128)%N ->
  Payload.recode v = inr v' ->
  Payload.count c' v' = Payload.count c' v.
Proof.
  intros Hc'. revert v'. induction v as [|c v IH]; intros v'; simpl.
  { by intros [= <-]. }
  destruct (Payload.utf8 c) as [e|bytes] eqn:Eu; [done|].
  destruct (Payload.recode v) as [e|rest]; [done|].
  intros [= <-]. rewrite count_app, (IH rest eq_refl).
  rewrite (utf8_count c c' bytes Hc' Eu). simpl. lia.
Qed.

Lemma recode_bound (v v' : Payload.pystr) :
  Forall (fun c => (c < 1114112)%N) v ->
  Payload.recode v = inr v' ->
  Forall (fun b => (b < 256)%N) v'.
Proof.
  intros Hv. revert v'. induction Hv as [|c v Hc _ IH]; intros v'; simpl.
  { intros [= <-]. constructor. }
  destruct (Payload.utf8 c) as [e|bytes] eqn:Eu; [done|].
  destruct (Payload.recode v) as [e|rest]; [done|].
  intros [= <-]. apply Forall_app. split; [|by apply IH].
  by apply (utf8_bound c).
Qed.

Lemma fields_length (d : Payload.dict) (l : list Payload.pystr) :
  Payload.fields d = inr l -> length l = length d.
Proof.
  revert l. induction d as [|[k v] d IH]; intros l; simpl.
  { by intros [= <-]. }
  destruct (Payload.recode v) as [e|v']; [done|].
  destruct (Payload.fields d) as [e|rest]; [done|].
  intros [= <-]. simpl. by rewrite (IH rest).
Qed.

Lemma join_cons (sep x y : Payload.pystr) (l : list Payload.pystr) :
  Payload.join sep (x :: y :: l) = x ++ sep ++ Payload.join sep (y :: l).
Proof. reflexivity. Qed.

Lemma count_single (c x : N) :
  Payload.count c [x] = if (c =? x)%N then 1 else 0.
Proof.
  cbn [Payload.count]. rewrite (N.eqb_sym x c). destruct (c =? x)%N; lia.
Qed.

(** The occurrences of an ASCII character in the joined fields. *)
Lemma fields_count (c : N) (d : Payload.dict) (l : list Payload.pystr) :
  (c < 128)%N ->
  Payload.fields d = inr l ->
  Payload.count c (Payload.join (Payload.literal "&") l)
    = Payload.count_items c d
      + (if (c =? 61)%N then length d else 0)
      + (if (c =? 38)%N then length d - 1 else 0).
Proof.
  intros Hc. revert l.
  induction d as [|[k v] d IH]; intros l; cbn [Payload.fields].
  { intros [= <-]. simpl. by destruct (c =? 61)%N, (c =? 38)%N. }
  destruct (Payload.recode v) as [e|v'] eqn:Ev; [done|].
  destruct (Payload.fields d) as [e|rest] eqn:Ef; [done|].
  intros Hl. destruct l as [|field l]; [done|]. injection Hl as Hfd <-.
  specialize (IH rest eq_refl).
  assert (Hfd' : field = k ++ [61%N] ++ v') by (symmetry; exact Hfd).
  assert (Hfield : Payload.count c field
                   = Payload.count c k + Payload.count c v
                     + (if (c =? 61)%N then 1 else 0)).
  { rewrite Hfd', !count_app, (recode_count c v v' Hc Ev), count_single.
    lia. }
  clear Hfd Hfd'.
  destruct rest as [|y rest].
  - destruct d as [|[k2 v2] d]; [|simpl in Ef;
      destruct (Payload.recode v2); [done|];
      destruct (Payload.fields d); done].
    cbn [Payload.join Payload.count_items length]. rewrite Hfield.
    destruct (c =? 61)%N, (c =? 38)%N; lia.
  - rewrite join_cons, !count_app, Hfield, IH.
    pose proof (fields_length _ _ Ef) as Hlen. simpl in Hlen.
    change (Payload.literal "&") with [38%N]. rewrite count_single.
    cbn [Payload.count_items length] in *.
    destruct (c =? 61)%N, (c =? 38)%N; lia.
Qed.

Lemma fields_bound (d : Payload.dict) (l : list Payload.pystr) :
  Payload.items_pass (fun c => (c < 256)%N) (fun c => (c < 1114112)%N) d ->
  Payload.fields d = inr l ->
  Forall (fun b => (b < 256)%N) (Payload.join (Payload.literal "&") l).
Proof.
  intros Hd. revert l.
  induction Hd as [|[k v] d [Hk Hv] _ IH]; intros l; simpl.
  { intros [= <-]. constructor. }
  destruct (Payload.recode v) as [e|v'] eqn:Ev; [done|].
  destruct (Payload.fields d) as [e|rest] eqn:Ef; [done|].
  intros [= <-]. specialize (IH rest eq_refl).
  assert (Hfield : Forall (fun b => (b < 256)%N)
                     (k ++ Payload.literal "=" ++ v')).
  { apply Forall_app. split; [done|]. apply Forall_app. split.
    - repeat constructor.
    - by apply (recode_bound v). }
  destruct rest as [|y rest]; [done|].
  rewrite join_cons. apply Forall_app. split; [done|].
  apply Forall_app. split; [repeat constructor | done].
Qed.

Lemma dict_get_set_eq (k v : Payload.pystr) (d : Payload.dict) :
  Payload.dict_get k (Payload.dict_set k v d) = Some v.
Proof.
  induction d as [|[k' v'] d IH]; simpl.
  - by rewrite decide_True.
  - destruct (decide (k' = k)) as [->|Hne]; simpl.
    + by rewrite decide_True.
    + by rewrite decide_False.
Qed.

Lemma dict_get_set_ne (k k2 v : Payload.pystr) (d : Payload.dict) :
  k <> k2 ->
  Payload.dict_get k2 (Payload.dict_set k v d) = Payload.dict_get k2 d.
Proof.
  intros Hne. induction d as [|[k' v'] d IH]; simpl.
  - by rewrite decide_False.
  - destruct (decide (k' = k)) as [->|Hne']; simpl.
    + by rewrite !decide_False.
    + destruct (decide (k' = k2)); [done | exact IH].
Qed.

Lemma dict_set_items (P Q : N -> Prop) (k v : Payload.pystr)
    (d : Payload.dict) :
  Forall P k -> Forall Q v ->
  Payload.items_pass P Q d ->
  Payload.items_pass P Q (Payload.dict_set k v d).
Proof.
  intros Hk Hv Hd. induction Hd as [|[k' v'] d [Hk' Hv'] Hd' IH]; simpl.
  - by repeat constructor.
  - unfold Payload.items_pass in *. case_decide; constructor; auto.
Qed.

Lemma dict_get_items (P Q : N -> Prop) (k v : Payload.pystr)
    (d : Payload.dict) :
  Payload.items_pass P Q d ->
  Payload.dict_get k d = Some v -> Forall Q v.
Proof.
  intros Hd. induction Hd as [|[k' v'] d [Hk' Hv'] _ IH]; simpl; [done|].
  case_decide; [by intros [= <-] | exact IH].
Qed.

(** X20: the payload can be sent as Latin-1: when the keys of the dict are
    Latin-1 and the values and the time stamp hold code points of Unicode,
    every code point of the payload is below 256, whatever the values
    hold. *)
Theorem payload_is_latin1 respondent_dict now d payload :
  Payload.items_pass (fun c => (c < 256)%N) (fun c => (c < 1114112)%N)
    respondent_dict ->
  Forall (fun c => (c < 1114112)%N) now ->
  Payload.insert_respondent respondent_dict now = inr (d, payload) ->
  Forall (fun b => (b < 256)%N) payload.
Proof.
  intros Hd Hnow. unfold Payload.insert_respondent.
  destruct (Payload.dict_get _ respondent_dict) as [accounti|] eqn:Ea;
    [|done].
  destruct (Payload.fields _) as [e|l] eqn:Ef; [done|].
  intros [= <- <-]. refine (fields_bound _ _ _ Ef).
  apply dict_set_items; [repeat constructor; lia | | done].
  apply Forall_app. split; [|done].
  by apply (dict_get_items _ _ _ _ _ Hd Ea).
Qed.

Lemma sample_dict_passes :
  Payload.items_pass (fun c => (c < 256)%N) (fun c => (c < 1114112)%N)
    Payload.sample_dict.
Proof.
  unfold Payload.items_pass.
  repeat (constructor; [split; repeat (constructor; [reflexivity|]);
                        constructor|]).
  constructor.
Defined.

Lemma payload_is_latin1_witness :
  exists d payload,
    Payload.insert_respondent Payload.sample_dict Payload.sample_now
      = inr (d, payload) /\
    Forall (fun b => (b < 256)%N) payload.
Proof.
  eexists _, _. split; [vm_compute; reflexivity|].
  apply (payload_is_latin1 Payload.sample_dict Payload.sample_now
           (Payload.dict_set (Payload.literal "requesti")
              (Payload.literal "accounti" ++ Payload.sample_now)
              Payload.sample_dict)).
  - exact sample_dict_passes.
  - repeat (constructor; [reflexivity|]). constructor.
  - vm_compute. reflexivity.
Defined.

Lemma payload_count respondent_dict now d payload (c : N) :
  Payload.insert_respondent respondent_dict now = inr (d, payload) ->
  (c < 128)%N ->
  Payload.count c payload
    = Payload.count_items c d
      + (if (c =? 61)%N then length d else 0)
      + (if (c =? 38)%N then length d - 1 else 0).
Proof.
  unfold Payload.insert_respondent.
  destruct (Payload.dict_get _ respondent_dict) as [accounti|]; [|done].
  destruct (Payload.fields _) as [e|l] eqn:Ef; [done|].
  intros [= <- <-] Hc. by apply fields_count.
Qed.

(** X21: nothing is escaped: every ASCII character of the keys and values
    reaches the payload as it is, so the payload holds, for each item, one
    ['='] and, between two items, one ['&'], besides those the keys and
    values hold themselves. *)
Theorem payload_not_escaped respondent_dict now d payload (c : N) :
  Payload.insert_respondent respondent_dict now = inr (d, payload) ->
  (c < 128)%N ->
  Payload.count c payload
    = Payload.count_items c d
      + (if (c =? 61)%N then length d else 0)
      + (if (c =? 38)%N then length d - 1 else 0).
Proof. apply payload_count. Qed.

Lemma payload_not_escaped_witness :
  exists d payload,
    Payload.insert_respondent Payload.sample_dict Payload.sample_now
      = inr (d, payload) /\
    Payload.count 38 payload
      = Payload.count_items 38 d
        + (if (38 =? 61)%N then length d else 0)
        + (if (38 =? 38)%N then length d - 1 else 0).
Proof.
  eexists _, _. split; [vm_compute; reflexivity|].
  apply (payload_not_escaped Payload.sample_dict Payload.sample_now);
    [vm_compute; reflexivity | reflexivity].
Defined.

(** The field of [FIRSTNAME = "Zoë & Co"] adds a separator: 20 items, 20
    separators. *)
Example sample_payload_separators :
  exists d payload,
    Payload.insert_respondent Payload.sample_dict Payload.sample_now
      = inr (d, payload) /\
    length d = 20 /\ Payload.count 38 payload = 20.
Proof. eexists _, _. split; [vm_compute; reflexivity|]. split; reflexivity. Qed.

(** X22: [insert_respondent] writes into the dict of its caller: the dict
    has ['requesti'] afterwards, holding the value of ['accounti'] followed
    by the time stamp, and every other key holds what it held; without
    ['accounti'] the call raises [KeyError] and nothing is posted. *)
Theorem insert_respondent_sets_requesti (respondent_dict : Payload.dict)
    (now : Payload.pystr) :
  (forall d payload,
     Payload.insert_respondent respondent_dict now = inr (d, payload) ->
     exists accounti,
       Payload.dict_get (Payload.literal "accounti") respondent_dict
         = Some accounti /\
       Payload.dict_get (Payload.literal "requesti") d
         = Some (accounti ++ now) /\
       forall k, k <> Payload.literal "requesti" ->
                 Payload.dict_get k d = Payload.dict_get k respondent_dict) /\
  (Payload.dict_get (Payload.literal "accounti") respondent_dict = None ->
   Payload.insert_respondent respondent_dict now
     = inl (Payload.MissingKey (Payload.literal "accounti"))).
Proof.
  unfold Payload.insert_respondent. split.
  - intros d payload.
    destruct (Payload.dict_get _ respondent_dict) as [accounti|]; [|done].
    destruct (Payload.fields _) as [e|l]; [done|].
    intros [= <- <-]. exists accounti. split; [done|]. split.
    + apply dict_get_set_eq.
    + intros k Hk. by apply dict_get_set_ne.
  - by intros ->.
Qed.

Lemma insert_respondent_sets_requesti_witness :
  exists accounti,
    Payload.dict_get (Payload.literal "accounti") Payload.sample_dict
      = Some accounti /\
    Payload.dict_get (Payload.literal "requesti")
      (Payload.dict_set (Payload.literal "requesti")
         (Payload.literal "accounti" ++ Payload.sample_now)
         Payload.sample_dict)
      = Some (accounti ++ Payload.sample_now) /\
    forall k, k <> Payload.literal "requesti" ->
      Payload.dict_get k
        (Payload.dict_set (Payload.literal "requesti")
           (Payload.literal "accounti" ++ Payload.sample_now)
           Payload.sample_dict)
      = Payload.dict_get k Payload.sample_dict.
Proof.
  destruct (insert_respondent_sets_requesti Payload.sample_dict
              Payload.sample_now) as [H _].
  eapply H. vm_compute. reflexivity.
Defined.

(** ** The dict of a row *)

Lemma add_items_total (r : Payload.dict) (items : list (string * string))
    (d : Payload.dict) :
  (forall item, item ∈ items ->
                is_Some (Payload.dict_get (Payload.literal item.2) r)) ->
  exists d', Payload.add_items r items d = inr d'.
Proof.
  revert d. induction items as [|item items IH]; intros d Hall; simpl;
    [eauto|].
  unfold Payload.add_item.
  destruct (Hall item) as [v ->]; [apply elem_of_cons; by left|].
  apply IH. intros i Hi. apply Hall. apply elem_of_cons. by right.
Qed.

Lemma add_items_missing (r : Payload.dict) (items : list (string * string))
    (d : Payload.dict) (item : string * string) :
  item ∈ items ->
  Payload.dict_get (Payload.literal item.2) r = None ->
  exists k, Payload.add_items r items d = inl (Payload.MissingKey k).
Proof.
  revert d. induction items as [|i items IH]; intros d Hin Hnone;
    [inversion Hin|].
  simpl. unfold Payload.add_item.
  destruct (Payload.dict_get (Payload.literal i.2) r) as [v|] eqn:Ei;
    [|eauto].
  apply elem_of_cons in Hin as [->|Hin]; [congruence|].
  by apply IH.
Qed.

Lemma literal_inj (s t : string) :
  Payload.literal s = Payload.literal t -> s = t.
Proof.
  revert t. induction s as [|a s IH]; intros [|b t]; simpl; try done.
  intros [= Hab Hst]. f_equal; [|by apply IH].
  rewrite <- (Ascii.ascii_N_embedding a), <- (Ascii.ascii_N_embedding b).
  by rewrite Hab.
Qed.

(** What the items of the literal leave under a key: the value of the
    column of the last item of that key. *)
Lemma add_items_get (r : Payload.dict) (items : list (string * string))
    (d d' : Payload.dict) (item : string * string) :
  Payload.add_items r items d = inr d' ->
  item ∈ items ->
  (forall i, i ∈ items -> i.1 = item.1 -> i.2 = item.2) ->
  Payload.dict_get (Payload.literal item.1) d'
    = Payload.dict_get (Payload.literal item.2) r.
Proof.
  revert d. induction items as [|i items IH]; intros d H Hin Hfun;
    [inversion Hin|].
  simpl in H. unfold Payload.add_item in H.
  destruct (Payload.dict_get (Payload.literal i.2) r) as [v|] eqn:Ei;
    [|done].
  destruct (decide (item ∈ items)) as [Hin'|Hnot].
  - apply (IH _ H Hin'). intros j Hj. apply Hfun. apply elem_of_cons.
    by right.
  - apply elem_of_cons in Hin as [->|?]; [|done].
    assert (Hkeep : forall items0 d0 d1,
      Payload.add_items r items0 d0 = inr d1 ->
      (forall j, j ∈ items0 -> j.1 = i.1 -> j.2 = i.2) ->
      Payload.dict_get (Payload.literal i.1) d0 = Some v ->
      Payload.dict_get (Payload.literal i.1) d1 = Some v).
    { clear -Ei. induction items0 as [|j items0 IH0]; intros d0 d1 H0 Hf Hg.
      - simpl in H0. by injection H0 as <-.
      - simpl in H0. unfold Payload.add_item in H0.
        destruct (Payload.dict_get (Payload.literal j.2) r) as [w|] eqn:Ej;
          [|done].
        apply (IH0 _ _ H0).
        + intros j' Hj'. apply Hf. apply elem_of_cons. by right.
        + destruct (decide (j.1 = i.1)) as [Heq|Hne].
          * rewrite Heq, dict_get_set_eq.
            rewrite (Hf j) in Ej; [congruence | | done].
            apply elem_of_cons. by left.
          * rewrite dict_get_set_ne; [done|].
            intros Hl. by apply literal_inj in Hl. }
    rewrite Ei. apply (Hkeep items _ _ H).
    + intros j Hj. apply Hfun. apply elem_of_cons. by right.
    + apply dict_get_set_eq.
Qed.

Lemma columns_functional (item i : string * string) :
  item ∈ Payload.columns -> i ∈ Payload.columns ->
  i.1 = item.1 -> i.2 = item.2.
Proof.
  unfold Payload.columns. intros Hitem Hi.
  repeat (apply elem_of_cons in Hitem as [->|Hitem]);
    try (inversion Hitem);
    repeat (apply elem_of_cons in Hi as [->|Hi]);
    try (inversion Hi); simpl; intros; try reflexivity; discriminate.
Qed.

Lemma dict_set_keys (k v : Payload.pystr) (d : Payload.dict) :
  (Payload.dict_set k v d).*1
    = if decide (k ∈ d.*1) then d.*1 else d.*1 ++ [k].
Proof.
  induction d as [|[k' v'] d IH]; [done|].
  cbn [Payload.dict_set]. rewrite (fmap_cons fst (k', v') d).
  cbn [fst]. destruct (decide (k' = k)) as [->|Hne].
  - rewrite fmap_cons. cbn [fst].
    rewrite decide_True; [done|]. apply elem_of_cons. by left.
  - rewrite fmap_cons, IH. cbn [fst].
    destruct (decide (k ∈ d.*1)) as [Hin|Hnot].
    + rewrite decide_True; [done|]. apply elem_of_cons. by right.
    + rewrite decide_False; [done|]. intros Hin.
      apply elem_of_cons in Hin as [?|?]; congruence.
Qed.

(** The keys a run of the items leaves, in order. *)
Lemma add_items_keys (r : Payload.dict) (items : list (string * string))
    (d d' : Payload.dict) :
  Payload.add_items r items d = inr d' ->
  d'.*1 = foldl (fun ks (item : string * string) =>
                   if decide (Payload.literal item.1 ∈ ks) then ks
                   else ks ++ [Payload.literal item.1])
                d.*1 items.
Proof.
  revert d. induction items as [|i items IH]; intros d H; simpl in *.
  { by injection H as <-. }
  unfold Payload.add_item in H.
  destruct (Payload.dict_get (Payload.literal i.2) r) as [v|]; [|done].
  rewrite (IH _ H). by rewrite dict_set_keys.
Qed.

(** X23: the dict of a row is built exactly when the row has the column of
    every item of the literal, and [KeyError] is raised otherwise; it has
    the 19 keys of the literal in the order they are first written, the
    repeated ['permissi'] once, each holding the value of its column. *)
Theorem respondent_dict_of_row (r : Payload.dict) :
  ((forall item, item ∈ Payload.columns ->
                 is_Some (Payload.dict_get (Payload.literal item.2) r)) ->
   exists d,
     Payload.respondent_dict r = inr d /\
     d.*1 = Payload.literal <$> (take 19 Payload.columns).*1 /\
     forall item, item ∈ Payload.columns ->
       Payload.dict_get (Payload.literal item.1) d
         = Payload.dict_get (Payload.literal item.2) r) /\
  (forall item, item ∈ Payload.columns ->
     Payload.dict_get (Payload.literal item.2) r = None ->
     exists k, Payload.respondent_dict r = inl (Payload.MissingKey k)).
Proof.
  split.
  - intros Hall.
    destruct (add_items_total r Payload.columns [] Hall) as (d & Hd).
    exists d. split; [exact Hd|]. split.
    + rewrite (add_items_keys _ _ _ _ Hd). vm_compute. reflexivity.
    + intros item Hin. apply (add_items_get _ _ _ _ _ Hd Hin).
      intros i Hi. by apply columns_functional.
  - intros item Hin Hnone. by apply (add_items_missing r _ [] item).
Qed.

Lemma respondent_dict_of_row_witness :
  exists d,
    Payload.respondent_dict Payload.sample_row = inr d /\
    d.*1 = Payload.literal <$> (take 19 Payload.columns).*1 /\
    forall item, item ∈ Payload.columns ->
      Payload.dict_get (Payload.literal item.1) d
        = Payload.dict_get (Payload.literal item.2) Payload.sample_row.
Proof.
  destruct (respondent_dict_of_row Payload.sample_row) as [H _].
  apply H. intros item Hin. unfold Payload.columns in Hin.
  repeat (apply elem_of_cons in Hin as [->|Hin]; [by eexists|]).
  inversion Hin.
Defined.

(** X24: for a row with every column, [insert_respondent] is given 19
    items and posts 20, ['requesti'] last: the payload holds 19 ['&']
    besides those the values and the time stamp hold. *)
Theorem row_payload (r d0 d : Payload.dict) (now payload : Payload.pystr) :
  Payload.respondent_dict r = inr d0 ->
  Payload.insert_respondent d0 now = inr (d, payload) ->
  d.*1 = (Payload.literal <$> (take 19 Payload.columns).*1)
           ++ [Payload.literal "requesti"] /\
  Payload.count 38 payload = 19 + Payload.count_items 38 d.
Proof.
  intros Hr Hp.
  assert (Hkeys : d0.*1 = Payload.literal <$> (take 19 Payload.columns).*1).
  { unfold Payload.respondent_dict in Hr.
    rewrite (add_items_keys _ _ _ _ Hr). vm_compute. reflexivity. }
  assert (Hd : d.*1 = d0.*1 ++ [Payload.literal "requesti"]).
  { unfold Payload.insert_respondent in Hp.
    destruct (Payload.dict_get _ d0) as [accounti|]; [|done].
    destruct (Payload.fields _) as [e|l]; [done|].
    injection Hp as <- _. rewrite dict_set_keys, Hkeys.
    rewrite decide_False; [done|]. vm_compute. intros Hin.
    repeat (apply elem_of_cons in Hin as [Hin|Hin]; [discriminate|]).
    inversion Hin. }
  split; [by rewrite Hd, Hkeys|].
  rewrite (payload_count _ _ _ _ 38%N Hp) by reflexivity.
  assert (Hlen : length d = 20).
  { rewrite <- (length_fmap fst d), Hd, Hkeys. reflexivity. }
  rewrite Hlen. simpl. lia.
Qed.

Lemma row_payload_witness :
  exists d payload,
    Payload.insert_respondent Payload.sample_dict Payload.sample_now
      = inr (d, payload) /\
    d.*1 = (Payload.literal <$> (take 19 Payload.columns).*1)
             ++ [Payload.literal "requesti"] /\
    Payload.count 38 payload = 19 + Payload.count_items 38 d.
Proof.
  eexists _, _. split; [vm_compute; reflexivity|].
  apply (row_payload Payload.sample_row Payload.sample_dict _
           Payload.sample_now);
    vm_compute; reflexivity.
Defined.

(** ** The payload and the uploader

    On a dict of strings the uploader builds the payload of
    [Payload.insert_respondent]. *)

Lemma getitem_strings (k : Payload.pystr) (d : Payload.dict) :
  Uploader.getitem k (Uploader.strings d)
    = Uploader.Str <$> Payload.dict_get k d.
Proof.
  induction d as [|[k' v] d IH]; simpl; [done|].
  by destruct (decide (k' = k)).
Qed.

Lemma setitem_strings (k v : Payload.pystr) (d : Payload.dict) :
  Uploader.setitem k (Uploader.Str v) (Uploader.strings d)
    = Uploader.strings (Payload.dict_set k v d).
Proof.
  induction d as [|[k' v'] d IH]; simpl; [done|].
  destruct (decide (k' = k)); simpl; [done|]. by rewrite IH.
Qed.

Lemma fields_strings (d : Payload.dict) :
  Uploader.fields (Uploader.strings d)
    = match Payload.fields d with
      | inl _ => inl Uploader.EncodeFailure
      | inr l => inr l
      end.
Proof.
  induction d as [|[k v] d IH]; simpl; [done|].
  rewrite IH.
  by destruct (Payload.recode v), (Payload.fields d).
Qed.

Lemma payload_built_strings (w : Uploader.world) (d : Payload.dict) :
  Uploader.payload_built w (Uploader.strings d)
    = match Payload.insert_respondent d (Uploader.now w) with
      | inl _ => false
      | inr _ => true
      end.
Proof.
  unfold Uploader.payload_built, Uploader.new_requestid,
    Payload.insert_respondent, Uploader.payload.
  rewrite getitem_strings.
  destruct (Payload.dict_get (Payload.literal "accounti") d) as [accounti|];
    simpl; [|done].
  rewrite setitem_strings, fields_strings.
  by destruct (Payload.fields _).
Qed.
